(** * sqlite3db: migration manager, schema validator and transaction guards

    A shallow embedding of the C++ library [sqlite3db] (connection.cpp,
    statement.cpp, transaction.cpp, transaction.hpp, migration.cpp,
    exceptions.hpp and the statement builders of repository.cpp).

    - C++ exceptions are values of [Exn]; code that may throw lives in the
      state-and-exception monad [M].
    - The embedded SQL engine is an interface, the class [Sqlite3]; the
      wrapper classes are written once against any engine.
    - [MiniSQLite] is an executable engine for the statements the migration
      manager issues (transaction control, savepoints, the bookkeeping
      table); the migration theorems are proved on it.
    - RAII guards are explicit: [scoped] runs a destructor on every way out
      of a block. *)

From Stdlib Require Import ZArith String Ascii List Bool Lia DecimalString Sorted Permutation.
Import ListNotations.
Open Scope string_scope.
Open Scope list_scope.
Open Scope Z_scope.

Infix "+++" := String.append (right associativity, at level 60).

(** ** Engine result codes (sqlite3.h) *)

Definition SQLITE_OK : Z := 0.
Definition SQLITE_ERROR : Z := 1.
Definition SQLITE_CONSTRAINT : Z := 19.
Definition SQLITE_MISMATCH : Z := 20.
Definition SQLITE_RANGE : Z := 25.
Definition SQLITE_ROW : Z := 100.
Definition SQLITE_DONE : Z := 101.
(** Extended codes are [base | (N << 8)]. *)
Definition SQLITE_CONSTRAINT_PRIMARYKEY : Z := Z.lor SQLITE_CONSTRAINT (Z.shiftl 6 8).
Definition SQLITE_CONSTRAINT_UNIQUE : Z := Z.lor SQLITE_CONSTRAINT (Z.shiftl 8 8).

(** [int] is 32 bits wide; [sqlite3_column_int] keeps the low 32 bits of the
    stored 64-bit integer. *)
Definition to_int32 (z : Z) : Z := (z + 2^31) mod 2^32 - 2^31.

(** [std::to_string(int)]. *)
Definition to_string (n : Z) : string := NilZero.string_of_int (Z.to_int n).

Definition newline : string := String (ascii_of_nat 10) EmptyString.

(** ** exceptions.hpp *)

(** Every exception of the library derives from [std::exception] through
    [DatabaseException]; [std_exception] stands for any other
    [std::exception] a user procedure throws.  Each constructor keeps the
    arguments of the C++ constructor. *)
Inductive Exn : Type :=
| ConnectionException (message : string) (errorCode : Z)
| QueryException (message sql : string) (errorCode : Z)
| SchemaException (message : string)
| TransactionException (message : string) (errorCode : Z)
| ConstraintException (message : string) (errorCode : Z)
| MigrationException (message : string) (version : Z)
| std_exception (what_arg : string).

(** [DatabaseException::DatabaseException]: the text [what()] returns. *)
Definition fullMessage_ (message_ : string) (errorCode_ : Z) : string :=
  if negb (errorCode_ =? 0)
  then message_ +++ " (SQLite error code: " +++ to_string errorCode_ +++ ")"
  else message_.

Definition what (e : Exn) : string :=
  match e with
  | ConnectionException m c => fullMessage_ ("Connection error: " +++ m) c
  | QueryException m sql c =>
      fullMessage_ ("Query error: " +++ m) c +++ newline +++ "SQL: " +++ sql
  | SchemaException m => fullMessage_ ("Schema error: " +++ m) 0
  | TransactionException m c => fullMessage_ ("Transaction error: " +++ m) c
  | ConstraintException m c => fullMessage_ ("Constraint violation: " +++ m) c
  | MigrationException m v =>
      fullMessage_ ("Migration error at version " +++ to_string v +++ ": " +++ m) 0
  | std_exception w => w
  end.

Definition errorCode (e : Exn) : Z :=
  match e with
  | ConnectionException _ c | QueryException _ _ c
  | TransactionException _ c | ConstraintException _ c => c
  | SchemaException _ | MigrationException _ _ | std_exception _ => 0
  end.

(** [catch (const QueryException&)] selects exactly this class:
    [ConstraintException] derives from [DatabaseException], not from
    [QueryException]. *)
Definition is_QueryException (e : Exn) : bool :=
  match e with QueryException _ _ _ => true | _ => false end.

Definition is_ConstraintException (e : Exn) : bool :=
  match e with ConstraintException _ _ => true | _ => false end.

(** ** The state-and-exception monad *)

Inductive outcome (A : Type) : Type :=
| Ok (a : A)
| Throw (e : Exn).
Arguments Ok {A} a.
Arguments Throw {A} e.

Definition M (S A : Type) : Type := S -> outcome A * S.

Definition ret {S A} (a : A) : M S A := fun s => (Ok a, s).

Definition throw {S A} (e : Exn) : M S A := fun s => (Throw e, s).

Definition bind {S A B} (m : M S A) (k : A -> M S B) : M S B :=
  fun s => match m s with
           | (Ok a, s') => k a s'
           | (Throw e, s') => (Throw e, s')
           end.

Notation "x <- m ;; k" := (bind m (fun x => k))
  (at level 61, m at next level, right associativity).
Notation "m ;; k" := (bind m (fun _ => k))
  (at level 61, right associativity).

(** [try { body } catch (const C& e) { handler e }], where [sel] tells which
    exceptions are of class [C]; an exception of another class passes
    through. *)
Definition try_catch {S A} (body : M S A) (sel : Exn -> bool)
           (handler : Exn -> M S A) : M S A :=
  fun s => match body s with
           | (Ok a, s') => (Ok a, s')
           | (Throw e, s') => if sel e then handler e s' else (Throw e, s')
           end.

(** [catch (const std::exception&)] and [catch (...)]. *)
Definition any_exception (e : Exn) : bool := true.

(** A method of an object [O] that holds a pointer to the connection runs
    on the pair of the object's fields and the connection. *)
Definition on_conn {O db A} (m : M db A) : M (O * db) A :=
  fun s => let '(r, d) := m (snd s) in (r, (fst s, d)).

Definition get {S} : M S S := fun s => (Ok s, s).

Definition this {O db} : M (O * db) O := fun s => (Ok (fst s), s).

Definition assign {O db} (f : O -> O) : M (O * db) unit :=
  fun s => (Ok tt, (f (fst s), snd s)).

(** A block that owns the local object [o]: [body] runs with the object in
    scope and [dtor] runs when the block is left, by return or by
    exception; the block's outcome is the body's. *)
Definition scoped {O db A} (o : O) (body : M (O * db) A)
           (dtor : M (O * db) unit) : M db A :=
  fun d => let '(r, s) := body (o, d) in
           let '(_, s') := dtor s in
           (r, snd s').

(** ** The engine interface *)

(** The values a statement binds and reads ([Value] of statement.hpp; the
    [double] alternative is left out). *)
Inductive Value : Type :=
| VNull
| VInt (i : Z)
| VText (s : string)
| VBlob (b : list Z).

(** The calls of the SQLite C API the library makes.  A compiled statement
    is identified by what determines its behaviour: its SQL text, the
    values bound to it, and how many times it was stepped since the last
    reset.
    - [sqlite3_exec sql] gives the result code and [errMsg];
    - [sqlite3_prepare_v2 sql] gives the result code of compiling [sql];
    - [sqlite3_bind sql index v] is the result code of binding;
    - [sqlite3_step sql bound n] gives the result code and the row read. *)
Class Sqlite3 (db : Type) : Type := {
  sqlite3_exec : string -> db -> Z * option string * db;
  sqlite3_prepare_v2 : string -> db -> Z * db;
  sqlite3_bind : string -> Z -> Value -> Z;
  sqlite3_step : string -> list (Z * Value) -> nat -> db -> Z * list Value * db;
  sqlite3_errmsg : db -> string
}.

(** ** connection.cpp *)

Module Connection.
Section WithEngine.
Context {db : Type} `{Sqlite3 db}.

Definition execute (sql : string) : M db unit :=
  fun d =>
    let '(result, errMsg, d') := sqlite3_exec sql d in
    if negb (result =? SQLITE_OK) then
      let error := match errMsg with Some m => m | None => "Unknown error" end in
      if Z.land result 255 =? SQLITE_CONSTRAINT
      then (Throw (ConstraintException error result), d')
      else (Throw (QueryException error sql result), d')
    else (Ok tt, d').

End WithEngine.
End Connection.

(** ** statement.cpp *)

Module Statement.

(** [sql_] is the field of the class; [bound], [stepped] and [row] stand
    for the state behind the handle [stmt_]. *)
Record t : Type := mk {
  sql_ : string;
  bound : list (Z * Value);
  stepped : nat;
  row : list Value
}.

Section WithEngine.
Context {db : Type} `{Sqlite3 db}.

(** [Statement::Statement(conn, sql)], reached through
    [Connection::prepare]. *)
Definition prepare (sql : string) : M db t :=
  fun d =>
    let '(result, d') := sqlite3_prepare_v2 sql d in
    if negb (result =? SQLITE_OK)
    then (Throw (QueryException (sqlite3_errmsg d') sql result), d')
    else (Ok (mk sql [] 0%nat []), d').

Definition checkResult (result : Z) (operation : string) : M (t * db) unit :=
  fun s =>
    if negb (result =? SQLITE_OK)
    then (Throw (QueryException
                   (operation +++ " failed: " +++ sqlite3_errmsg (snd s))
                   (sql_ (fst s)) result), s)
    else (Ok tt, s).

Definition set_bound (index : Z) (v : Value) (st : t) : t :=
  mk (sql_ st) ((index, v) :: bound st) (stepped st) (row st).

(** [bind(int index, int value)]. *)
Definition bind_int (index : Z) (value : Z) : M (t * db) unit :=
  st <- this ;;
  let result := sqlite3_bind (sql_ st) index (VInt value) in
  (if result =? SQLITE_OK then assign (set_bound index (VInt value)) else ret tt) ;;
  checkResult result "bind int".

(** [bind(int index, const std::string& value)]. *)
Definition bind_text (index : Z) (value : string) : M (t * db) unit :=
  st <- this ;;
  let result := sqlite3_bind (sql_ st) index (VText value) in
  (if result =? SQLITE_OK then assign (set_bound index (VText value)) else ret tt) ;;
  checkResult result "bind text".

(** The call [sqlite3_step(stmt_)]: the engine runs the statement one step
    further; the handle remembers the row. *)
Definition do_step : M (t * db) Z :=
  fun s =>
    let st := fst s in
    let '(result, r, d') := sqlite3_step (sql_ st) (bound st) (stepped st) (snd s) in
    (Ok result, (mk (sql_ st) (bound st) (S (stepped st)) r, d')).

(** The call [sqlite3_reset(stmt_)]. *)
Definition do_reset : M (t * db) unit :=
  assign (fun st => mk (sql_ st) (bound st) 0%nat []).

Definition execute : M (t * db) unit :=
  result <- do_step ;;
  if negb (result =? SQLITE_DONE) && negb (result =? SQLITE_ROW) then
    s <- get ;;
    if result =? SQLITE_CONSTRAINT
    then throw (ConstraintException (sqlite3_errmsg (snd s)) result)
    else throw (QueryException (sqlite3_errmsg (snd s)) (sql_ (fst s)) result)
  else
    do_reset.

Definition step : M (t * db) bool :=
  result <- do_step ;;
  if result =? SQLITE_ROW then ret true
  else if result =? SQLITE_DONE then ret false
  else
    s <- get ;;
    throw (QueryException (sqlite3_errmsg (snd s)) (sql_ (fst s)) result).

Definition column (index : Z) (st : t) : Value :=
  if index <? 0 then VNull else nth (Z.to_nat index) (row st) VNull.

(** [sqlite3_column_type(stmt_, index) == SQLITE_NULL]. *)
Definition isNull (index : Z) (st : t) : bool :=
  match column index st with VNull => true | _ => false end.

(** [sqlite3_column_int]: an integer column narrowed to [int]; NULL reads
    as 0.  Text and blob columns are not read through this accessor by the
    code modelled here. *)
Definition columnInt (index : Z) (st : t) : Z :=
  match column index st with
  | VInt i => to_int32 i
  | _ => 0
  end.

(** [~Statement()]: finalizing releases the handle and has no effect on
    the database. *)
Definition dtor : M (t * db) unit := ret tt.

End WithEngine.
End Statement.

(** ** transaction.cpp *)

(** [Transaction::Savepoint]. *)
Module Savepoint.

(** [conn_] tells whether the pointer is non-null (it is null only in a
    moved-from guard). *)
Record t : Type := mk {
  conn_ : bool;
  name_ : string;
  active_ : bool
}.

Definition set_active (b : bool) (o : t) : t := mk (conn_ o) (name_ o) b.

Section WithEngine.
Context {db : Type} `{Sqlite3 db}.

(** [Savepoint::Savepoint(conn, name)], a public constructor. *)
Definition ctor (name : string) : M db t :=
  try_catch
    (Connection.execute ("SAVEPOINT " +++ name) ;; ret (mk true name true))
    is_QueryException
    (fun e => throw (TransactionException
                       ("Failed to create savepoint: " +++ what e) (errorCode e))).

Definition dtor : M (t * db) unit :=
  o <- this ;;
  if active_ o && conn_ o then
    try_catch (on_conn (Connection.execute ("RELEASE SAVEPOINT " +++ name_ o)))
              any_exception (fun _ => ret tt)
  else ret tt.

Definition release : M (t * db) unit :=
  o <- this ;;
  if negb (active_ o) then
    throw (TransactionException "Savepoint already ended" 0)
  else
    try_catch
      (on_conn (Connection.execute ("RELEASE SAVEPOINT " +++ name_ o)) ;;
       assign (set_active false))
      is_QueryException
      (fun e => throw (TransactionException
                         ("Failed to release savepoint: " +++ what e) (errorCode e))).

Definition rollback : M (t * db) unit :=
  o <- this ;;
  if negb (active_ o) then
    throw (TransactionException "Savepoint already ended" 0)
  else
    try_catch
      (on_conn (Connection.execute ("ROLLBACK TO SAVEPOINT " +++ name_ o)) ;;
       on_conn (Connection.execute ("RELEASE SAVEPOINT " +++ name_ o)) ;;
       assign (set_active false))
      is_QueryException
      (fun e => throw (TransactionException
                         ("Failed to rollback to savepoint: " +++ what e) (errorCode e))).

(** [Savepoint::Savepoint(Savepoint&& other)]: runs on [other] and gives
    the new guard.  The moved-from string is left empty; the guard never
    reads it again. *)
Definition move_ctor : M (t * db) t :=
  other <- this ;;
  assign (fun _ => mk false "" false) ;;
  ret (mk (conn_ other) (name_ other) (active_ other)).

(** [Savepoint::operator=(Savepoint&& other)] for [this != &other]: the
    state holds the pair [(this, other)] and the connection.  (For
    [this == &other] the operator does nothing.) *)
Definition move_assign : M ((t * t) * db) unit :=
  fun s =>
    let '((self, other), d) := s in
    let '(_, (_, d')) :=
      (if active_ self && conn_ self then
         try_catch (on_conn (Connection.execute ("RELEASE SAVEPOINT " +++ name_ self)))
                   any_exception (fun _ => ret tt)
       else ret tt) (self, d) in
    (Ok tt, ((mk (conn_ other) (name_ other) (active_ other), mk false "" false), d')).

End WithEngine.
End Savepoint.

Module Transaction.

Inductive TransactionType : Type := Deferred | Immediate | Exclusive.

(** [conn_] tells whether the pointer is non-null; [active_] is true until
    commit or rollback. *)
Record t : Type := mk {
  conn_ : bool;
  active_ : bool
}.

Definition set_active (b : bool) (o : t) : t := mk (conn_ o) b.

Definition begin_sql (type : TransactionType) : string :=
  match type with
  | Deferred => "BEGIN DEFERRED TRANSACTION"
  | Immediate => "BEGIN IMMEDIATE TRANSACTION"
  | Exclusive => "BEGIN EXCLUSIVE TRANSACTION"
  end.

Section WithEngine.
Context {db : Type} `{Sqlite3 db}.

(** [Transaction::Transaction(conn, type)]. *)
Definition ctor (type : TransactionType) : M db t :=
  try_catch
    (Connection.execute (begin_sql type) ;; ret (mk true true))
    is_QueryException
    (fun e => throw (TransactionException
                       ("Failed to begin transaction: " +++ what e) (errorCode e))).

(** [Transaction::~Transaction()]. *)
Definition dtor : M (t * db) unit :=
  o <- this ;;
  if active_ o && conn_ o then
    try_catch (on_conn (Connection.execute "ROLLBACK"))
              any_exception (fun _ => ret tt)
  else ret tt.

Definition commit : M (t * db) unit :=
  o <- this ;;
  if negb (active_ o) then
    throw (TransactionException "Transaction already ended" 0)
  else
    try_catch
      (on_conn (Connection.execute "COMMIT") ;; assign (set_active false))
      is_QueryException
      (fun e => throw (TransactionException
                         ("Failed to commit: " +++ what e) (errorCode e))).

Definition rollback : M (t * db) unit :=
  o <- this ;;
  if negb (active_ o) then
    throw (TransactionException "Transaction already ended" 0)
  else
    try_catch
      (on_conn (Connection.execute "ROLLBACK") ;; assign (set_active false))
      is_QueryException
      (fun e => throw (TransactionException
                         ("Failed to rollback: " +++ what e) (errorCode e))).

Definition savepoint (name : string) : M (t * db) Savepoint.t :=
  o <- this ;;
  if negb (active_ o) then
    throw (TransactionException
             "Cannot create savepoint: transaction not active" 0)
  else
    on_conn (Savepoint.ctor name).

(** [Transaction::Transaction(Transaction&& other)]: runs on [other] and
    gives the new guard. *)
Definition move_ctor : M (t * db) t :=
  other <- this ;;
  assign (fun _ => mk false false) ;;
  ret (mk (conn_ other) (active_ other)).

(** [Transaction::operator=(Transaction&& other)] for [this != &other]:
    the state holds the pair [(this, other)] and the connection.  (For
    [this == &other] the operator does nothing.) *)
Definition move_assign : M ((t * t) * db) unit :=
  fun s =>
    let '((self, other), d) := s in
    let '(_, (_, d')) :=
      (if active_ self && conn_ self then
         try_catch (on_conn (Connection.execute "ROLLBACK"))
                   any_exception (fun _ => ret tt)
       else ret tt) (self, d) in
    (Ok tt, ((mk (conn_ other) (active_ other), mk false false), d')).

End WithEngine.
End Transaction.

(** ** transaction.hpp: the helpers [withTransaction] and [withTransactionVoid] *)

Section WithTransaction.
Context {db : Type} `{Sqlite3 db}.

(** [func] receives the guard by reference and sees the connection it
    captured. *)
Definition withTransaction {A : Type} (func : M (Transaction.t * db) A) : M db A :=
  txn <- Transaction.ctor Transaction.Deferred ;;
  scoped txn
    (result <- func ;;
     Transaction.commit ;;
     ret result)
    Transaction.dtor.

Definition withTransactionVoid (func : M (Transaction.t * db) unit) : M db unit :=
  txn <- Transaction.ctor Transaction.Deferred ;;
  scoped txn
    (func ;;
     Transaction.commit)
    Transaction.dtor.

End WithTransaction.

(** ** SQL texts of migration.cpp *)

Definition create_migrations_sql : string :=
"
        CREATE TABLE IF NOT EXISTS __migrations (
            version INTEGER PRIMARY KEY,
            description TEXT NOT NULL,
            applied_at INTEGER NOT NULL DEFAULT (strftime('%s', 'now'))
        )
    ".

Definition select_max_sql : string := "SELECT MAX(version) FROM __migrations".

Definition insert_sql : string :=
  "INSERT INTO __migrations (version, description) VALUES (?, ?)".

Definition delete_sql : string := "DELETE FROM __migrations WHERE version = ?".

(** ** ASCII letters and digits *)

Definition is_upper_letter (c : ascii) : bool :=
  Nat.leb 65 (nat_of_ascii c) && Nat.leb (nat_of_ascii c) 90.

Definition is_lower_letter (c : ascii) : bool :=
  Nat.leb 97 (nat_of_ascii c) && Nat.leb (nat_of_ascii c) 122.

Definition is_digit (c : ascii) : bool :=
  Nat.leb 48 (nat_of_ascii c) && Nat.leb (nat_of_ascii c) 57.

(** The same character, or the same letter in its two cases (a lower-case
    letter is 32 above its upper-case form). *)
Definition same_letter (a b : ascii) : bool :=
  Ascii.eqb a b
  || is_lower_letter a && Nat.eqb (nat_of_ascii b + 32) (nat_of_ascii a)
  || is_lower_letter b && Nat.eqb (nat_of_ascii a + 32) (nat_of_ascii b).

(** Equality of strings up to the case of ASCII letters. *)
Fixpoint same_ignoring_case (a b : string) : bool :=
  match a, b with
  | EmptyString, EmptyString => true
  | String x a', String y b' => same_letter x y && same_ignoring_case a' b'
  | _, _ => false
  end.

(** ** MiniSQLite: an executable engine for the statements of the library *)

(** The engine keeps the last committed state and, while a transaction is
    open, the working state and the stack of savepoints.  It interprets
    BEGIN, COMMIT, ROLLBACK, the three savepoint statements for plain
    savepoint names, the creation of the bookkeeping table and the three
    statements on it, and refuses any other statement; user data is a
    value of an arbitrary type [U] that the procedures of the caller
    transform.  The column [applied_at] (a timestamp) is not kept. *)
Module MiniSQLite.

Fixpoint strip_prefix (p s : string) : option string :=
  match p with
  | EmptyString => Some s
  | String a p' =>
      match s with
      | String b s' => if Ascii.eqb a b then strip_prefix p' s' else None
      | EmptyString => None
      end
  end.

Fixpoint all_chars (p : ascii -> bool) (s : string) : bool :=
  match s with
  | EmptyString => true
  | String c rest => p c && all_chars p rest
  end.

Fixpoint any_char (p : ascii -> bool) (s : string) : bool :=
  match s with
  | EmptyString => false
  | String c rest => p c || any_char p rest
  end.

Definition name_char (c : ascii) : bool :=
  is_upper_letter c || is_lower_letter c || is_digit c || Ascii.eqb c "_".

(** The savepoint names the engine interprets: identifiers made of
    letters, digits and underscores that do not start with a digit and
    hold at least one digit, so that they are no SQL keyword.  [sqlite3_exec]
    parses the text that follows SAVEPOINT: the empty text is a syntax
    error, a keyword may be one, text with a semicolon holds further
    statements, and quoted names are names too; a statement whose name is
    not plain is outside what the engine interprets and is refused, with
    the result code 1 of a syntax error and a message of the model's own. *)
Definition plain_name (name : string) : bool :=
  match name with
  | EmptyString => false
  | String c _ => negb (is_digit c) && all_chars name_char name && any_char is_digit name
  end.

(** Messages of the engine. *)
Definition outside_fragment : string := "statement outside the modelled fragment".
Definition unique_failed : string := "UNIQUE constraint failed: __migrations.version".
Definition no_such_table : string := "no such table: __migrations".
Definition no_nested_begin : string := "cannot start a transaction within a transaction".
Definition no_commit : string := "cannot commit - no transaction is active".
Definition no_rollback : string := "cannot rollback - no transaction is active".

Section Engine.
Context {U : Type}.

(** [migrations_table] is [None] until the table [__migrations] exists;
    its rows are (version, description). *)
Record Store : Type := mkStore {
  user : U;
  migrations_table : option (list (Z * string))
}.

(** [work] is the uncommitted state the connection sees; [saves] the open
    savepoints, innermost first, each with the state to return to;
    [implicit] tells that SAVEPOINT, not BEGIN, opened the transaction. *)
Record Txn : Type := mkTxn {
  work : Store;
  saves : list (string * Store);
  implicit : bool
}.

(** [extended] is the setting of [sqlite3_extended_result_codes];
    [history] lists the statements run, oldest first, with the values
    bound. *)
Record DB : Type := mkDB {
  committed : Store;
  txn : option Txn;
  extended : bool;
  errmsg : string;
  history : list (string * list (Z * Value))
}.

Definition with_committed (s : Store) (d : DB) : DB :=
  mkDB s (txn d) (extended d) (errmsg d) (history d).

Definition with_txn (o : option Txn) (d : DB) : DB :=
  mkDB (committed d) o (extended d) (errmsg d) (history d).

Definition with_errmsg (m : string) (d : DB) : DB :=
  mkDB (committed d) (txn d) (extended d) m (history d).

Definition logged (sql : string) (b : list (Z * Value)) (d : DB) : DB :=
  mkDB (committed d) (txn d) (extended d) (errmsg d) (history d ++ [(sql, b)]).

(** The state statements read. *)
Definition visible (d : DB) : Store :=
  match txn d with
  | Some t => work t
  | None => committed d
  end.

(** A write goes to the working state of the open transaction, or, in
    autocommit mode, straight to the committed state. *)
Definition write (f : Store -> Store) (d : DB) : DB :=
  match txn d with
  | Some t => with_txn (Some (mkTxn (f (work t)) (saves t) (implicit t))) d
  | None => with_committed (f (committed d)) d
  end.

Definition ensure_table (s : Store) : Store :=
  match migrations_table s with
  | Some _ => s
  | None => mkStore (user s) (Some [])
  end.

Definition has_version (v : Z) (rows : list (Z * string)) : bool :=
  existsb (fun r => fst r =? v) rows.

Definition insert_row (v : Z) (desc : string) (s : Store) : Store :=
  match migrations_table s with
  | Some rows => mkStore (user s) (Some (rows ++ [(v, desc)]))
  | None => s
  end.

Definition delete_row (v : Z) (s : Store) : Store :=
  match migrations_table s with
  | Some rows => mkStore (user s) (Some (filter (fun r => negb (fst r =? v)) rows))
  | None => s
  end.

(** [MAX(version)]: NULL on an empty table. *)
Fixpoint max_version (rows : list (Z * string)) : option Z :=
  match rows with
  | [] => None
  | (v, _) :: rest =>
      match max_version rest with
      | Some m => Some (Z.max v m)
      | None => Some v
      end
  end.

(** The innermost savepoint called [name]: its saved state and the
    savepoints outside it.  Savepoint names are compared without regard
    to the case of letters. *)
Fixpoint find_save (name : string) (l : list (string * Store))
  : option (Store * list (string * Store)) :=
  match l with
  | [] => None
  | (n, s) :: rest =>
      if same_ignoring_case n name then Some (s, rest) else find_save name rest
  end.

Definition succeed (d : DB) : Z * option string * DB := (SQLITE_OK, None, d).

Definition fail (msg : string) (d : DB) : Z * option string * DB :=
  (SQLITE_ERROR, Some msg, with_errmsg msg d).

Definition is_begin (sql : string) : bool :=
  String.eqb sql "BEGIN DEFERRED TRANSACTION"
  || String.eqb sql "BEGIN IMMEDIATE TRANSACTION"
  || String.eqb sql "BEGIN EXCLUSIVE TRANSACTION".

Definition do_commit (t : Txn) (d : DB) : DB :=
  with_txn None (with_committed (work t) d).

Definition exec_savepoint (name : string) (d : DB) : Z * option string * DB :=
  match txn d with
  | None =>
      succeed (with_txn (Some (mkTxn (committed d) [(name, committed d)] true)) d)
  | Some t =>
      succeed (with_txn (Some (mkTxn (work t) ((name, work t) :: saves t) (implicit t))) d)
  end.

Definition exec_release (name : string) (d : DB) : Z * option string * DB :=
  match txn d with
  | None => fail ("no such savepoint: " +++ name) d
  | Some t =>
      match find_save name (saves t) with
      | None => fail ("no such savepoint: " +++ name) d
      | Some (_, outer) =>
          match outer with
          | [] => if implicit t then succeed (do_commit t d)
                  else succeed (with_txn (Some (mkTxn (work t) [] false)) d)
          | _ :: _ => succeed (with_txn (Some (mkTxn (work t) outer (implicit t))) d)
          end
      end
  end.

Definition exec_rollback_to (name : string) (d : DB) : Z * option string * DB :=
  match txn d with
  | None => fail ("no such savepoint: " +++ name) d
  | Some t =>
      match find_save name (saves t) with
      | None => fail ("no such savepoint: " +++ name) d
      | Some (s, outer) =>
          succeed (with_txn (Some (mkTxn s ((name, s) :: outer) (implicit t))) d)
      end
  end.

Definition exec (sql : string) (d0 : DB) : Z * option string * DB :=
  let d := logged sql [] d0 in
  if is_begin sql then
    match txn d with
    | Some _ => fail no_nested_begin d
    | None => succeed (with_txn (Some (mkTxn (committed d) [] false)) d)
    end
  else if String.eqb sql "COMMIT" then
    match txn d with
    | Some t => succeed (do_commit t d)
    | None => fail no_commit d
    end
  else if String.eqb sql "ROLLBACK" then
    match txn d with
    | Some _ => succeed (with_txn None d)
    | None => fail no_rollback d
    end
  else if String.eqb sql create_migrations_sql then
    succeed (write ensure_table d)
  else
    match strip_prefix "SAVEPOINT " sql with
    | Some name =>
        if plain_name name then exec_savepoint name d else fail outside_fragment d
    | None =>
    match strip_prefix "RELEASE SAVEPOINT " sql with
    | Some name =>
        if plain_name name then exec_release name d else fail outside_fragment d
    | None =>
    match strip_prefix "ROLLBACK TO SAVEPOINT " sql with
    | Some name =>
        if plain_name name then exec_rollback_to name d else fail outside_fragment d
    | None => fail outside_fragment d
    end end end.

Definition is_bookkeeping (sql : string) : bool :=
  String.eqb sql select_max_sql || String.eqb sql insert_sql
  || String.eqb sql delete_sql.

Definition prepare (sql : string) (d : DB) : Z * DB :=
  if is_bookkeeping sql then
    match migrations_table (visible d) with
    | Some _ => (SQLITE_OK, d)
    | None => (SQLITE_ERROR, with_errmsg no_such_table d)
    end
  else (SQLITE_ERROR, with_errmsg "statement outside the modelled fragment" d).

Definition parameter_count (sql : string) : Z :=
  if String.eqb sql insert_sql then 2
  else if String.eqb sql delete_sql then 1
  else 0.

Definition bind_result (sql : string) (index : Z) (v : Value) : Z :=
  if (1 <=? index) && (index <=? parameter_count sql) then SQLITE_OK
  else SQLITE_RANGE.

(** The value bound last to placeholder [index]; NULL when none was. *)
Definition param (index : Z) (bound : list (Z * Value)) : Value :=
  match find (fun p => fst p =? index) bound with
  | Some p => snd p
  | None => VNull
  end.

Definition constraint_code (d : DB) : Z :=
  if extended d then SQLITE_CONSTRAINT_PRIMARYKEY else SQLITE_CONSTRAINT.

Definition step (sql : string) (bound : list (Z * Value)) (n : nat) (d0 : DB)
  : Z * list Value * DB :=
  let d := logged sql bound d0 in
  match migrations_table (visible d) with
  | None => (SQLITE_ERROR, [], with_errmsg no_such_table d)
  | Some rows =>
      if String.eqb sql select_max_sql then
        match n with
        | O => (SQLITE_ROW,
                [match max_version rows with Some m => VInt m | None => VNull end], d)
        | S _ => (SQLITE_DONE, [], d)
        end
      else if String.eqb sql insert_sql then
        match param 1 bound, param 2 bound with
        | VInt v, VText desc =>
            if has_version v rows
            then (constraint_code d, [],
                  with_errmsg unique_failed d)
            else (SQLITE_DONE, [], write (insert_row v desc) d)
        | _, _ => (SQLITE_MISMATCH, [], with_errmsg "datatype mismatch" d)
        end
      else if String.eqb sql delete_sql then
        match param 1 bound with
        | VInt v => (SQLITE_DONE, [], write (delete_row v) d)
        | _ => (SQLITE_DONE, [], d)
        end
      else (SQLITE_ERROR, [], with_errmsg "statement outside the modelled fragment" d)
  end.

#[global] Instance engine : Sqlite3 DB := {
  sqlite3_exec := exec;
  sqlite3_prepare_v2 := prepare;
  sqlite3_bind := bind_result;
  sqlite3_step := step;
  sqlite3_errmsg := errmsg
}.

End Engine.
Arguments Store : clear implicits.
Arguments Txn : clear implicits.
Arguments DB : clear implicits.
End MiniSQLite.

(** ** migration.cpp: MigrationManager *)

(** [std::sort(first, last)] and [std::sort(first, last, std::greater<int>())]
    as insertion sort under the order [before]. *)
Fixpoint insert_sorted (before : Z -> Z -> bool) (x : Z) (l : list Z) : list Z :=
  match l with
  | [] => [x]
  | y :: rest => if before y x then y :: insert_sorted before x rest else x :: l
  end.

Fixpoint std_sort (before : Z -> Z -> bool) (l : list Z) : list Z :=
  match l with
  | [] => []
  | x :: rest => insert_sorted before x (std_sort before rest)
  end.

Module MigrationManager.
Section WithEngine.
Context {db : Type} `{Sqlite3 db}.

(** [struct Migration]; [down] is [None] for an empty [std::function]. *)
Record Migration : Type := mkMigration {
  version : Z;
  description : string;
  up : M db unit;
  down : option (M db unit)
}.

(** [std::map<int, Migration> migrations_]: the entries in ascending key
    order. *)
Definition t : Type := list (Z * Migration).

Definition empty : t := [].

(** [migrations_.count(k)]. *)
Definition count (k : Z) (mgr : t) : Z :=
  if existsb (fun e => fst e =? k) mgr then 1 else 0.

(** [migrations_.at(k)]; [None] where [at] throws [std::out_of_range]. *)
Definition at_ (k : Z) (mgr : t) : option Migration :=
  match find (fun e => fst e =? k) mgr with
  | Some e => Some (snd e)
  | None => None
  end.

(** [migrations_.emplace(k, m)]: no effect when the key is present. *)
Fixpoint emplace (k : Z) (m : Migration) (mgr : t) : t :=
  match mgr with
  | [] => [(k, m)]
  | e :: rest =>
      if k <? fst e then (k, m) :: mgr
      else if k =? fst e then mgr
      else e :: emplace k m rest
  end.

Definition add (migration : Migration) (mgr : t) : outcome t :=
  if version migration <=? 0 then
    Throw (MigrationException "Migration version must be positive" (version migration))
  else if count (version migration) mgr >? 0 then
    Throw (MigrationException "Duplicate migration version" (version migration))
  else Ok (emplace (version migration) migration mgr).

(** [add(version, description, up)] and [add(version, description, up, down)]. *)
Definition add_up (version : Z) (description : string) (up : M db unit) (mgr : t)
  : outcome t :=
  add (mkMigration version description up None) mgr.

Definition add_up_down (version : Z) (description : string) (up down : M db unit)
           (mgr : t) : outcome t :=
  add (mkMigration version description up (Some down)) mgr.

Definition ensureMigrationTable : M db unit :=
  Connection.execute create_migrations_sql.

Definition currentVersion : M db Z :=
  ensureMigrationTable ;;
  stmt <- Statement.prepare select_max_sql ;;
  scoped stmt
    (has_row <- Statement.step ;;
     if has_row : bool then
       st <- this ;;
       if Statement.isNull 0 st then ret 0
       else ret (Statement.columnInt 0 st)
     else ret 0)
    Statement.dtor.

(** [migrations_.rbegin()->first]. *)
Definition latestVersion (mgr : t) : Z :=
  match mgr with
  | [] => 0
  | e :: rest => fst (last rest e)
  end.

Definition pending (mgr : t) : M db (list Migration) :=
  current <- currentVersion ;;
  ret (map snd (filter (fun e => fst e >? current) mgr)).

Definition isUpToDate (mgr : t) : M db bool :=
  current <- currentVersion ;;
  ret (current >=? latestVersion mgr).

Definition out_of_range : Exn := std_exception "map::at".

Definition recordMigration (mgr : t) (version : Z) : M db unit :=
  match at_ version mgr with
  | None => throw out_of_range
  | Some migration =>
      stmt <- Statement.prepare insert_sql ;;
      scoped stmt
        (Statement.bind_int 1 version ;;
         Statement.bind_text 2 (description migration) ;;
         Statement.execute)
        Statement.dtor
  end.

Definition removeMigrationRecord (version : Z) : M db unit :=
  stmt <- Statement.prepare delete_sql ;;
  scoped stmt
    (Statement.bind_int 1 version ;; Statement.execute)
    Statement.dtor.

(** The versions the loop over [migrations_] pushes, in map order. *)
Definition collect (keep : Z -> bool) (mgr : t) : list Z :=
  filter keep (map fst mgr).

(** The body of the loop of [applyTo] for one version. *)
Definition apply_one (mgr : t) (version : Z) : M db unit :=
  match at_ version mgr with
  | None => throw out_of_range
  | Some migration =>
      txn <- Transaction.ctor Transaction.Deferred ;;
      scoped txn
        (try_catch
           (on_conn (up migration) ;;
            on_conn (recordMigration mgr version) ;;
            Transaction.commit)
           any_exception
           (fun e => throw (MigrationException
                              ("Migration failed: " +++ what e) version)))
        Transaction.dtor
  end.

Fixpoint apply_each (mgr : t) (toApply : list Z) : M db unit :=
  match toApply with
  | [] => ret tt
  | version :: rest => apply_one mgr version ;; apply_each mgr rest
  end.

Definition applyTo (mgr : t) (targetVersion : Z) : M db unit :=
  ensureMigrationTable ;;
  current <- currentVersion ;;
  let toApply :=
    std_sort Z.leb
      (collect (fun version => (version >? current) && (version <=? targetVersion)) mgr) in
  apply_each mgr toApply.

Definition apply (mgr : t) : M db unit :=
  applyTo mgr (latestVersion mgr).

(** The body of the loop of [rollbackTo] for one version. *)
Definition rollback_one (mgr : t) (version : Z) : M db unit :=
  match at_ version mgr with
  | None => throw out_of_range
  | Some migration =>
      match down migration with
      | None =>
          throw (MigrationException "Migration has no rollback function" version)
      | Some down_fn =>
          txn <- Transaction.ctor Transaction.Deferred ;;
          scoped txn
            (try_catch
               (on_conn down_fn ;;
                on_conn (removeMigrationRecord version) ;;
                Transaction.commit)
               any_exception
               (fun e => throw (MigrationException
                                  ("Rollback failed: " +++ what e) version)))
            Transaction.dtor
      end
  end.

Fixpoint rollback_each (mgr : t) (toRollback : list Z) : M db unit :=
  match toRollback with
  | [] => ret tt
  | version :: rest => rollback_one mgr version ;; rollback_each mgr rest
  end.

Definition rollbackTo (mgr : t) (targetVersion : Z) : M db unit :=
  current <- currentVersion ;;
  if targetVersion >=? current then ret tt
  else
    let toRollback :=
      std_sort Z.geb
        (collect (fun version => (version >? targetVersion) && (version <=? current)) mgr) in
    rollback_each mgr toRollback.

End WithEngine.
Arguments Migration db : clear implicits.
Arguments t db : clear implicits.
End MigrationManager.

(** ** migration.cpp: SchemaValidator *)

(** [std::toupper] in the C locale. *)
Definition toupper (c : ascii) : ascii :=
  let n := nat_of_ascii c in
  if (Nat.leb 97 n && Nat.leb n 122)%bool then ascii_of_nat (n - 32) else c.

Fixpoint upper (s : string) : string :=
  match s with
  | EmptyString => EmptyString
  | String c rest => String (toupper c) (upper rest)
  end.

(** [haystack.find(needle) != std::string::npos]. *)
Fixpoint contains (haystack needle : string) : bool :=
  String.prefix needle haystack ||
  match haystack with
  | EmptyString => false
  | String _ rest => contains rest needle
  end.

(** The catalog of the engine as [validate] reads it.  Each query may fail
    with the exception [Connection::prepare], [Statement::bind] or
    [Statement::step] throws.
    - [master_table name]: whether
      [SELECT 1 FROM sqlite_master WHERE type='table' AND name=?] has a row;
    - [table_info table]: the rows [PRAGMA table_info(table)] yields, in
      order, and the exception that ends the cursor if it does not end with
      "done";
    - [master_index table index]: whether
      [SELECT 1 FROM sqlite_master WHERE type='index' AND tbl_name=? AND name=?]
      has a row. *)
Module Catalog.

(** Columns 1, 2 and 3 of a row of [PRAGMA table_info]. *)
Record ColumnInfo : Type := mkColumnInfo {
  name : string;
  type : string;
  notnull : Z
}.

Record t : Type := mk {
  master_table : string -> outcome bool;
  table_info : string -> outcome (list ColumnInfo * option Exn);
  master_index : string -> string -> outcome bool
}.

End Catalog.

Module SchemaValidator.

Record ValidationError : Type := mkError {
  type : string;
  message : string
}.

Record TableRequirement : Type := mkTable {
  name : string
}.

Record ColumnRequirement : Type := mkColumn {
  tableName : string;
  columnName : string;
  expectedType : string;
  requireNotNull_ : bool
}.

Record IndexRequirement : Type := mkIndex {
  index_tableName : string;
  indexName : string
}.

Record t : Type := mk {
  tableRequirements_ : list TableRequirement;
  columnRequirements_ : list ColumnRequirement;
  indexRequirements_ : list IndexRequirement
}.

Definition empty : t := mk [] [] [].

Definition requireTable (tableName : string) (v : t) : t :=
  mk (tableRequirements_ v ++ [mkTable tableName])
     (columnRequirements_ v) (indexRequirements_ v).

Definition requireColumn (tableName columnName expectedType : string) (v : t) : t :=
  mk (tableRequirements_ v)
     (columnRequirements_ v ++ [mkColumn tableName columnName expectedType false])
     (indexRequirements_ v).

Definition same_column (tableName columnName : string) (req : ColumnRequirement) : bool :=
  String.eqb (SchemaValidator.tableName req) tableName
  && String.eqb (SchemaValidator.columnName req) columnName.

(** The loop of [requireNotNull]: the first requirement for the column gets
    the flag; [None] when the loop ends without finding one. *)
Fixpoint mark_not_null (tableName columnName : string)
         (reqs : list ColumnRequirement) : option (list ColumnRequirement) :=
  match reqs with
  | [] => None
  | req :: rest =>
      if same_column tableName columnName req then
        Some (mkColumn (SchemaValidator.tableName req) (SchemaValidator.columnName req)
                       (expectedType req) true :: rest)
      else
        match mark_not_null tableName columnName rest with
        | Some rest' => Some (req :: rest')
        | None => None
        end
  end.

Definition requireNotNull (tableName columnName : string) (v : t) : t :=
  match mark_not_null tableName columnName (columnRequirements_ v) with
  | Some reqs => mk (tableRequirements_ v) reqs (indexRequirements_ v)
  | None =>
      mk (tableRequirements_ v)
         (columnRequirements_ v ++ [mkColumn tableName columnName "" true])
         (indexRequirements_ v)
  end.

Definition requireIndex (tableName indexName : string) (v : t) : t :=
  mk (tableRequirements_ v) (columnRequirements_ v)
     (indexRequirements_ v ++ [mkIndex tableName indexName]).

(** [validate] runs with the vector [errors] as its state. *)
Definition V (A : Type) : Type := M (list ValidationError) A.

Definition push_back (e : ValidationError) : V unit :=
  fun errors => (Ok tt, errors ++ [e]).

Definition query {A} (r : outcome A) : V A := fun errors => (r, errors).

Section Validate.
Variable conn : Catalog.t.

Fixpoint check_tables (reqs : list TableRequirement) : V unit :=
  match reqs with
  | [] => ret tt
  | req :: rest =>
      has_row <- query (Catalog.master_table conn (name req)) ;;
      (if negb has_row then
         push_back (mkError "missing_table"
                      ("Required table '" +++ name req +++ "' does not exist"))
       else ret tt) ;;
      check_tables rest
  end.

Definition check_type (req : ColumnRequirement) (colType : string) : V unit :=
  if negb (String.eqb (expectedType req) "") then
    let upperExpected := upper (expectedType req) in
    let upperActual := upper colType in
    if negb (contains upperActual upperExpected) then
      push_back (mkError "wrong_type"
                   ("Column '" +++ tableName req +++ "." +++ columnName req +++
                    "' has type '" +++ colType +++ "', expected '" +++
                    expectedType req +++ "'"))
    else ret tt
  else ret tt.

Definition check_not_null (req : ColumnRequirement) (notNull : Z) : V unit :=
  if requireNotNull_ req then
    if notNull =? 0 then
      push_back (mkError "nullable"
                   ("Column '" +++ tableName req +++ "." +++ columnName req +++
                    "' should be NOT NULL"))
    else ret tt
  else ret tt.

(** [while (stmt.step()) { ... break; }] over the rows of
    [PRAGMA table_info]; the result is [found]. *)
Fixpoint scan_columns (req : ColumnRequirement) (rows : list Catalog.ColumnInfo)
         (ending : option Exn) : V bool :=
  match rows with
  | [] =>
      match ending with
      | Some e => throw e
      | None => ret false
      end
  | r :: rest =>
      if String.eqb (Catalog.name r) (columnName req) then
        check_type req (Catalog.type r) ;;
        check_not_null req (Catalog.notnull r) ;;
        ret true
      else scan_columns req rest ending
  end.

Fixpoint check_columns (reqs : list ColumnRequirement) : V unit :=
  match reqs with
  | [] => ret tt
  | req :: rest =>
      cursor <- query (Catalog.table_info conn (tableName req)) ;;
      found <- scan_columns req (fst cursor) (snd cursor) ;;
      (if negb found then
         push_back (mkError "missing_column"
                      ("Required column '" +++ tableName req +++ "." +++
                       columnName req +++ "' does not exist"))
       else ret tt) ;;
      check_columns rest
  end.

Fixpoint check_indexes (reqs : list IndexRequirement) : V unit :=
  match reqs with
  | [] => ret tt
  | req :: rest =>
      has_row <- query (Catalog.master_index conn (index_tableName req) (indexName req)) ;;
      (if negb has_row then
         push_back (mkError "missing_index"
                      ("Required index '" +++ indexName req +++ "' on table '" +++
                       index_tableName req +++ "' does not exist"))
       else ret tt) ;;
      check_indexes rest
  end.

Definition validate (v : t) : outcome (list ValidationError) :=
  match (check_tables (tableRequirements_ v) ;;
         check_columns (columnRequirements_ v) ;;
         check_indexes (indexRequirements_ v)) [] with
  | (Ok _, errors) => Ok errors
  | (Throw e, _) => Throw e
  end.

Definition validateOrThrow (v : t) : outcome unit :=
  match validate v with
  | Throw e => Throw e
  | Ok errors =>
      match errors with
      | [] => Ok tt
      | _ :: _ =>
          Throw (SchemaException
                   ("Schema validation failed with "
                    +++ to_string (Z.of_nat (length errors)) +++ " error(s):" +++ newline
                    +++ fold_right (fun error rest =>
                                      "  - " +++ message error +++ newline +++ rest)
                                   "" errors))
      end
  end.

End Validate.
End SchemaValidator.

(** ** repository.cpp: QueryBuilder and InsertBuilder *)

(** The loop [for (i ...) { if (i > 0) oss << sep; oss << items[i]; }]. *)
Fixpoint joined_by (sep : string) (items : list string) : string :=
  match items with
  | [] => ""
  | [item] => item
  | item :: rest => item +++ sep +++ joined_by sep rest
  end.

(** The indexes a binding loop gives to [values]: [paramIndex] starts at 1
    and goes up by one for each value. *)
Definition numbered (values : list Value) : list (Z * Value) :=
  combine (map (fun i => Z.of_nat i + 1) (seq 0 (length values))) values.

Module QueryBuilder.

(** [limit_] and [offset_] are [int]s; no arithmetic is done on them. *)
Record t : Type := mk {
  table_ : string;
  selectClause_ : string;
  joins_ : list string;
  whereClauses_ : list string;
  whereValues_ : list Value;
  orderByClause_ : string;
  groupByClause_ : string;
  havingClause_ : string;
  havingValue_ : Value;
  hasHaving_ : bool;
  limit_ : Z;
  offset_ : Z
}.

(** [QueryBuilder::QueryBuilder(conn, table)] with the default member
    initializers of repository.hpp. *)
Definition ctor (table : string) : t :=
  mk table "*" [] [] [] "" "" "" VNull false (-1) (-1).

(** Assignments to single members. *)
Definition set_select (s : string) (b : t) : t :=
  mk (table_ b) s (joins_ b) (whereClauses_ b) (whereValues_ b) (orderByClause_ b)
     (groupByClause_ b) (havingClause_ b) (havingValue_ b) (hasHaving_ b)
     (limit_ b) (offset_ b).

Definition push_join (j : string) (b : t) : t :=
  mk (table_ b) (selectClause_ b) (joins_ b ++ [j]) (whereClauses_ b) (whereValues_ b)
     (orderByClause_ b) (groupByClause_ b) (havingClause_ b) (havingValue_ b)
     (hasHaving_ b) (limit_ b) (offset_ b).

Definition push_clause (clause : string) (b : t) : t :=
  mk (table_ b) (selectClause_ b) (joins_ b) (whereClauses_ b ++ [clause])
     (whereValues_ b) (orderByClause_ b) (groupByClause_ b) (havingClause_ b)
     (havingValue_ b) (hasHaving_ b) (limit_ b) (offset_ b).

Definition push_value (value : Value) (b : t) : t :=
  mk (table_ b) (selectClause_ b) (joins_ b) (whereClauses_ b)
     (whereValues_ b ++ [value]) (orderByClause_ b) (groupByClause_ b)
     (havingClause_ b) (havingValue_ b) (hasHaving_ b) (limit_ b) (offset_ b).

(** [select(const std::vector<std::string>&)], [select(const std::string&)]
    and [selectAll()]. *)
Definition select_columns (columns : list string) (b : t) : t :=
  set_select (joined_by ", " columns) b.

Definition select (columns : string) (b : t) : t := set_select columns b.

Definition selectAll (b : t) : t := set_select "*" b.

Definition from (table : string) (b : t) : t :=
  mk table (selectClause_ b) (joins_ b) (whereClauses_ b) (whereValues_ b)
     (orderByClause_ b) (groupByClause_ b) (havingClause_ b) (havingValue_ b)
     (hasHaving_ b) (limit_ b) (offset_ b).

(** [where(column, op, value)] and [where(rawCondition, value)]. *)
Definition where_ (column op : string) (value : Value) (b : t) : t :=
  push_value value (push_clause (column +++ " " +++ op +++ " ?") b).

Definition where_raw (rawCondition : string) (value : Value) (b : t) : t :=
  push_value value (push_clause rawCondition b).

Definition whereNull (column : string) (b : t) : t :=
  push_clause (column +++ " IS NULL") b.

Definition whereNotNull (column : string) (b : t) : t :=
  push_clause (column +++ " IS NOT NULL") b.

Definition whereIn (column : string) (values : list Value) (b : t) : t :=
  match values with
  | [] => push_clause "1 = 0" b
  | _ :: _ =>
      push_clause
        (column +++ " IN (" +++ joined_by ", " (map (fun _ => "?") values) +++ ")")
        (fold_left (fun b value => push_value value b) values b)
  end.

Definition join (table condition : string) (b : t) : t :=
  push_join ("JOIN " +++ table +++ " ON " +++ condition) b.

Definition leftJoin (table condition : string) (b : t) : t :=
  push_join ("LEFT JOIN " +++ table +++ " ON " +++ condition) b.

Definition orderBy (column : string) (ascending : bool) (b : t) : t :=
  mk (table_ b) (selectClause_ b) (joins_ b) (whereClauses_ b) (whereValues_ b)
     (column +++ (if ascending then " ASC" else " DESC"))
     (groupByClause_ b) (havingClause_ b) (havingValue_ b) (hasHaving_ b)
     (limit_ b) (offset_ b).

Definition limit (count : Z) (b : t) : t :=
  mk (table_ b) (selectClause_ b) (joins_ b) (whereClauses_ b) (whereValues_ b)
     (orderByClause_ b) (groupByClause_ b) (havingClause_ b) (havingValue_ b)
     (hasHaving_ b) count (offset_ b).

Definition offset (count : Z) (b : t) : t :=
  mk (table_ b) (selectClause_ b) (joins_ b) (whereClauses_ b) (whereValues_ b)
     (orderByClause_ b) (groupByClause_ b) (havingClause_ b) (havingValue_ b)
     (hasHaving_ b) (limit_ b) count.

Definition groupBy (column : string) (b : t) : t :=
  mk (table_ b) (selectClause_ b) (joins_ b) (whereClauses_ b) (whereValues_ b)
     (orderByClause_ b) column (havingClause_ b) (havingValue_ b) (hasHaving_ b)
     (limit_ b) (offset_ b).

Definition having (condition : string) (value : Value) (b : t) : t :=
  mk (table_ b) (selectClause_ b) (joins_ b) (whereClauses_ b) (whereValues_ b)
     (orderByClause_ b) (groupByClause_ b) condition value true
     (limit_ b) (offset_ b).

Definition toSql (b : t) : string :=
  "SELECT " +++ selectClause_ b +++ " FROM " +++ table_ b +++
  fold_right (fun j rest => " " +++ j +++ rest) "" (joins_ b) +++
  (match whereClauses_ b with
   | [] => ""
   | _ :: _ => " WHERE " +++ joined_by " AND " (whereClauses_ b)
   end) +++
  (if String.eqb (groupByClause_ b) "" then "" else " GROUP BY " +++ groupByClause_ b) +++
  (if hasHaving_ b then " HAVING " +++ havingClause_ b else "") +++
  (if String.eqb (orderByClause_ b) "" then "" else " ORDER BY " +++ orderByClause_ b) +++
  (if limit_ b >=? 0 then " LIMIT " +++ to_string (limit_ b) else "") +++
  (if offset_ b >=? 0 then " OFFSET " +++ to_string (offset_ b) else "").

(** What [fetchAll] prepares and binds: the WHERE values, then the HAVING
    value if there is one. *)
Definition fetchAll_sql (b : t) : string := toSql b.

Definition fetchAll_bindings (b : t) : list (Z * Value) :=
  numbered (whereValues_ b ++ (if hasHaving_ b then [havingValue_ b] else [])).

(** What [count] prepares and binds: the statement of [toSql] with the
    select clause replaced by COUNT, and the WHERE values. *)
Definition count_sql (b : t) : string := toSql (set_select "COUNT(*)" b).

Definition count_bindings (b : t) : list (Z * Value) := numbered (whereValues_ b).

End QueryBuilder.

Module InsertBuilder.

Record t : Type := mk {
  table_ : string;
  columns_ : list string;
  values_ : list Value
}.

(** [InsertBuilder::InsertBuilder(conn, table)]. *)
Definition ctor (table : string) : t := mk table [] [].

Definition value (column : string) (val : Value) (b : t) : t :=
  mk (table_ b) (columns_ b ++ [column]) (values_ b ++ [val]).

(** The shared text of [toSql] and [upsert] after the verb: one "?" for
    each column. *)
Definition columns_and_placeholders (b : t) : string :=
  table_ b +++ " (" +++ joined_by ", " (columns_ b) +++ ") VALUES (" +++
  joined_by ", " (map (fun _ => "?") (columns_ b)) +++ ")".

Definition toSql (b : t) : string :=
  "INSERT INTO " +++ columns_and_placeholders b.

(** The statement [upsert] prepares. *)
Definition upsert_sql (b : t) : string :=
  "INSERT OR REPLACE INTO " +++ columns_and_placeholders b.

(** The indexes [execute] and [upsert] bind, with their values:
    [stmt.bind(i + 1, values_[i])] for each [i]. *)
Definition bindings (b : t) : list (Z * Value) := numbered (values_ b).

End InsertBuilder.

(** * Vocabulary of the theorems *)

(** The number of occurrences of a character in a string. *)
Fixpoint occurrences (c : ascii) (s : string) : nat :=
  match s with
  | EmptyString => 0%nat
  | String x rest => ((if Ascii.eqb x c then 1 else 0) + occurrences c rest)%nat
  end.

(** The number of placeholders in a piece of SQL text. *)
Definition placeholders (s : string) : nat := occurrences "?" s.

(** A query builder is well placed when the only placeholders it holds are
    those of its WHERE conditions, one for each WHERE value, and the one of
    its HAVING condition. *)
Definition well_placed (b : QueryBuilder.t) : Prop :=
  placeholders (QueryBuilder.table_ b) = 0%nat /\
  placeholders (QueryBuilder.selectClause_ b) = 0%nat /\
  Forall (fun j => placeholders j = 0%nat) (QueryBuilder.joins_ b) /\
  list_sum (map placeholders (QueryBuilder.whereClauses_ b)) =
    length (QueryBuilder.whereValues_ b) /\
  placeholders (QueryBuilder.groupByClause_ b) = 0%nat /\
  placeholders (QueryBuilder.orderByClause_ b) = 0%nat /\
  (QueryBuilder.hasHaving_ b = true ->
   placeholders (QueryBuilder.havingClause_ b) = 1%nat).

(** ** Calls to the engine *)

Section EngineView.
Context {db : Type} `{Sqlite3 db}.

(** What one call of [sqlite3_exec] answers, and the state it leaves. *)
Definition engine_code (sql : string) (d : db) : Z := fst (fst (sqlite3_exec sql d)).

Definition engine_next (sql : string) (d : db) : db := snd (sqlite3_exec sql d).

Definition accepted (sql : string) (d : db) : bool := engine_code sql d =? SQLITE_OK.

(** The result code of the step [Statement::execute] makes. *)
Definition step_code (st : Statement.t) (d : db) : Z :=
  fst (fst (sqlite3_step (Statement.sql_ st) (Statement.bound st) (Statement.stepped st) d)).

(** The unit of work of [applyTo] and [rollbackTo]: [body] between the
    construction of a transaction guard and its commit, any exception
    rethrown as a MigrationException for [version]. *)
Definition in_transaction (body : M db unit) (text : string) (version : Z) : M db unit :=
  txn <- Transaction.ctor Transaction.Deferred ;;
  scoped txn
    (try_catch (on_conn body ;; Transaction.commit)
       any_exception
       (fun e => throw (MigrationException (text +++ what e) version)))
    Transaction.dtor.

(** The unit as the specification words it: open a transaction, run the
    procedure, write the bookkeeping record, commit. *)
Definition unit_as_specified (procedure record : M db unit) : M db unit :=
  Connection.execute "BEGIN DEFERRED TRANSACTION" ;;
  procedure ;;
  record ;;
  Connection.execute "COMMIT".

(** The text [Connection::execute] puts in the exception when the engine
    refuses [sql]. *)
Definition engine_error (sql : string) (d : db) : string :=
  match snd (fst (sqlite3_exec sql d)) with
  | Some m => m
  | None => "Unknown error"
  end.

(** What a guard operation throws when the engine refuses its statement
    [sql]: the handlers of the guards catch QueryException only, and
    [text] is the prefix the handler puts before [what()]. *)
Definition guard_failure (text sql : string) (d : db) : Exn :=
  if Z.land (engine_code sql d) 255 =? SQLITE_CONSTRAINT
  then ConstraintException (engine_error sql d) (engine_code sql d)
  else TransactionException
         (text +++ what (QueryException (engine_error sql d) sql (engine_code sql d)))
         (engine_code sql d).

(** The block of transaction.hpp's example,
    [{ Savepoint sp = txn.savepoint(name); body; finish; }]. *)
Definition savepoint_block (name : string) (body : M db unit)
           (finish : M (Savepoint.t * db) unit) : M (Transaction.t * db) unit :=
  sp <- Transaction.savepoint name ;;
  on_conn (scoped sp (on_conn body ;; finish) Savepoint.dtor).

(** The same block around a savepoint made with the public constructor,
    [{ Savepoint sp(conn, name); body; finish; }]. *)
Definition savepoint_alone (name : string) (body : M db unit)
           (finish : M (Savepoint.t * db) unit) : M db unit :=
  sp <- Savepoint.ctor name ;;
  scoped sp (on_conn body ;; finish) Savepoint.dtor.

End EngineView.

(** An engine that answers every call with the code it holds and counts
    nothing else: its state is that code. *)
#[global] Instance answering : Sqlite3 Z := {
  sqlite3_exec := fun _ code => (code, None, code);
  sqlite3_prepare_v2 := fun _ code => (SQLITE_OK, code);
  sqlite3_bind := fun _ _ _ => SQLITE_OK;
  sqlite3_step := fun _ _ _ code => (code, [], code);
  sqlite3_errmsg := fun _ => "error"
}.

(** An engine that answers [sqlite3_exec] from a script of result codes,
    one per call, and with SQLITE_OK once the script is over. *)
#[global] Instance scripted : Sqlite3 (list Z) := {
  sqlite3_exec := fun _ script =>
    match script with
    | [] => (SQLITE_OK, None, [])
    | code :: rest => (code, None, rest)
    end;
  sqlite3_prepare_v2 := fun _ script => (SQLITE_OK, script);
  sqlite3_bind := fun _ _ _ => SQLITE_OK;
  sqlite3_step := fun _ _ _ script => (SQLITE_DONE, [], script);
  sqlite3_errmsg := fun _ => "error"
}.

(** ** The migration manager on MiniSQLite *)

Module OnMiniSQLite.
Import MiniSQLite MigrationManager.

Section WithUserData.
Context {U : Type}.

Local Abbreviation D := (DB U).

(** The state after BEGIN on a connection with no open transaction. *)
Definition begun (d : D) : D :=
  with_txn (Some (mkTxn (committed d) [] false))
           (logged "BEGIN DEFERRED TRANSACTION" [] d).

(** The state after COMMIT of the open transaction [t]. *)
Definition finished (t : Txn U) (d : D) : D := do_commit t (logged "COMMIT" [] d).

(** The state after ROLLBACK of an open transaction. *)
Definition rolled_back (d : D) : D := with_txn None (logged "ROLLBACK" [] d).

(** The state after a statement [sql] the engine refused with [msg]. *)
Definition refused (sql msg : string) (d : D) : D :=
  with_errmsg msg (logged sql [] d).

(** The state after SAVEPOINT [name] inside the open transaction [t]. *)
Definition marked (name : string) (t : Txn U) (d : D) : D :=
  with_txn (Some (mkTxn (work t) ((name, work t) :: saves t) (implicit t)))
           (logged ("SAVEPOINT " +++ name) [] d).

(** The state after SAVEPOINT [name] on a connection with no open
    transaction: the savepoint opens one. *)
Definition marked_outside (name : string) (d : D) : D :=
  with_txn (Some (mkTxn (committed d) [(name, committed d)] true))
           (logged ("SAVEPOINT " +++ name) [] d).

(** The state after [ensureMigrationTable]. *)
Definition ensured (d : D) : D :=
  write ensure_table (logged create_migrations_sql [] d).

(** The state after [currentVersion]. *)
Definition surveyed (d : D) : D := logged select_max_sql [] (ensured d).

(** The state in which the loop of [applyTo] starts. *)
Definition entered (d : D) : D := surveyed (ensured d).

(** The rows of the bookkeeping table the connection sees. *)
Definition rows (d : D) : list (Z * string) :=
  match migrations_table (visible d) with
  | Some r => r
  | None => []
  end.

Definition recorded (d : D) : list Z := map fst (rows d).

(** The value [currentVersion] returns. *)
Definition current_of (d : D) : Z :=
  match max_version (rows d) with
  | Some m => to_int32 m
  | None => 0
  end.

(** The registered versions [v] with [lo < v <= hi], in map order. *)
Definition selected (mgr : MigrationManager.t D) (lo hi : Z) : list Z :=
  collect (fun version => (version >? lo) && (version <=? hi)) mgr.

(** What [std::map] guarantees and [add] checks: keys ascend strictly, each
    entry is stored under its own version, versions are positive [int]s. *)
Definition well_formed (mgr : MigrationManager.t D) : Prop :=
  StronglySorted Z.lt (map fst mgr) /\
  Forall (fun e => version (snd e) = fst e /\ 0 < fst e < 2^31) mgr.

(** A procedure is confined when, run inside a transaction, it leaves the
    transaction open, and changes neither the committed state, nor the
    bookkeeping table, nor the engine's settings and history: it works on
    user data only. *)
Definition confined (p : M D unit) : Prop :=
  forall d t, txn d = Some t ->
    committed (snd (p d)) = committed d /\
    extended (snd (p d)) = extended d /\
    history (snd (p d)) = history d /\
    exists w, txn (snd (p d)) = Some (mkTxn w (saves t) (implicit t)) /\
              migrations_table w = migrations_table (work t).


Definition description_of (mgr : MigrationManager.t D) (v : Z) : string :=
  match at_ v mgr with
  | Some m => description m
  | None => ""
  end.

(** The statements the engine sees for one applied unit. *)
Definition apply_statements (mgr : MigrationManager.t D) (v : Z)
  : list (string * list (Z * Value)) :=
  [("BEGIN DEFERRED TRANSACTION", []);
   (insert_sql, [(2, VText (description_of mgr v)); (1, VInt v)]);
   ("COMMIT", [])].

(** The statements the engine sees for one rolled-back unit. *)
Definition rollback_statements (v : Z) : list (string * list (Z * Value)) :=
  [("BEGIN DEFERRED TRANSACTION", []);
   (delete_sql, [(1, VInt v)]);
   ("COMMIT", [])].

(** A row whose version is none of [units]. *)
Definition outside (units : list Z) (row : Z * string) : bool :=
  negb (existsb (Z.eqb (fst row)) units).

(** The loops as the specification words them. *)
Fixpoint apply_as_specified (mgr : MigrationManager.t D) (units : list Z) : M D unit :=
  match units with
  | [] => ret tt
  | v :: rest =>
      match at_ v mgr with
      | Some m =>
          unit_as_specified (up m) (recordMigration mgr v) ;;
          apply_as_specified mgr rest
      | None => throw out_of_range
      end
  end.

Fixpoint rollback_as_specified (mgr : MigrationManager.t D) (units : list Z) : M D unit :=
  match units with
  | [] => ret tt
  | v :: rest =>
      match at_ v mgr with
      | Some m =>
          match down m with
          | Some down_fn =>
              unit_as_specified down_fn (removeMigrationRecord v) ;;
              rollback_as_specified mgr rest
          | None =>
              throw (MigrationException "Migration has no rollback function" v)
          end
      | None => throw out_of_range
      end
  end.

End WithUserData.
End OnMiniSQLite.

(** ** The schema validator *)

Module OnCatalog.
Import SchemaValidator.

(** The requirements kept for one (table, column) pair, in order. *)
Definition entries (tableName columnName : string) (v : t) : list ColumnRequirement :=
  filter (same_column tableName columnName) (columnRequirements_ v).

Definition missing_table (req : TableRequirement) : ValidationError :=
  mkError "missing_table" ("Required table '" +++ name req +++ "' does not exist").

Definition missing_column (req : ColumnRequirement) : ValidationError :=
  mkError "missing_column"
    ("Required column '" +++ tableName req +++ "." +++ columnName req +++
     "' does not exist").

Definition wrong_type (req : ColumnRequirement) (colType : string) : ValidationError :=
  mkError "wrong_type"
    ("Column '" +++ tableName req +++ "." +++ columnName req +++
     "' has type '" +++ colType +++ "', expected '" +++ expectedType req +++ "'").

Definition nullable (req : ColumnRequirement) : ValidationError :=
  mkError "nullable"
    ("Column '" +++ tableName req +++ "." +++ columnName req +++
     "' should be NOT NULL").

Definition missing_index (req : IndexRequirement) : ValidationError :=
  mkError "missing_index"
    ("Required index '" +++ indexName req +++ "' on table '" +++
     index_tableName req +++ "' does not exist").

Section Expected.
Variable conn : Catalog.t.

(** The errors one requirement calls for, read off the catalog. *)
Definition table_errors (req : TableRequirement) : list ValidationError :=
  match Catalog.master_table conn (name req) with
  | Ok false => [missing_table req]
  | _ => []
  end.

Definition type_mismatch (req : ColumnRequirement) (row : Catalog.ColumnInfo) : bool :=
  negb (String.eqb (expectedType req) "")
  && negb (contains (upper (Catalog.type row)) (upper (expectedType req))).

Definition row_errors (req : ColumnRequirement) (row : Catalog.ColumnInfo)
  : list ValidationError :=
  (if type_mismatch req row then [wrong_type req (Catalog.type row)] else []) ++
  (if requireNotNull_ req && (Catalog.notnull row =? 0) then [nullable req] else []).

Definition column_errors (req : ColumnRequirement) : list ValidationError :=
  match Catalog.table_info conn (tableName req) with
  | Ok (rows, _) =>
      match find (fun row => String.eqb (Catalog.name row) (columnName req)) rows with
      | Some row => row_errors req row
      | None => [missing_column req]
      end
  | Throw _ => []
  end.

Definition index_errors (req : IndexRequirement) : list ValidationError :=
  match Catalog.master_index conn (index_tableName req) (indexName req) with
  | Ok false => [missing_index req]
  | _ => []
  end.

(** Tables first, then columns, then indexes, each group in the order of
    its requirements. *)
Definition expected (v : t) : list ValidationError :=
  flat_map table_errors (tableRequirements_ v) ++
  flat_map column_errors (columnRequirements_ v) ++
  flat_map index_errors (indexRequirements_ v).

(** The engine answers every query [validate] makes for [v]. *)
Definition answers (v : t) : Prop :=
  (forall req, In req (tableRequirements_ v) ->
     exists b, Catalog.master_table conn (name req) = Ok b) /\
  (forall req, In req (columnRequirements_ v) ->
     exists rows, Catalog.table_info conn (tableName req) = Ok (rows, None)) /\
  (forall req, In req (indexRequirements_ v) ->
     exists b, Catalog.master_index conn (index_tableName req) (indexName req) = Ok b).

End Expected.

Definition kinds : list string :=
  ["missing_table"; "missing_column"; "wrong_type"; "nullable"; "missing_index"].

End OnCatalog.

(** * Concrete databases, managers and validators *)

Module Examples.
Import MiniSQLite MigrationManager.

(** User data: the names of the user's tables, newest first. *)
Definition D : Type := DB (list string).

(** A new in-memory database, opened with the default options (extended
    result codes on). *)
Definition fresh : D := mkDB (mkStore [] None) None true "" [].

Definition create_table (name : string) : M D unit :=
  fun d => (Ok tt, write (fun s => mkStore (name :: user s) (migrations_table s)) d).

Definition drop_table (name : string) : M D unit :=
  fun d => (Ok tt,
            write (fun s => mkStore (filter (fun n => negb (String.eqb n name)) (user s))
                                    (migrations_table s)) d).


(** A procedure that writes the bookkeeping row of [v] itself. *)
Definition writes_own_record (v : Z) : M D unit :=
  fun d => (Ok tt, write (insert_row v "by hand") d).

(** [add] one migration after the other; a refused one is left out. *)
Definition registered (l : list (Migration D)) : MigrationManager.t D :=
  fold_left (fun mgr m => match add m mgr with Ok mgr' => mgr' | Throw _ => mgr end)
            l empty.

(** Units 1 and 2 cannot be rolled back; unit 3 can. *)
Definition three : MigrationManager.t D :=
  registered
    [mkMigration 1 "v1" (create_table "v1") None;
     mkMigration 3 "v3" (create_table "v3") (Some (drop_table "v3"));
     mkMigration 2 "v2" (create_table "v2") None].


(** Unit 2 writes its own bookkeeping row, so the insertion by the manager
    fails. *)
Definition meddling : MigrationManager.t D :=
  registered
    [mkMigration 1 "v1" (create_table "v1") None;
     mkMigration 2 "v2" (writes_own_record 2) None].

(** A fourth unit for [three]. *)
Definition unit_four : Migration D :=
  mkMigration 4 "v4" (create_table "v4") (Some (drop_table "v4")).

(** The database after units 1 and 2 of [three]. *)
Definition at_two : D := snd (applyTo three 2 fresh).

(** A database whose bookkeeping table holds version 1. *)
Definition at_one : D := mkDB (mkStore ["v1"] (Some [(1, "v1")])) None true "" [].

(** The same database on a connection with extended result codes off. *)
Definition at_one_base : D := mkDB (mkStore ["v1"] (Some [(1, "v1")])) None false "" [].

(** The statement [recordMigration] builds for version 1. *)
Definition insert_one : Statement.t :=
  Statement.mk insert_sql [(2, VText "v1"); (1, VInt 1)] 0 [].

(** A SELECT, which yields a row. *)
Definition select_max : Statement.t := Statement.mk select_max_sql [] 0 [].

Definition active_guard : Transaction.t := Transaction.mk true true.

Definition ended_guard : Transaction.t := Transaction.mk true false.

Definition active_savepoint : Savepoint.t := Savepoint.mk true "sp1" true.

(** Functions for [withTransaction]: one returns after creating a table,
    one throws after creating it, one commits through the guard it was
    given. *)
Definition adds_t : M (Transaction.t * D) Z :=
  on_conn (create_table "t") ;; ret 7.

Definition throws_after_t : M (Transaction.t * D) Z :=
  on_conn (create_table "t") ;; throw (std_exception "boom").

Definition commits_itself : M (Transaction.t * D) Z :=
  on_conn (create_table "t") ;; Transaction.commit ;; ret 7.

(** A connection inside a transaction that has created the table "a". *)
Definition inside : D :=
  snd (create_table "a" (snd (Connection.execute "BEGIN DEFERRED TRANSACTION" fresh))).

(** The transaction of [inside]. *)
Definition inside_txn : Txn (list string) := mkTxn (mkStore ["a"] None) [] false.

(** The connection after [Transaction txn(conn); conn.execute("COMMIT");]:
    the guard [txn] is still active, the transaction is over. *)
Definition committed_behind_guard : D :=
  snd (Connection.execute "COMMIT"
         (snd (Transaction.ctor Transaction.Deferred fresh))).

(** A schema with the table users(id INTEGER PRIMARY KEY) and nothing
    else. *)
Definition users_only : Catalog.t :=
  Catalog.mk
    (fun name => Ok (String.eqb name "users"))
    (fun table =>
       Ok (if String.eqb table "users"
           then [Catalog.mkColumnInfo "id" "INTEGER" 0]
           else [],
           None))
    (fun _ _ => Ok false).

Definition wants_posts_and_name : SchemaValidator.t :=
  SchemaValidator.requireColumn "users" "name" "TEXT"
    (SchemaValidator.requireTable "posts" SchemaValidator.empty).

(** The two errors [validate] reports for it on [users_only]. *)
Definition wants_errors : list SchemaValidator.ValidationError :=
  [SchemaValidator.mkError "missing_table" "Required table 'posts' does not exist";
   SchemaValidator.mkError "missing_column" "Required column 'users.name' does not exist"].

(** SELECT ... FROM users WHERE age > ? AND id IN (?, ?) GROUP BY city
    HAVING COUNT( * ) > ?. *)
Definition adults_by_city : QueryBuilder.t :=
  QueryBuilder.having "COUNT(*) > ?" (VInt 5)
    (QueryBuilder.groupBy "city"
       (QueryBuilder.whereIn "id" [VInt 1; VInt 2]
          (QueryBuilder.where_ "age" ">" (VInt 18)
             (QueryBuilder.select_columns ["city"; "COUNT(*)"]
                (QueryBuilder.ctor "users"))))).

(** An insertion into users(name, age). *)
Definition insert_ann : InsertBuilder.t :=
  InsertBuilder.value "age" (VInt 30)
    (InsertBuilder.value "name" (VText "Ann") (InsertBuilder.ctor "users")).

End Examples.

(** * Proof steps *)

Ltac run_guard :=
  unfold Transaction.commit, Transaction.rollback, Transaction.savepoint,
    Transaction.dtor, Savepoint.dtor, Savepoint.release, Savepoint.ctor,
    Transaction.ctor, bind, ret, throw, this, assign, try_catch, on_conn;
  cbn [fst snd negb andb].

Ltac by_running := vm_compute; reflexivity.

Ltac run_refused E A :=
  run_guard; rewrite ?E; cbn [fst snd]; rewrite ?A; unfold guard_failure;
  match goal with
  | |- context [Z.land ?c 255 =? SQLITE_CONSTRAINT] =>
      destruct (Z.land c 255 =? SQLITE_CONSTRAINT); reflexivity
  end.

Ltac run_inert :=
  unfold Savepoint.rollback; run_guard;
  repeat match goal with
         | A : _ = false |- _ => rewrite A
         | A : _ = true |- _ => rewrite A
         end;
  cbn [negb andb]; try reflexivity.

(** * Theorems *)

(** * Facts that hold for every engine *)

Section GuardFacts.
Context {db : Type} `{Sqlite3 db}.

Lemma execute_state (sql : string) (d : db) :
  snd (Connection.execute sql d) = engine_next sql d.
Proof.
  unfold Connection.execute, engine_next.
  destruct (sqlite3_exec sql d) as [[rc msg] d'].
  destruct (negb (rc =? SQLITE_OK)); [|reflexivity].
  destruct (Z.land rc 255 =? SQLITE_CONSTRAINT); reflexivity.
Qed.

Lemma execute_cases (sql : string) (d : db) :
  (accepted sql d = true /\ Connection.execute sql d = (Ok tt, engine_next sql d)) \/
  (accepted sql d = false /\
   exists e, Connection.execute sql d = (Throw e, engine_next sql d) /\
             errorCode e = engine_code sql d).
Proof.
  unfold accepted, engine_code, engine_next, Connection.execute.
  destruct (sqlite3_exec sql d) as [[rc msg] d']. cbn [fst snd].
  destruct (rc =? SQLITE_OK); cbn [negb]; [left; auto|right].
  split; [reflexivity|].
  destruct (Z.land rc 255 =? SQLITE_CONSTRAINT); eexists; split; reflexivity.
Qed.

(** The shared shape of [commit] and [rollback] once the guard is known to
    be active. *)
Lemma finish_outcome (sql text : string) (txn : Transaction.t) (d : db) :
  let m : M (Transaction.t * db) unit :=
    try_catch
      (on_conn (Connection.execute sql) ;; assign (Transaction.set_active false))
      is_QueryException
      (fun e => throw (TransactionException (text +++ what e) (errorCode e))) in
  snd (m (txn, d)) =
    (if accepted sql d then Transaction.set_active false txn else txn,
     engine_next sql d) /\
  (fst (m (txn, d)) = Ok tt <-> accepted sql d = true) /\
  (accepted sql d = false ->
   exists e, fst (m (txn, d)) = Throw e /\ errorCode e = engine_code sql d).
Proof.
  cbv zeta. run_guard.
  destruct (execute_cases sql d) as [[A E]|[A [e [E C]]]]; rewrite E, A.
  - cbn. repeat split; auto. discriminate.
  - destruct (is_QueryException e); cbn [fst snd];
      (repeat split; try discriminate; intros _; eexists;
       split; [reflexivity|exact C]).
Qed.

(** C4.  A transaction guard destroyed while active sends ROLLBACK to the
    engine, and a savepoint guard destroyed while active sends RELEASE
    SAVEPOINT with its name; in both cases that is the only call made, and
    the destructor returns normally whatever the engine answers.  (An
    active guard points to its connection: only a moved-from guard has a
    null [conn_], and it is inactive.) *)
Theorem guard_destructors_swallow (txn : Transaction.t) (sp : Savepoint.t) (d : db) :
  Transaction.active_ txn = true -> Transaction.conn_ txn = true ->
  Savepoint.active_ sp = true -> Savepoint.conn_ sp = true ->
  Transaction.dtor (txn, d) = (Ok tt, (txn, engine_next "ROLLBACK" d)) /\
  Savepoint.dtor (sp, d) =
    (Ok tt, (sp, engine_next ("RELEASE SAVEPOINT " +++ Savepoint.name_ sp) d)).
Proof.
  intros A1 C1 A2 C2. split.
  - rewrite <- execute_state. run_guard. rewrite A1, C1. cbn [andb fst snd].
    destruct (Connection.execute "ROLLBACK" d) as [[[]|e] d']; reflexivity.
  - rewrite <- execute_state. run_guard. rewrite A2, C2. cbn [andb fst snd].
    destruct (Connection.execute _ d) as [[[]|e] d']; reflexivity.
Qed.

(** A destructor never throws, active guard or not. *)
Lemma destructors_return (txn : Transaction.t) (sp : Savepoint.t) (d : db) :
  fst (Transaction.dtor (txn, d)) = Ok tt /\ fst (Savepoint.dtor (sp, d)) = Ok tt.
Proof.
  split; run_guard.
  - destruct (Transaction.active_ txn && Transaction.conn_ txn); [|reflexivity].
    cbn [fst snd].
    destruct (Connection.execute "ROLLBACK" d) as [[[]|e] d']; reflexivity.
  - destruct (Savepoint.active_ sp && Savepoint.conn_ sp); [|reflexivity].
    cbn [fst snd].
    destruct (Connection.execute _ d) as [[[]|e] d']; reflexivity.
Qed.

(** C10.  On an active guard, [commit] and [rollback] make one call to the
    engine; the guard becomes inactive exactly when the engine accepts it;
    when the engine refuses, an exception carrying the engine's code is
    thrown, the guard is unchanged, and its destructor still sends
    ROLLBACK. *)
Theorem failed_end_keeps_transaction_active (txn : Transaction.t) (d : db) :
  Transaction.active_ txn = true ->
  Transaction.conn_ txn = true ->
  (snd (Transaction.commit (txn, d)) =
     (if accepted "COMMIT" d then Transaction.set_active false txn else txn,
      engine_next "COMMIT" d) /\
   (fst (Transaction.commit (txn, d)) = Ok tt <-> accepted "COMMIT" d = true) /\
   (accepted "COMMIT" d = false ->
    exists e, fst (Transaction.commit (txn, d)) = Throw e /\
              errorCode e = engine_code "COMMIT" d)) /\
  (snd (Transaction.rollback (txn, d)) =
     (if accepted "ROLLBACK" d then Transaction.set_active false txn else txn,
      engine_next "ROLLBACK" d) /\
   (fst (Transaction.rollback (txn, d)) = Ok tt <-> accepted "ROLLBACK" d = true) /\
   (accepted "ROLLBACK" d = false ->
    exists e, fst (Transaction.rollback (txn, d)) = Throw e /\
              errorCode e = engine_code "ROLLBACK" d)) /\
  (forall d', Transaction.dtor (txn, d') = (Ok tt, (txn, engine_next "ROLLBACK" d'))).
Proof.
  intros A C. split; [|split].
  - pose proof (finish_outcome "COMMIT" "Failed to commit: " txn d) as F.
    cbv zeta in F. unfold Transaction.commit, bind, this. cbn [fst snd].
    rewrite A. cbn [negb]. exact F.
  - pose proof (finish_outcome "ROLLBACK" "Failed to rollback: " txn d) as F.
    cbv zeta in F. unfold Transaction.rollback, bind, this. cbn [fst snd].
    rewrite A. cbn [negb]. exact F.
  - intros d'. rewrite <- execute_state. run_guard.
    rewrite A, C. cbn [andb fst snd].
    destruct (Connection.execute "ROLLBACK" d') as [[[]|e] d'']; reflexivity.
Qed.

(** C9, as the code has it.  [Transaction::savepoint] on a guard that is no
    longer active throws TransactionException and makes no call to the
    engine; the constructor of [Savepoint] makes no check of its own and
    always sends SAVEPOINT with the name. *)
Theorem savepoint_needs_active_guard (txn : Transaction.t) (name : string) (d : db) :
  Transaction.active_ txn = false ->
  Transaction.savepoint name (txn, d) =
    (Throw (TransactionException "Cannot create savepoint: transaction not active" 0),
     (txn, d)) /\
  snd (Savepoint.ctor name d) = engine_next ("SAVEPOINT " +++ name) d.
Proof.
  intros A. split.
  - run_guard. rewrite A. reflexivity.
  - rewrite <- execute_state. run_guard.
    destruct (Connection.execute _ d) as [[[]|e] d']; [reflexivity|].
    destruct (is_QueryException e); reflexivity.
Qed.

(** ** Statement::execute *)

Lemma statement_execute_run (st : Statement.t) (d : db) :
  fst (Statement.execute (st, d)) =
  if negb (step_code st d =? SQLITE_DONE) && negb (step_code st d =? SQLITE_ROW) then
    if step_code st d =? SQLITE_CONSTRAINT
    then Throw (ConstraintException
                  (sqlite3_errmsg
                     (snd (sqlite3_step (Statement.sql_ st) (Statement.bound st)
                                        (Statement.stepped st) d)))
                  (step_code st d))
    else Throw (QueryException
                  (sqlite3_errmsg
                     (snd (sqlite3_step (Statement.sql_ st) (Statement.bound st)
                                        (Statement.stepped st) d)))
                  (Statement.sql_ st) (step_code st d))
  else Ok tt.
Proof.
  unfold Statement.execute, Statement.do_step, Statement.do_reset, step_code,
    bind, throw, assign, get.
  cbn [fst snd].
  destruct (sqlite3_step (Statement.sql_ st) (Statement.bound st)
                         (Statement.stepped st) d) as [[rc r] d'].
  cbn [fst snd].
  destruct (negb (rc =? SQLITE_DONE) && negb (rc =? SQLITE_ROW)); [|reflexivity].
  destruct (rc =? SQLITE_CONSTRAINT); reflexivity.
Qed.

Lemma statement_execute_state (st : Statement.t) (d : db) :
  snd (snd (Statement.execute (st, d))) =
    snd (sqlite3_step (Statement.sql_ st) (Statement.bound st)
                      (Statement.stepped st) d).
Proof.
  unfold Statement.execute, Statement.do_step, Statement.do_reset,
    bind, throw, assign, get.
  cbn [fst snd].
  destruct (sqlite3_step (Statement.sql_ st) (Statement.bound st)
                         (Statement.stepped st) d) as [[rc r] d'].
  cbn [fst snd].
  destruct (negb (rc =? SQLITE_DONE) && negb (rc =? SQLITE_ROW)); [|reflexivity].
  destruct (rc =? SQLITE_CONSTRAINT); reflexivity.
Qed.

(** C6, as the code has it.  [Statement::execute] makes one step and
    returns normally exactly
    when the step reports "done" or "row"; every other result code throws
    an exception carrying that code: ConstraintException when the code is
    the constraint code itself, QueryException when its base code is not
    the constraint code. *)
Theorem statement_execute_outcome (st : Statement.t) (d : db) :
  snd (snd (Statement.execute (st, d))) =
    snd (sqlite3_step (Statement.sql_ st) (Statement.bound st)
                      (Statement.stepped st) d) /\
  (fst (Statement.execute (st, d)) = Ok tt <->
   step_code st d = SQLITE_DONE \/ step_code st d = SQLITE_ROW) /\
  (step_code st d <> SQLITE_DONE -> step_code st d <> SQLITE_ROW ->
   exists e,
     fst (Statement.execute (st, d)) = Throw e /\
     errorCode e = step_code st d /\
     (step_code st d = SQLITE_CONSTRAINT -> is_ConstraintException e = true) /\
     (Z.land (step_code st d) 255 <> SQLITE_CONSTRAINT -> is_QueryException e = true)).
Proof.
  split; [apply statement_execute_state|].
  rewrite statement_execute_run.
  destruct (step_code st d =? SQLITE_DONE) eqn:Ed;
    [apply Z.eqb_eq in Ed|apply Z.eqb_neq in Ed];
    (destruct (step_code st d =? SQLITE_ROW) eqn:Er;
     [apply Z.eqb_eq in Er|apply Z.eqb_neq in Er]); cbn [negb andb].
  - split; [tauto|]. intros N; contradiction.
  - split; [tauto|]. intros N; contradiction.
  - split; [tauto|]. intros _ N; contradiction.
  - split.
    + destruct (step_code st d =? SQLITE_CONSTRAINT); split;
        try discriminate; intros [|]; contradiction.
    + intros _ _.
      destruct (step_code st d =? SQLITE_CONSTRAINT) eqn:Ec;
        [apply Z.eqb_eq in Ec|apply Z.eqb_neq in Ec];
        eexists; (split; [reflexivity|]); (split; [reflexivity|]); cbn.
      * split; [reflexivity|]. intros N. rewrite Ec in N. contradiction N. reflexivity.
      * split; [intros E; contradiction|reflexivity].
Qed.

(** [Connection::execute] looks at the base code. *)
Lemma connection_execute_classifies (sql : string) (d : db) :
  (engine_code sql d = SQLITE_OK -> fst (Connection.execute sql d) = Ok tt) /\
  (engine_code sql d <> SQLITE_OK ->
   exists e,
     fst (Connection.execute sql d) = Throw e /\
     errorCode e = engine_code sql d /\
     (Z.land (engine_code sql d) 255 = SQLITE_CONSTRAINT ->
      is_ConstraintException e = true) /\
     (Z.land (engine_code sql d) 255 <> SQLITE_CONSTRAINT ->
      is_QueryException e = true)).
Proof.
  unfold engine_code, Connection.execute.
  destruct (sqlite3_exec sql d) as [[rc msg] d']. cbn [fst snd].
  destruct (rc =? SQLITE_OK) eqn:E;
    [apply Z.eqb_eq in E|apply Z.eqb_neq in E]; cbn [negb].
  - split; [reflexivity|]. intros N; contradiction.
  - split; [intros N; contradiction|]. intros _.
    destruct (Z.land rc 255 =? SQLITE_CONSTRAINT) eqn:Ec;
      [apply Z.eqb_eq in Ec|apply Z.eqb_neq in Ec];
      eexists; (split; [reflexivity|]); (split; [reflexivity|]); cbn.
    + split; [reflexivity|]. intros N; contradiction.
    + split; [intros N; contradiction|reflexivity].
Qed.

End GuardFacts.

(** * The migration manager on MiniSQLite *)

Section MiniSQLiteFacts.
Import MiniSQLite MigrationManager OnMiniSQLite.
Context {U : Type}.
Local Abbreviation D := (DB U).

(** ** What the engine answers to the statements of the manager *)

Lemma execute_create (d : D) :
  Connection.execute create_migrations_sql d = (Ok tt, ensured d).
Proof. reflexivity. Qed.

Lemma execute_begin (d : D) :
  Connection.execute "BEGIN DEFERRED TRANSACTION" d =
  match txn d with
  | None => (Ok tt, begun d)
  | Some _ =>
      (Throw (QueryException no_nested_begin "BEGIN DEFERRED TRANSACTION" SQLITE_ERROR),
       refused "BEGIN DEFERRED TRANSACTION" no_nested_begin d)
  end.
Proof. unfold Connection.execute. cbn. destruct (txn d); reflexivity. Qed.

Lemma execute_commit (d : D) :
  Connection.execute "COMMIT" d =
  match txn d with
  | Some t => (Ok tt, finished t d)
  | None =>
      (Throw (QueryException no_commit "COMMIT" SQLITE_ERROR),
       refused "COMMIT" no_commit d)
  end.
Proof. unfold Connection.execute. cbn. destruct (txn d); reflexivity. Qed.

Lemma execute_rollback (d : D) :
  Connection.execute "ROLLBACK" d =
  match txn d with
  | Some t => (Ok tt, rolled_back d)
  | None =>
      (Throw (QueryException no_rollback "ROLLBACK" SQLITE_ERROR),
       refused "ROLLBACK" no_rollback d)
  end.
Proof. unfold Connection.execute. cbn. destruct (txn d); reflexivity. Qed.

Lemma rows_ensured (d : D) :
  migrations_table (visible (ensured d)) = Some (rows d).
Proof.
  unfold ensured, rows, write, visible, ensure_table. cbn.
  destruct (txn d) as [t|] eqn:T; cbn; rewrite ?T.
  - destruct (migrations_table (work t)) eqn:E; cbn; congruence.
  - destruct (migrations_table (committed d)) eqn:E; cbn; congruence.
Qed.

Lemma rows_logged (sql : string) (b : list (Z * Value)) (d : D) :
  rows (logged sql b d) = rows d.
Proof. reflexivity. Qed.

Lemma rows_of_table (d : D) (r : list (Z * string)) :
  migrations_table (visible d) = Some r -> rows d = r.
Proof. unfold rows. intros ->. reflexivity. Qed.

Lemma rows_after_ensured (d : D) : rows (ensured d) = rows d.
Proof. apply rows_of_table, rows_ensured. Qed.

Lemma currentVersion_run (d : D) :
  currentVersion d = (Ok (current_of d), surveyed d).
Proof.
  unfold currentVersion, ensureMigrationTable, bind.
  rewrite execute_create.
  unfold Statement.prepare. cbn [sqlite3_prepare_v2 engine].
  unfold prepare. cbn [is_bookkeeping].
  change (is_bookkeeping select_max_sql) with true. cbv iota.
  rewrite rows_ensured. cbn [negb Z.eqb SQLITE_OK].
  unfold scoped, Statement.step, Statement.do_step, Statement.dtor, bind, ret, this.
  cbn [fst snd Statement.sql_ Statement.bound Statement.stepped sqlite3_step engine].
  unfold step. change (visible (logged select_max_sql [] (ensured d)))
    with (visible (ensured d)).
  rewrite rows_ensured.
  change (String.eqb select_max_sql select_max_sql) with true. cbv iota.
  unfold current_of, surveyed.
  destruct (max_version (rows d)); reflexivity.
Qed.

Lemma recordMigration_run (mgr : MigrationManager.t D) (v : Z) (m : Migration D)
      (d : D) (r : list (Z * string)) :
  at_ v mgr = Some m -> migrations_table (visible d) = Some r ->
  recordMigration mgr v d =
    let b := [(2, VText (description m)); (1, VInt v)] in
    if has_version v r then
      (Throw (if extended d
              then QueryException unique_failed insert_sql SQLITE_CONSTRAINT_PRIMARYKEY
              else ConstraintException unique_failed SQLITE_CONSTRAINT),
       with_errmsg unique_failed (logged insert_sql b d))
    else (Ok tt, write (insert_row v (description m)) (logged insert_sql b d)).
Proof.
  intros A T. unfold recordMigration. rewrite A.
  destruct d as [[u0 tb0] [[[u1 tb1] sv imp]|] ext msg h]; cbn in T; subst;
    destruct ext; cbv -[has_version]; destruct (has_version v r); reflexivity.
Qed.

Lemma recordMigration_no_table (mgr : MigrationManager.t D) (v : Z) (m : Migration D)
      (d : D) :
  at_ v mgr = Some m -> migrations_table (visible d) = None ->
  recordMigration mgr v d =
    (Throw (QueryException no_such_table insert_sql SQLITE_ERROR),
     with_errmsg no_such_table d).
Proof.
  intros A T. unfold recordMigration. rewrite A.
  destruct d as [[u0 tb0] [[[u1 tb1] sv imp]|] ext msg h]; cbn in T; subst;
    reflexivity.
Qed.

Lemma removeMigrationRecord_run (v : Z) (d : D) (r : list (Z * string)) :
  migrations_table (visible d) = Some r ->
  removeMigrationRecord v d =
    (Ok tt, write (delete_row v) (logged delete_sql [(1, VInt v)] d)).
Proof.
  intros T. unfold removeMigrationRecord.
  destruct d as [[u0 tb0] [[[u1 tb1] sv imp]|] ext msg h]; cbn in T; subst;
    reflexivity.
Qed.

Lemma removeMigrationRecord_no_table (v : Z) (d : D) :
  migrations_table (visible d) = None ->
  removeMigrationRecord v d =
    (Throw (QueryException no_such_table delete_sql SQLITE_ERROR),
     with_errmsg no_such_table d).
Proof.
  intros T. unfold removeMigrationRecord.
  destruct d as [[u0 tb0] [[[u1 tb1] sv imp]|] ext msg h]; cbn in T; subst;
    reflexivity.
Qed.

(** ** One unit of work *)

(** Every way a unit can go: BEGIN refused; the body returns and COMMIT is
    accepted, or refused; the body throws.  In the last two cases the
    destructor of the guard sends ROLLBACK. *)
Lemma in_transaction_run (body : M D unit) (text : string) (v : Z) (d : D) :
  in_transaction body text v d =
  match txn d with
  | Some _ =>
      (Throw (TransactionException
                ("Failed to begin transaction: " +++
                 what (QueryException no_nested_begin "BEGIN DEFERRED TRANSACTION" SQLITE_ERROR))
                SQLITE_ERROR),
       refused "BEGIN DEFERRED TRANSACTION" no_nested_begin d)
  | None =>
      match body (begun d) with
      | (Ok _, d2) =>
          match txn d2 with
          | Some t => (Ok tt, finished t d2)
          | None =>
              (Throw (MigrationException
                        (text +++
                         what (TransactionException
                                 ("Failed to commit: " +++
                                  what (QueryException no_commit "COMMIT" SQLITE_ERROR))
                                 SQLITE_ERROR)) v),
               refused "ROLLBACK" no_rollback (refused "COMMIT" no_commit d2))
          end
      | (Throw e, d2) =>
          (Throw (MigrationException (text +++ what e) v),
           match txn d2 with
           | Some _ => rolled_back d2
           | None => refused "ROLLBACK" no_rollback d2
           end)
      end
  end.
Proof.
  unfold in_transaction, Transaction.ctor, Transaction.begin_sql.
  unfold bind at 1. unfold try_catch at 1. unfold bind at 1.
  rewrite execute_begin.
  destruct (txn d) as [t0|] eqn:T0; [reflexivity|].
  unfold ret at 1. unfold scoped, try_catch, bind, on_conn. cbn [fst snd].
  destruct (body (begun d)) as [[[]|e] d2].
  - unfold Transaction.commit, bind, this, try_catch, on_conn, assign, throw.
    cbn [fst snd Transaction.active_ negb].
    rewrite execute_commit.
    destruct (txn d2) as [t|] eqn:T2.
    + reflexivity.
    + cbn [is_QueryException any_exception fst snd].
      unfold Transaction.dtor, bind, this, try_catch, on_conn.
      cbn [fst snd Transaction.active_ Transaction.conn_ andb].
      rewrite execute_rollback.
      unfold refused at 1. cbn [txn with_errmsg logged].
      rewrite T2. reflexivity.
  - cbn [any_exception]. unfold throw.
    unfold Transaction.dtor, bind, this, try_catch, on_conn.
    cbn [fst snd Transaction.active_ Transaction.conn_ andb].
    rewrite execute_rollback.
    destruct (txn d2); reflexivity.
Qed.

Lemma apply_one_unfold (mgr : MigrationManager.t D) (v : Z) (m : Migration D) (d : D) :
  at_ v mgr = Some m ->
  apply_one mgr v d =
    in_transaction (up m ;; recordMigration mgr v) "Migration failed: " v d.
Proof.
  intros A. unfold apply_one, in_transaction. rewrite A.
  unfold bind, scoped, try_catch, on_conn. cbn [fst snd].
  destruct (Transaction.ctor Transaction.Deferred d) as [[g|e] d1]; [|reflexivity].
  cbn [fst snd]. destruct (up m d1) as [[[]|e] d2]; [|reflexivity].
  cbn [fst snd]. destruct (recordMigration mgr v d2) as [[[]|e] d3]; reflexivity.
Qed.

Lemma rollback_one_unfold (mgr : MigrationManager.t D) (v : Z) (m : Migration D)
      (f : M D unit) (d : D) :
  at_ v mgr = Some m -> down m = Some f ->
  rollback_one mgr v d =
    in_transaction (f ;; removeMigrationRecord v) "Rollback failed: " v d.
Proof.
  intros A F. unfold rollback_one, in_transaction. rewrite A, F.
  unfold bind, scoped, try_catch, on_conn. cbn [fst snd].
  destruct (Transaction.ctor Transaction.Deferred d) as [[g|e] d1]; [|reflexivity].
  cbn [fst snd]. destruct (f d1) as [[[]|e] d2]; [|reflexivity].
  cbn [fst snd]. destruct (removeMigrationRecord v d2) as [[[]|e] d3]; reflexivity.
Qed.

(** A unit that succeeds did what the specification says, step by step. *)
Lemma unit_success_as_specified (p r : M D unit) (text : string) (v : Z) (d d' : D) :
  in_transaction (p ;; r) text v d = (Ok tt, d') <->
  unit_as_specified p r d = (Ok tt, d').
Proof.
  rewrite in_transaction_run. unfold unit_as_specified, bind.
  rewrite execute_begin.
  destruct (txn d) as [t0|]; [split; discriminate|].
  destruct (p (begun d)) as [[[]|e] d1]; [|split; discriminate].
  destruct (r d1) as [[[]|e] d2]; [|split; discriminate].
  rewrite execute_commit. destruct (txn d2); split; congruence.
Qed.

Lemma txn_write (f : Store U -> Store U) (d : D) (t : Txn U) :
  txn d = Some t ->
  write f d = with_txn (Some (mkTxn (f (work t)) (saves t) (implicit t))) d.
Proof. unfold write. intros ->. reflexivity. Qed.

End MiniSQLiteFacts.

(** ** Sorting a strictly ascending vector *)

Lemma insert_sorted_front (x : Z) (l : list Z) :
  Forall (fun y => x < y) l -> insert_sorted Z.leb x l = x :: l.
Proof.
  destruct l as [|y l]; [reflexivity|]. intros F. inversion F; subst.
  cbn. replace (y <=? x) with false by (symmetry; apply Z.leb_gt; lia).
  reflexivity.
Qed.

Lemma std_sort_ascending (l : list Z) :
  StronglySorted Z.lt l -> std_sort Z.leb l = l.
Proof.
  induction 1 as [|x l S IH F]; [reflexivity|].
  cbn. rewrite IH. apply insert_sorted_front, F.
Qed.

Lemma insert_sorted_back (x : Z) (l : list Z) :
  Forall (fun y => x < y) l -> insert_sorted Z.geb x l = l ++ [x].
Proof.
  induction 1 as [|y l Hy F IH]; [reflexivity|].
  cbn. replace (y >=? x) with true by (symmetry; rewrite Z.geb_leb; apply Z.leb_le; lia).
  rewrite IH. reflexivity.
Qed.

Lemma std_sort_descending (l : list Z) :
  StronglySorted Z.lt l -> std_sort Z.geb l = rev l.
Proof.
  induction 1 as [|x l S IH F]; [reflexivity|].
  cbn. rewrite IH. apply insert_sorted_back, Forall_rev, F.
Qed.

Lemma StronglySorted_filter (f : Z -> bool) (l : list Z) :
  StronglySorted Z.lt l -> StronglySorted Z.lt (filter f l).
Proof.
  induction 1 as [|x l S IH F]; [constructor|].
  cbn. destruct (f x); [|exact IH].
  constructor; [exact IH|].
  rewrite Forall_forall in *. intros y Hy. apply filter_In in Hy. apply F, Hy.
Qed.

Lemma StronglySorted_snoc (l : list Z) (x : Z) :
  StronglySorted Z.gt l -> Forall (fun y => y > x) l -> StronglySorted Z.gt (l ++ [x]).
Proof.
  induction 1 as [|y l S IH F]; intros G; cbn.
  - constructor; constructor.
  - inversion G; subst. constructor; [apply IH; assumption|].
    apply Forall_app. split; [exact F|]. constructor; [assumption|constructor].
Qed.

Lemma StronglySorted_rev (l : list Z) :
  StronglySorted Z.lt l -> StronglySorted Z.gt (rev l).
Proof.
  induction 1 as [|x l S IH F]; [constructor|].
  cbn. apply StronglySorted_snoc; [exact IH|].
  apply Forall_rev. revert F. apply Forall_impl. intros; lia.
Qed.

(** ** The greatest recorded version *)

Lemma max_version_spec (l : list (Z * string)) :
  match MiniSQLite.max_version l with
  | None => l = []
  | Some m => In m (map fst l) /\ Forall (fun r => fst r <= m) l
  end.
Proof.
  induction l as [|[v s] l IH]; [reflexivity|].
  cbn [MiniSQLite.max_version]. destruct (MiniSQLite.max_version l) as [m|].
  - destruct IH as [I F]. split.
    + cbn. destruct (Z.max_spec v m) as [[_ ->]|[_ ->]]; auto.
    + constructor; [cbn; lia|]. revert F. apply Forall_impl. intros; lia.
  - subst l. split; [left; reflexivity|]. constructor; [cbn; lia|constructor].
Qed.

Lemma max_version_greatest (l : list (Z * string)) (top : Z) :
  In top (map fst l) -> Forall (fun r => fst r <= top) l ->
  MiniSQLite.max_version l = Some top.
Proof.
  intros I F. pose proof (max_version_spec l) as S.
  destruct (MiniSQLite.max_version l) as [m|].
  - destruct S as [Im Fm]. f_equal.
    apply in_map_iff in I. destruct I as [r [<- Ir]].
    apply in_map_iff in Im. destruct Im as [r' [<- Ir']].
    rewrite Forall_forall in F, Fm.
    pose proof (F r' Ir'). pose proof (Fm r Ir). lia.
  - subst l. destruct I.
Qed.

Lemma last_cons {A : Type} (l : list A) :
  forall a d, last (a :: l) d = last l a.
Proof.
  induction l as [|b l IH]; intros a d; [reflexivity|].
  change (last (a :: b :: l) d) with (last (b :: l) d).
  rewrite !IH. reflexivity.
Qed.

Lemma to_int32_small (z : Z) : - 2^31 <= z < 2^31 -> to_int32 z = z.
Proof. intros R. unfold to_int32. rewrite Z.mod_small; lia. Qed.

(** ** Units with confined procedures *)

Section MiniSQLiteRuns.
Import MiniSQLite MigrationManager OnMiniSQLite.
Context {U : Type}.
Local Abbreviation D := (DB U).

(** A unit of [applyTo] that succeeds, with a confined procedure. *)
Lemma apply_one_confined (mgr : MigrationManager.t D) (v : Z) (m : Migration D)
      (d d' : D) :
  at_ v mgr = Some m -> confined (up m) ->
  apply_one mgr v d = (Ok tt, d') ->
  txn d = None /\ txn d' = None /\ extended d' = extended d /\
  history d' = history d ++ apply_statements mgr v /\
  exists r, migrations_table (committed d) = Some r /\
            has_version v r = false /\
            migrations_table (committed d') = Some (r ++ [(v, description m)]).
Proof.
  intros A C R. rewrite (apply_one_unfold mgr v m d A), in_transaction_run in R.
  destruct (txn d) as [t0|] eqn:T0; [discriminate|].
  unfold bind in R.
  destruct (C (begun d) (mkTxn (committed d) [] false) eq_refl)
    as [Hc [He [Hh [w [Ht Hw]]]]].
  destruct (up m (begun d)) as [[[]|e] d1]; [|discriminate].
  cbn [snd] in Hc, He, Hh, Ht. cbn [work saves implicit] in Ht, Hw.
  destruct d1 as [c1 t1 x1 e1 h1]. cbn in Hc, He, Hh, Ht. subst c1 t1 x1 h1.
  destruct w as [uw tw]. cbn in Hw. subst tw.
  destruct (migrations_table (committed d)) as [r|] eqn:Tr.
  - match type of R with context [recordMigration mgr v ?x] =>
      rewrite (recordMigration_run mgr v m x r A eq_refl) in R end.
    cbv zeta in R.
    destruct (has_version v r) eqn:Hv; [discriminate|].
    cbn in R. injection R as <-. cbn.
    unfold apply_statements, description_of. rewrite A.
    rewrite <- !app_assoc. cbn.
    repeat split; try reflexivity. exists r. auto.
  - match type of R with context [recordMigration mgr v ?x] =>
      rewrite (recordMigration_no_table mgr v m x A eq_refl) in R end.
    discriminate.
Qed.

(** A unit of [rollbackTo] that succeeds, with a confined procedure. *)
Lemma rollback_one_confined (mgr : MigrationManager.t D) (v : Z) (m : Migration D)
      (f : M D unit) (d d' : D) :
  at_ v mgr = Some m -> down m = Some f -> confined f ->
  rollback_one mgr v d = (Ok tt, d') ->
  txn d = None /\ txn d' = None /\ extended d' = extended d /\
  history d' = history d ++ rollback_statements v /\
  exists r, migrations_table (committed d) = Some r /\
            migrations_table (committed d') =
              Some (filter (fun row => negb (fst row =? v)) r).
Proof.
  intros A F C R. rewrite (rollback_one_unfold mgr v m f d A F), in_transaction_run in R.
  destruct (txn d) as [t0|] eqn:T0; [discriminate|].
  unfold bind in R.
  destruct (C (begun d) (mkTxn (committed d) [] false) eq_refl)
    as [Hc [He [Hh [w [Ht Hw]]]]].
  destruct (f (begun d)) as [[[]|e] d1]; [|discriminate].
  cbn [snd] in Hc, He, Hh, Ht. cbn [work saves implicit] in Ht, Hw.
  destruct d1 as [c1 t1 x1 e1 h1]. cbn in Hc, He, Hh, Ht. subst c1 t1 x1 h1.
  destruct w as [uw tw]. cbn in Hw. subst tw.
  destruct (migrations_table (committed d)) as [r|] eqn:Tr.
  - match type of R with context [removeMigrationRecord v ?x] =>
      rewrite (removeMigrationRecord_run v x r eq_refl) in R end.
    cbn in R. injection R as <-. cbn.
    unfold rollback_statements.
    rewrite <- !app_assoc. cbn.
    repeat split; try reflexivity. exists r. auto.
  - match type of R with context [removeMigrationRecord v ?x] =>
      rewrite (removeMigrationRecord_no_table v x eq_refl) in R end.
    discriminate.
Qed.

Lemma rows_committed (d : D) (r : list (Z * string)) :
  txn d = None -> migrations_table (committed d) = Some r -> rows d = r.
Proof. unfold rows, visible. intros -> ->. reflexivity. Qed.

Lemma apply_one_registered (mgr : MigrationManager.t D) (v : Z) (d d' : D) :
  apply_one mgr v d = (Ok tt, d') -> exists m, at_ v mgr = Some m.
Proof.
  unfold apply_one. destruct (at_ v mgr) as [m|]; [eauto|discriminate].
Qed.

Lemma rollback_one_registered (mgr : MigrationManager.t D) (v : Z) (d d' : D) :
  rollback_one mgr v d = (Ok tt, d') ->
  exists m f, at_ v mgr = Some m /\ down m = Some f.
Proof.
  unfold rollback_one. destruct (at_ v mgr) as [m|]; [|discriminate].
  destruct (down m) as [f|] eqn:F; [|discriminate].
  intros _. exists m, f. auto.
Qed.

(** ** The loops *)

Lemma apply_each_confined (mgr : MigrationManager.t D) (units : list Z) :
  (forall v m, at_ v mgr = Some m -> confined (up m)) ->
  forall d d',
  apply_each mgr units d = (Ok tt, d') ->
  extended d' = extended d /\
  history d' = history d ++ flat_map (apply_statements mgr) units /\
  rows d' = rows d ++ map (fun v => (v, description_of mgr v)) units /\
  (units <> [] -> txn d = None /\ txn d' = None) /\
  (units = [] -> d' = d).
Proof.
  intros C. induction units as [|v rest IH]; intros d d' R.
  - cbn in R. unfold ret in R. injection R as <-. cbn. rewrite !app_nil_r.
    repeat (split; [reflexivity|]).
    split; [intros N; exfalso; apply N; reflexivity|reflexivity].
  - cbn [apply_each] in R. unfold bind in R.
    destruct (apply_one mgr v d) as [[[]|e] d1] eqn:E1; [|discriminate].
    destruct (apply_one_registered mgr v d d1 E1) as [m A].
    destruct (apply_one_confined mgr v m d d1 A (C v m A) E1)
      as [T0 [T1 [X1 [H1 [r [Tr [Hv Tr1]]]]]]].
    destruct (IH d1 d' R) as [X [Hh [Hr [Ht Hn]]]].
    rewrite (rows_committed d r T0 Tr).
    rewrite (rows_committed d1 _ T1 Tr1) in Hr.
    split; [congruence|]. split; [|split; [|split]].
    + rewrite Hh, H1. cbn [flat_map]. rewrite <- app_assoc. reflexivity.
    + rewrite Hr. cbn [map]. unfold description_of at 2. rewrite A.
      rewrite <- app_assoc. reflexivity.
    + intros _. split; [exact T0|].
      destruct rest as [|v' rest'].
      * rewrite (Hn eq_refl). exact T1.
      * apply Ht. discriminate.
    + discriminate.
Qed.

Lemma rollback_each_confined (mgr : MigrationManager.t D) (units : list Z) :
  (forall v m f, at_ v mgr = Some m -> down m = Some f -> confined f) ->
  forall d d',
  rollback_each mgr units d = (Ok tt, d') ->
  extended d' = extended d /\
  history d' = history d ++ flat_map rollback_statements units /\
  rows d' = filter (outside units) (rows d) /\
  (units <> [] -> txn d = None /\ txn d' = None) /\
  (units = [] -> d' = d).
Proof.
  intros C. induction units as [|v rest IH]; intros d d' R.
  - cbn in R. unfold ret in R. injection R as <-. cbn. rewrite !app_nil_r.
    repeat (split; [reflexivity|]).
    split; [|split; [intros N; exfalso; apply N; reflexivity|reflexivity]].
    symmetry. apply forallb_filter_id. apply forallb_forall. reflexivity.
  - cbn [rollback_each] in R. unfold bind in R.
    destruct (rollback_one mgr v d) as [[[]|e] d1] eqn:E1; [|discriminate].
    destruct (rollback_one_registered mgr v d d1 E1) as [m [f [A F]]].
    destruct (rollback_one_confined mgr v m f d d1 A F (C v m f A F) E1)
      as [T0 [T1 [X1 [H1 [r [Tr Tr1]]]]]].
    destruct (IH d1 d' R) as [X [Hh [Hr [Ht Hn]]]].
    rewrite (rows_committed d r T0 Tr).
    rewrite (rows_committed d1 _ T1 Tr1) in Hr.
    split; [congruence|]. split; [|split; [|split]].
    + rewrite Hh, H1. cbn [flat_map]. rewrite <- app_assoc. reflexivity.
    + rewrite Hr. clear. induction r as [|row r IHr]; [reflexivity|].
      unfold outside in *. cbn [filter existsb].
      destruct (fst row =? v) eqn:E; cbn [negb orb].
      * exact IHr.
      * cbn [filter]. destruct (negb (existsb (Z.eqb (fst row)) rest)).
        -- f_equal. exact IHr.
        -- exact IHr.
    + intros _. split; [exact T0|].
      destruct rest as [|v' rest'].
      * rewrite (Hn eq_refl). exact T1.
      * apply Ht. discriminate.
    + discriminate.
Qed.

Lemma apply_each_as_specified (mgr : MigrationManager.t D) (units : list Z) :
  forall d d',
  apply_each mgr units d = (Ok tt, d') ->
  apply_as_specified mgr units d = (Ok tt, d').
Proof.
  induction units as [|v rest IH]; intros d d' R; [exact R|].
  cbn [apply_each apply_as_specified] in *. unfold bind at 1 in R.
  destruct (apply_one mgr v d) as [[[]|e] d1] eqn:E1; [|discriminate].
  destruct (apply_one_registered mgr v d d1 E1) as [m A]. rewrite A.
  rewrite (apply_one_unfold mgr v m d A) in E1.
  apply unit_success_as_specified in E1.
  unfold bind at 1. rewrite E1. apply IH, R.
Qed.

Lemma rollback_each_as_specified (mgr : MigrationManager.t D) (units : list Z) :
  forall d d',
  rollback_each mgr units d = (Ok tt, d') ->
  rollback_as_specified mgr units d = (Ok tt, d').
Proof.
  induction units as [|v rest IH]; intros d d' R; [exact R|].
  cbn [rollback_each rollback_as_specified] in *. unfold bind at 1 in R.
  destruct (rollback_one mgr v d) as [[[]|e] d1] eqn:E1; [|discriminate].
  destruct (rollback_one_registered mgr v d d1 E1) as [m [f [A F]]]. rewrite A, F.
  rewrite (rollback_one_unfold mgr v m f d A F) in E1.
  apply unit_success_as_specified in E1.
  unfold bind at 1. rewrite E1. apply IH, R.
Qed.

(** ** The registered set *)

Lemma emplace_keys (k : Z) (m : Migration D) (mgr : MigrationManager.t D) (x : Z) :
  In x (map fst (emplace k m mgr)) -> x = k \/ In x (map fst mgr).
Proof.
  induction mgr as [|e rest IH]; cbn [emplace map In].
  - intros [<-|[]]. left. reflexivity.
  - destruct (k <? fst e).
    + cbn [map In fst]. intros [<-|I]; auto.
    + destruct (k =? fst e).
      * cbn [map In]. auto.
      * cbn [map In]. intros [E|I]; [auto|]. destruct (IH I); auto.
Qed.

Lemma emplace_sorted (k : Z) (m : Migration D) (mgr : MigrationManager.t D) :
  StronglySorted Z.lt (map fst mgr) ->
  StronglySorted Z.lt (map fst (emplace k m mgr)).
Proof.
  induction mgr as [|e rest IH]; cbn [emplace map]; intros S.
  - repeat constructor.
  - inversion S as [|? ? S' F]; subst.
    destruct (k <? fst e) eqn:Lt.
    + apply Z.ltb_lt in Lt. cbn [map fst]. constructor; [exact S|].
      constructor; [exact Lt|]. revert F. apply Forall_impl. intros; lia.
    + apply Z.ltb_ge in Lt. destruct (k =? fst e) eqn:Eq; [exact S|].
      apply Z.eqb_neq in Eq. cbn [map]. constructor; [apply IH, S'|].
      apply Forall_forall. intros x Ix.
      destruct (emplace_keys k m rest x Ix) as [->|I]; [lia|].
      rewrite Forall_forall in F. apply F, I.
Qed.

Lemma emplace_all (P : Z * Migration D -> Prop) (k : Z) (m : Migration D)
      (mgr : MigrationManager.t D) :
  P (k, m) -> Forall P mgr -> Forall P (emplace k m mgr).
Proof.
  intros Pk. induction 1 as [|e rest Pe F IH]; cbn [emplace].
  - repeat constructor. exact Pk.
  - destruct (k <? fst e); [repeat constructor; assumption|].
    destruct (k =? fst e); constructor; assumption.
Qed.

(** [add] keeps the registered set well formed; the version is an [int]. *)
Lemma add_well_formed (migration : Migration D) (mgr mgr' : MigrationManager.t D) :
  well_formed mgr -> version migration < 2^31 ->
  add migration mgr = Ok mgr' -> well_formed mgr'.
Proof.
  intros [S W] R. unfold add.
  destruct (version migration <=? 0) eqn:P; [discriminate|].
  apply Z.leb_gt in P.
  destruct (count (version migration) mgr >? 0); [discriminate|].
  intros [= <-]. split; [apply emplace_sorted, S|].
  apply emplace_all; [cbn; lia|exact W].
Qed.

Lemma add_rejects (migration : Migration D) (mgr : MigrationManager.t D) :
  (version migration <= 0 ->
   add migration mgr =
     Throw (MigrationException "Migration version must be positive" (version migration))) /\
  (0 < version migration -> In (version migration) (map fst mgr) ->
   add migration mgr =
     Throw (MigrationException "Duplicate migration version" (version migration))).
Proof.
  unfold add, count. split.
  - intros P. replace (version migration <=? 0) with true
      by (symmetry; apply Z.leb_le; exact P). reflexivity.
  - intros P I. replace (version migration <=? 0) with false
      by (symmetry; apply Z.leb_gt; exact P).
    replace (existsb (fun e => fst e =? version migration) mgr) with true; [reflexivity|].
    symmetry. apply existsb_exists. apply in_map_iff in I.
    destruct I as [e [E Ie]]. exists e. split; [exact Ie|]. apply Z.eqb_eq, E.
Qed.

(** ** The whole operations *)

Lemma rows_entered (d : D) : rows (entered d) = rows d.
Proof.
  unfold entered, surveyed. rewrite rows_logged, !rows_after_ensured. reflexivity.
Qed.

Lemma rows_surveyed (d : D) : rows (surveyed d) = rows d.
Proof. unfold surveyed. rewrite rows_logged, rows_after_ensured. reflexivity. Qed.

Lemma applyTo_run (mgr : MigrationManager.t D) (target : Z) (d : D) :
  applyTo mgr target d =
    apply_each mgr (std_sort Z.leb (selected mgr (current_of d) target)) (entered d).
Proof.
  unfold applyTo, ensureMigrationTable, bind.
  rewrite execute_create, currentVersion_run.
  unfold current_of. rewrite rows_after_ensured. reflexivity.
Qed.

Lemma rollbackTo_run (mgr : MigrationManager.t D) (target : Z) (d : D) :
  rollbackTo mgr target d =
    if target >=? current_of d then (Ok tt, surveyed d)
    else rollback_each mgr (std_sort Z.geb (selected mgr target (current_of d)))
                       (surveyed d).
Proof.
  unfold rollbackTo, bind. rewrite currentVersion_run.
  destruct (target >=? current_of d); reflexivity.
Qed.

Lemma selected_sorted (mgr : MigrationManager.t D) (lo hi : Z) :
  well_formed mgr -> StronglySorted Z.lt (selected mgr lo hi).
Proof. intros [S _]. apply StronglySorted_filter, S. Qed.

Lemma selected_spec (mgr : MigrationManager.t D) (lo hi v : Z) :
  In v (selected mgr lo hi) <-> In v (map fst mgr) /\ lo < v <= hi.
Proof.
  unfold selected, collect. rewrite filter_In, andb_true_iff.
  rewrite Z.gtb_ltb, Z.ltb_lt, Z.leb_le. tauto.
Qed.

Lemma latest_registered (mgr : MigrationManager.t D) :
  mgr <> [] -> In (latestVersion mgr) (map fst mgr).
Proof.
  destruct mgr as [|e rest]; [congruence|]. intros _. cbn [latestVersion].
  revert e. induction rest as [|e' rest IH]; intros e.
  - left. reflexivity.
  - right. rewrite last_cons. apply (IH e').
Qed.

Lemma latest_greatest (mgr : MigrationManager.t D) :
  StronglySorted Z.lt (map fst mgr) ->
  Forall (fun k => k <= latestVersion mgr) (map fst mgr).
Proof.
  destruct mgr as [|e rest]; [constructor|]. cbn [latestVersion].
  revert e. induction rest as [|e' rest IH]; intros e S.
  - constructor; [cbn; lia|constructor].
  - cbn [map] in S. inversion S as [|x l S' F]; subst.
    specialize (IH e' S'). rewrite last_cons. cbn [map] in *.
    constructor; [|exact IH].
    inversion F; subst. inversion IH; subst. lia.
Qed.

Lemma latest_range (mgr : MigrationManager.t D) :
  well_formed mgr -> 0 <= latestVersion mgr < 2^31.
Proof.
  intros [_ W]. destruct mgr as [|e rest]; [cbn; lia|].
  assert (I : In (latestVersion (e :: rest)) (map fst (e :: rest)))
    by (apply latest_registered; discriminate).
  apply in_map_iff in I. destruct I as [x [<- Ix]].
  rewrite Forall_forall in W. destruct (W x Ix) as [_ R]. lia.
Qed.

(** What [currentVersion] returns when every recorded version is a
    positive [int]: the greatest recorded version, or 0 when there is none. *)
Lemma current_of_recorded (d : D) (top : Z) :
  (forall v, In v (recorded d) -> 0 < v <= top) -> top < 2^31 ->
  (rows d = [] /\ current_of d = 0) \/
  (In (current_of d) (recorded d) /\ Forall (fun r => fst r <= current_of d) (rows d)).
Proof.
  intros B T. unfold current_of, recorded in *.
  pose proof (max_version_spec (rows d)) as S.
  destruct (max_version (rows d)) as [m|]; [right|left; auto].
  destruct S as [I F]. rewrite to_int32_small; [auto|].
  specialize (B m I). lia.
Qed.

(** C1.  When [applyTo] returns, it has applied exactly the registered
    units with [current < version <= target], in ascending order, each
    between BEGIN and COMMIT of its own transaction and each followed by
    the insertion of its bookkeeping record; and after [apply] the current
    version is the latest version.  The procedures are confined, and the
    recorded versions are positive and not above the latest version. *)
Theorem applyTo_applies_selected_units
        (mgr : MigrationManager.t D) (target : Z) (d d' : D) :
  well_formed mgr ->
  (forall v m, at_ v mgr = Some m -> confined (up m)) ->
  applyTo mgr target d = (Ok tt, d') ->
  StronglySorted Z.lt (selected mgr (current_of d) target) /\
  (forall v, In v (selected mgr (current_of d) target) <->
             In v (map fst mgr) /\ current_of d < v <= target) /\
  apply_as_specified mgr (selected mgr (current_of d) target) (entered d) = (Ok tt, d') /\
  history d' =
    history (entered d) ++
    flat_map (apply_statements mgr) (selected mgr (current_of d) target) /\
  rows d' =
    rows d ++
    map (fun v => (v, description_of mgr v)) (selected mgr (current_of d) target) /\
  (forall v, In v (selected mgr (current_of d) target) -> In v (recorded d')) /\
  (target = latestVersion mgr ->
   (forall v, In v (recorded d) -> 0 < v <= latestVersion mgr) ->
   apply mgr d = (Ok tt, d') /\
   currentVersion d' = (Ok (latestVersion mgr), surveyed d')).
Proof.
  intros W C R. rewrite applyTo_run in R.
  pose proof (selected_sorted mgr (current_of d) target W) as S.
  rewrite (std_sort_ascending _ S) in R.
  destruct (apply_each_confined mgr _ C _ _ R) as [_ [Hh [Hr _]]].
  rewrite rows_entered in Hr.
  split; [exact S|]. split; [apply selected_spec|].
  split; [apply apply_each_as_specified, R|].
  split; [exact Hh|]. split; [exact Hr|].
  split.
  { intros v Iv. unfold recorded. rewrite Hr, map_app, map_map. cbn [fst].
    rewrite map_id. apply in_or_app. right. exact Iv. }
  intros -> B. split.
  { unfold apply. rewrite applyTo_run, (std_sort_ascending _ S). exact R. }
  rewrite currentVersion_run. f_equal. f_equal.
  pose proof (latest_range mgr W) as LR.
  pose proof (latest_greatest mgr (proj1 W)) as LG.
  destruct (current_of_recorded d (latestVersion mgr) B (proj2 LR)) as [[E0 C0]|[Ic Fc]].
  - (* no record before *)
    rewrite C0, E0 in *. cbn [app] in Hr.
    destruct mgr as [|e rest].
    + cbn in Hr. unfold current_of. rewrite Hr. reflexivity.
    + assert (I : In (latestVersion (e :: rest)) (map fst (e :: rest)))
        by (apply latest_registered; discriminate).
      assert (P : 0 < latestVersion (e :: rest)).
      { apply in_map_iff in I. destruct I as [x [<- Ix]].
        destruct W as [_ W]. rewrite Forall_forall in W. apply W, Ix. }
      unfold current_of.
      rewrite (max_version_greatest (rows d') (latestVersion (e :: rest))).
      * apply to_int32_small. lia.
      * rewrite Hr, map_map. cbn [fst]. rewrite map_id.
        apply selected_spec. split; [exact I|lia].
      * rewrite Hr. apply Forall_forall. intros r Ir.
        apply in_map_iff in Ir. destruct Ir as [v [<- Iv]]. cbn [fst].
        apply selected_spec in Iv. lia.
  - (* the greatest record before is the current version *)
    pose proof (B _ Ic) as Bc.
    assert (I : In (latestVersion mgr) (map fst (rows d'))).
    { rewrite Hr, map_app. apply in_or_app.
      destruct (Z.eq_dec (current_of d) (latestVersion mgr)) as [E|N].
      - left. rewrite <- E. exact Ic.
      - right. rewrite map_map. cbn [fst]. rewrite map_id.
        apply selected_spec. split; [|lia].
        apply latest_registered. intros ->. cbn in Bc. lia. }
    unfold current_of.
    rewrite (max_version_greatest (rows d') (latestVersion mgr) I).
    + apply to_int32_small. lia.
    + rewrite Hr. apply Forall_app. split.
      * apply Forall_forall. intros r Ir. apply B, in_map, Ir.
      * apply Forall_forall. intros r Ir.
        apply in_map_iff in Ir. destruct Ir as [v [<- Iv]]. cbn [fst].
        apply selected_spec in Iv. lia.
Qed.

(** ** When [applyTo] returns *)

Lemma has_version_above (v : Z) (r : list (Z * string)) :
  Forall (fun row => fst row < v) r -> has_version v r = false.
Proof.
  unfold has_version. induction 1 as [|row r Hrow F IH]; [reflexivity|].
  cbn [existsb]. rewrite IH. replace (fst row =? v) with false; [reflexivity|].
  symmetry. apply Z.eqb_neq. lia.
Qed.

Lemma apply_one_returns (mgr : MigrationManager.t D) (v : Z) (m : Migration D)
      (d : D) (r : list (Z * string)) :
  at_ v mgr = Some m -> confined (up m) -> (forall x, fst (up m x) = Ok tt) ->
  txn d = None -> migrations_table (committed d) = Some r ->
  has_version v r = false ->
  exists d', apply_one mgr v d = (Ok tt, d').
Proof.
  intros A C P T0 Tr Hv.
  rewrite (apply_one_unfold mgr v m d A), in_transaction_run, T0.
  unfold bind.
  destruct (C (begun d) (mkTxn (committed d) [] false) eq_refl)
    as [Hc [He [Hh [w [Ht Hw]]]]].
  specialize (P (begun d)).
  destruct (up m (begun d)) as [[[]|e] d1]; [|discriminate].
  cbn [snd] in Hc, He, Hh, Ht. cbn [work saves implicit] in Ht, Hw.
  destruct d1 as [c1 t1 x1 e1 h1]. cbn in Hc, He, Hh, Ht. subst c1 t1 x1 h1.
  destruct w as [uw tw]. cbn in Hw. subst tw. rewrite Tr.
  match goal with |- context [recordMigration mgr v ?x] =>
    rewrite (recordMigration_run mgr v m x r A eq_refl) end.
  cbv zeta. rewrite Hv. cbn. eauto.
Qed.

Lemma apply_each_returns (mgr : MigrationManager.t D) (units : list Z) :
  (forall v m, at_ v mgr = Some m -> confined (up m) /\ forall x, fst (up m x) = Ok tt) ->
  (forall v, In v units -> In v (map fst mgr)) ->
  StronglySorted Z.lt units ->
  forall (d : D) (r : list (Z * string)),
  txn d = None -> migrations_table (committed d) = Some r ->
  Forall (fun v => Forall (fun row => fst row < v) r) units ->
  exists d', apply_each mgr units d = (Ok tt, d').
Proof.
  intros C Reg S. induction S as [|v rest S IH F]; intros d r T0 Tr Above.
  - exists d. reflexivity.
  - assert (A : exists m, at_ v mgr = Some m).
    { assert (I : In v (map fst mgr)) by (apply Reg; left; reflexivity).
      apply in_map_iff in I. destruct I as [e [Ee Ie]].
      unfold at_. destruct (find (fun e0 => fst e0 =? v) mgr) as [e0|] eqn:Fd; [eauto|].
      exfalso. apply (find_none _ _ Fd) in Ie. rewrite Ee, Z.eqb_refl in Ie.
      discriminate. }
    destruct A as [m A]. destruct (C v m A) as [Cm Pm].
    inversion Above as [|? ? Av Arest]; subst.
    destruct (apply_one_returns mgr v m d r A Cm Pm T0 Tr (has_version_above v r Av))
      as [d1 E1].
    destruct (apply_one_confined mgr v m d d1 A Cm E1)
      as [_ [T1 [_ [_ [r' [Tr' [_ Tr1]]]]]]].
    assert (r' = r) by congruence. subst r'.
    assert (Above1 : Forall (fun u => Forall (fun row => fst row < u)
                                             (r ++ [(v, description m)])) rest).
    { rewrite Forall_forall in *. intros u Iu. apply Forall_forall. intros row Irow.
      apply in_app_or in Irow. destruct Irow as [Irow|[<-|[]]].
      - specialize (Arest u Iu). rewrite Forall_forall in Arest. apply Arest, Irow.
      - cbn. apply F, Iu. }
    destruct (IH (fun u Iu => Reg u (or_intror Iu)) d1 _ T1 Tr1 Above1) as [d' E'].
    exists d'. cbn [apply_each]. unfold bind. rewrite E1. exact E'.
Qed.

Lemma entered_idle (d : D) :
  txn d = None ->
  txn (entered d) = None /\
  migrations_table (committed (entered d)) = Some (rows d).
Proof.
  destruct d as [[u0 tb0] [t|] ext msg h]; cbn; intros T; [discriminate|].
  destruct tb0; split; reflexivity.
Qed.

(** [applyTo] returns when no transaction is open, the procedures are
    confined and return, and the recorded versions are positive [int]s not
    above the latest version. *)
Lemma applyTo_returns (mgr : MigrationManager.t D) (target : Z) (d : D) :
  well_formed mgr ->
  (forall v m, at_ v mgr = Some m -> confined (up m) /\ forall x, fst (up m x) = Ok tt) ->
  txn d = None ->
  (forall v, In v (recorded d) -> 0 < v <= latestVersion mgr) ->
  exists d', applyTo mgr target d = (Ok tt, d').
Proof.
  intros W C T0 B. rewrite applyTo_run.
  pose proof (selected_sorted mgr (current_of d) target W) as S.
  rewrite (std_sort_ascending _ S).
  apply (apply_each_returns mgr _ C) with (r := rows d).
  - intros v Iv. apply selected_spec in Iv. tauto.
  - exact S.
  - apply entered_idle, T0.
  - apply entered_idle, T0.
  - apply Forall_forall. intros v Iv. apply selected_spec in Iv.
    destruct Iv as [_ [Lo _]].
    pose proof (latest_range mgr W) as LR.
    destruct (current_of_recorded d (latestVersion mgr) B (proj2 LR)) as [[E0 _]|[_ Fc]].
    + rewrite E0. constructor.
    + revert Fc. apply Forall_impl. intros row Hrow. lia.
Qed.


Lemma rollback_each_app (mgr : MigrationManager.t D) (pre rest : list Z) (d : D) :
  rollback_each mgr (pre ++ rest) d =
    (rollback_each mgr pre ;; rollback_each mgr rest) d.
Proof.
  revert d. induction pre as [|v pre IH]; intros d; [reflexivity|].
  cbn [app rollback_each]. unfold bind in *.
  destruct (rollback_one mgr v d) as [[[]|e] d1]; [apply IH|reflexivity].
Qed.



Lemma user_surveyed (d : D) : user (visible (surveyed d)) = user (visible d).
Proof.
  destruct d as [[u0 tb0] [[[u1 tb1] sv imp]|] ext msg h]; cbn.
  - destruct tb1; reflexivity.
  - destruct tb0; reflexivity.
Qed.

(** C3.  [rollbackTo] does nothing beyond reading the current version when
    [target >= current]; otherwise it goes through exactly the registered
    units with [target < version <= current] in descending order, each
    between BEGIN and COMMIT of its own transaction with the deletion of
    its bookkeeping record; at a unit without a down procedure it throws a
    MigrationException for that version at once, leaving the state the
    units before it committed.  The down procedures are confined. *)
Theorem rollbackTo_steps_down (mgr : MigrationManager.t D) (target : Z) (d : D) :
  well_formed mgr ->
  (forall v m f, at_ v mgr = Some m -> down m = Some f -> confined f) ->
  (target >= current_of d ->
   rollbackTo mgr target d = (Ok tt, surveyed d) /\
   rows (surveyed d) = rows d /\
   user (visible (surveyed d)) = user (visible d) /\
   history (surveyed d) =
     history d ++ [(create_migrations_sql, []); (select_max_sql, [])]) /\
  (target < current_of d ->
   StronglySorted Z.gt (rev (selected mgr target (current_of d))) /\
   (forall v, In v (rev (selected mgr target (current_of d))) <->
              In v (map fst mgr) /\ target < v <= current_of d) /\
   (forall d',
      rollbackTo mgr target d = (Ok tt, d') ->
      rollback_as_specified mgr (rev (selected mgr target (current_of d)))
                            (surveyed d) = (Ok tt, d') /\
      history d' =
        history (surveyed d) ++
        flat_map rollback_statements (rev (selected mgr target (current_of d))) /\
      rows d' = filter (outside (rev (selected mgr target (current_of d)))) (rows d)) /\
   (forall pre v post m d1,
      rev (selected mgr target (current_of d)) = pre ++ v :: post ->
      at_ v mgr = Some m -> down m = None ->
      rollback_each mgr pre (surveyed d) = (Ok tt, d1) ->
      rollbackTo mgr target d =
        (Throw (MigrationException "Migration has no rollback function" v), d1) /\
      history d1 = history (surveyed d) ++ flat_map rollback_statements pre /\
      rows d1 = filter (outside pre) (rows d))).
Proof.
  intros W C. split.
  - intros G. rewrite rollbackTo_run.
    replace (target >=? current_of d) with true
      by (symmetry; rewrite Z.geb_leb; apply Z.leb_le; lia).
    split; [reflexivity|]. split; [apply rows_surveyed|].
    split; [apply user_surveyed|].
    unfold surveyed, ensured, write. cbn [logged txn].
    destruct (txn d); cbn; rewrite <- app_assoc; reflexivity.
  - intros L.
    pose proof (selected_sorted mgr target (current_of d) W) as S.
    assert (Run : rollbackTo mgr target d =
                  rollback_each mgr (rev (selected mgr target (current_of d)))
                                (surveyed d)).
    { rewrite rollbackTo_run, (std_sort_descending _ S).
      replace (target >=? current_of d) with false
        by (symmetry; rewrite Z.geb_leb; apply Z.leb_gt; lia).
      reflexivity. }
    split; [apply StronglySorted_rev, S|].
    split; [intros v; rewrite <- in_rev; apply selected_spec|].
    split.
    + intros d' R. rewrite Run in R.
      destruct (rollback_each_confined mgr _ C _ _ R) as [_ [Hh [Hr _]]].
      rewrite rows_surveyed in Hr.
      split; [apply rollback_each_as_specified, R|]. split; assumption.
    + intros pre v post m d1 Sel A F Pre.
      destruct (rollback_each_confined mgr _ C _ _ Pre) as [_ [Hh [Hr _]]].
      rewrite rows_surveyed in Hr.
      split; [|split; assumption].
      rewrite Run, Sel, rollback_each_app. unfold bind at 1. rewrite Pre.
      cbn [rollback_each]. unfold bind at 1, rollback_one. rewrite A, F.
      reflexivity.
Qed.

End MiniSQLiteRuns.

(** * The schema validator *)

Section ValidatorFacts.
Import SchemaValidator OnCatalog.

(** ** Column requirements *)

Lemma entries_requireColumn (t c ty : string) (v : SchemaValidator.t) :
  entries t c (requireColumn t c ty v) = entries t c v ++ [mkColumn t c ty false].
Proof.
  unfold entries, requireColumn. cbn [columnRequirements_].
  rewrite filter_app. cbn [filter]. unfold same_column at 2.
  cbn [tableName columnName]. rewrite !String.eqb_refl. reflexivity.
Qed.

Lemma same_column_names (t c : string) (req : ColumnRequirement) :
  same_column t c req = true -> tableName req = t /\ columnName req = c.
Proof.
  unfold same_column. rewrite andb_true_iff, !String.eqb_eq. tauto.
Qed.

(** The first requirement for the pair gets the flag; without one, the
    loop finds nothing. *)
Lemma mark_not_null_entries (t c : string) (reqs : list ColumnRequirement) :
  match mark_not_null t c reqs with
  | Some reqs' =>
      exists e rest,
        filter (same_column t c) reqs = e :: rest /\
        filter (same_column t c) reqs' = mkColumn t c (expectedType e) true :: rest
  | None => filter (same_column t c) reqs = []
  end.
Proof.
  induction reqs as [|req reqs IH]; [reflexivity|].
  cbn [mark_not_null filter]. destruct (same_column t c req) eqn:E.
  - destruct (same_column_names t c req E) as [Et Ec].
    exists req, (filter (same_column t c) reqs). split; [reflexivity|].
    cbn [filter]. unfold same_column at 1. cbn [tableName columnName].
    rewrite Et, Ec, !String.eqb_refl. reflexivity.
  - destruct (mark_not_null t c reqs) as [reqs'|].
    + destruct IH as [e [rest [F F']]]. exists e, rest.
      cbn [filter]. rewrite E. auto.
    + exact IH.
Qed.

Lemma entries_requireNotNull (t c : string) (v : SchemaValidator.t) :
  entries t c (requireNotNull t c v) =
  match entries t c v with
  | [] => [mkColumn t c "" true]
  | e :: rest => mkColumn t c (expectedType e) true :: rest
  end.
Proof.
  unfold entries, requireNotNull.
  pose proof (mark_not_null_entries t c (columnRequirements_ v)) as S.
  destruct (mark_not_null t c (columnRequirements_ v)) as [reqs'|].
  - destruct S as [e [rest [F F']]]. cbn [columnRequirements_]. rewrite F, F'.
    reflexivity.
  - cbn [columnRequirements_]. rewrite filter_app, S. cbn [filter app].
    unfold same_column. cbn [tableName columnName]. rewrite !String.eqb_refl.
    reflexivity.
Qed.

(** The loop stops at the first requirement for the pair and flags that
    one, where it stands. *)
Lemma mark_not_null_first (t c : string) (pre post : list ColumnRequirement)
      (req : ColumnRequirement) :
  (forall r, In r pre -> same_column t c r = false) ->
  same_column t c req = true ->
  mark_not_null t c (pre ++ req :: post) =
    Some (pre ++ mkColumn t c (expectedType req) true :: post).
Proof.
  intros N Y. induction pre as [|r pre IH]; cbn [app mark_not_null].
  - rewrite Y. destruct (same_column_names t c req Y) as [-> ->]. reflexivity.
  - rewrite (N r (or_introl eq_refl)), IH; [reflexivity|].
    intros x Ix. apply N. right. exact Ix.
Qed.

Lemma mark_not_null_none (t c : string) (reqs : list ColumnRequirement) :
  filter (same_column t c) reqs = [] -> mark_not_null t c reqs = None.
Proof.
  intros E. pose proof (mark_not_null_entries t c reqs) as S.
  destruct (mark_not_null t c reqs) as [reqs'|]; [|reflexivity].
  destruct S as [e [rest [F _]]]. congruence.
Qed.

(** C7, as the code has it.  [requireNotNull] merges onto the first
    requirement the pair already has and never adds a second one;
    [requireColumn] always appends.  So requireColumn followed by
    requireNotNull leaves one entry with type and flag, and requireNotNull
    followed by requireColumn leaves two.  In general: of the entries a
    pair has, [requireNotNull] flags the first and keeps its type and the
    entries after it, or makes the one entry with the empty type when
    there is none; in the vector the flagged requirement stays where it
    stood and a new one goes to the end; [requireColumn] puts its entry
    after the entries the pair has. *)
Theorem requireNotNull_merges_requireColumn_appends
        (t c ty : string) (v : SchemaValidator.t) :
  entries t c v = [] ->
  entries t c (requireNotNull t c (requireColumn t c ty v)) = [mkColumn t c ty true] /\
  entries t c (requireColumn t c ty (requireNotNull t c v)) =
    [mkColumn t c "" true; mkColumn t c ty false] /\
  (forall w, length (entries t c (requireNotNull t c w)) =
             Nat.max 1 (length (entries t c w))) /\
  (forall w ty', length (entries t c (requireColumn t c ty' w)) =
                 S (length (entries t c w))) /\
  (forall w, entries t c (requireNotNull t c w) =
             match entries t c w with
             | [] => [mkColumn t c "" true]
             | e :: rest => mkColumn t c (expectedType e) true :: rest
             end) /\
  (forall w ty', entries t c (requireColumn t c ty' w) =
                 entries t c w ++ [mkColumn t c ty' false]) /\
  (forall w pre req post,
     columnRequirements_ w = pre ++ req :: post ->
     (forall r, In r pre -> same_column t c r = false) ->
     same_column t c req = true ->
     requireNotNull t c w =
       mk (tableRequirements_ w)
          (pre ++ mkColumn t c (expectedType req) true :: post)
          (indexRequirements_ w)) /\
  (forall w,
     entries t c w = [] ->
     requireNotNull t c w =
       mk (tableRequirements_ w)
          (columnRequirements_ w ++ [mkColumn t c "" true])
          (indexRequirements_ w)).
Proof.
  intros E. split; [|split; [|split; [|split; [|split; [|split; [|split]]]]]].
  - rewrite entries_requireNotNull, entries_requireColumn, E. reflexivity.
  - rewrite entries_requireColumn, entries_requireNotNull, E. reflexivity.
  - intros w. rewrite entries_requireNotNull.
    destruct (entries t c w); reflexivity.
  - intros w ty'. rewrite entries_requireColumn, length_app. cbn. lia.
  - intros w. apply entries_requireNotNull.
  - intros w ty'. apply entries_requireColumn.
  - intros w pre req post C N Y. unfold requireNotNull.
    rewrite C, (mark_not_null_first t c pre post req N Y). reflexivity.
  - intros w Ew. unfold requireNotNull.
    rewrite (mark_not_null_none t c _ Ew). reflexivity.
Qed.

(** ** Validation *)

Section WithCatalog.
Variable conn : Catalog.t.

Lemma check_tables_run (reqs : list TableRequirement) :
  (forall req, In req reqs -> exists b, Catalog.master_table conn (name req) = Ok b) ->
  forall acc,
  check_tables conn reqs acc = (Ok tt, acc ++ flat_map (table_errors conn) reqs).
Proof.
  induction reqs as [|req reqs IH]; intros A acc.
  - cbn. rewrite app_nil_r. reflexivity.
  - cbn [check_tables flat_map]. unfold bind, query, table_errors at 1.
    destruct (A req (or_introl eq_refl)) as [b ->].
    assert (A' : forall r, In r reqs ->
                 exists b, Catalog.master_table conn (name r) = Ok b)
      by (intros r Ir; apply A; right; exact Ir).
    destruct b; cbn [negb]; unfold ret, push_back; rewrite (IH A').
    + reflexivity.
    + rewrite <- app_assoc. reflexivity.
Qed.

Lemma check_indexes_run (reqs : list IndexRequirement) :
  (forall req, In req reqs ->
     exists b, Catalog.master_index conn (index_tableName req) (indexName req) = Ok b) ->
  forall acc,
  check_indexes conn reqs acc = (Ok tt, acc ++ flat_map (index_errors conn) reqs).
Proof.
  induction reqs as [|req reqs IH]; intros A acc.
  - cbn. rewrite app_nil_r. reflexivity.
  - cbn [check_indexes flat_map]. unfold bind, query, index_errors at 1.
    destruct (A req (or_introl eq_refl)) as [b ->].
    assert (A' : forall r, In r reqs ->
                 exists b, Catalog.master_index conn (index_tableName r) (indexName r) = Ok b)
      by (intros r Ir; apply A; right; exact Ir).
    destruct b; cbn [negb]; unfold ret, push_back; rewrite (IH A').
    + reflexivity.
    + rewrite <- app_assoc. reflexivity.
Qed.

(** The cursor loop stops at the first row with the column's name. *)
Lemma scan_columns_run (req : ColumnRequirement) (rows : list Catalog.ColumnInfo) :
  forall acc,
  scan_columns req rows None acc =
  match find (fun row => String.eqb (Catalog.name row) (columnName req)) rows with
  | Some row => (Ok true, acc ++ row_errors req row)
  | None => (Ok false, acc)
  end.
Proof.
  induction rows as [|row rows IH]; intros acc; [reflexivity|].
  cbn [scan_columns find].
  destruct (String.eqb (Catalog.name row) (columnName req)); [|apply IH].
  unfold bind, check_type, check_not_null, row_errors, type_mismatch, ret, push_back.
  destruct (negb (String.eqb (expectedType req) "")); cbn [andb].
  - destruct (negb (contains (upper (Catalog.type row)) (upper (expectedType req))));
      destruct (requireNotNull_ req); cbn [andb];
      try destruct (Catalog.notnull row =? 0);
      cbn [app]; rewrite <- ?app_assoc, ?app_nil_r; reflexivity.
  - destruct (requireNotNull_ req); cbn [andb];
      try destruct (Catalog.notnull row =? 0);
      cbn [app]; rewrite ?app_nil_r; reflexivity.
Qed.

Lemma check_columns_run (reqs : list ColumnRequirement) :
  (forall req, In req reqs ->
     exists rows, Catalog.table_info conn (tableName req) = Ok (rows, None)) ->
  forall acc,
  check_columns conn reqs acc = (Ok tt, acc ++ flat_map (column_errors conn) reqs).
Proof.
  induction reqs as [|req reqs IH]; intros A acc.
  - cbn. rewrite app_nil_r. reflexivity.
  - cbn [check_columns flat_map]. unfold bind at 1, query, column_errors at 1.
    destruct (A req (or_introl eq_refl)) as [rows ->].
    assert (A' : forall r, In r reqs ->
                 exists rows, Catalog.table_info conn (tableName r) = Ok (rows, None))
      by (intros r Ir; apply A; right; exact Ir).
    cbn [fst snd]. unfold bind at 1. rewrite scan_columns_run.
    destruct (find _ rows) as [row|]; unfold bind, ret, push_back; cbn [negb];
      rewrite (IH A'), <- app_assoc; reflexivity.
Qed.

Lemma validate_run (v : SchemaValidator.t) :
  answers conn v -> validate conn v = Ok (expected conn v).
Proof.
  intros [At [Ac Ai]]. unfold validate, bind.
  rewrite (check_tables_run _ At), (check_columns_run _ Ac), (check_indexes_run _ Ai).
  unfold expected. cbn [app]. rewrite app_assoc. reflexivity.
Qed.

Lemma expected_kinds (v : SchemaValidator.t) (e : ValidationError) :
  In e (expected conn v) -> In (type e) kinds.
Proof.
  unfold expected, kinds. rewrite !in_app_iff, !in_flat_map.
  intros [[req [_ I]]|[[req [_ I]]|[req [_ I]]]].
  - unfold table_errors in I.
    destruct (Catalog.master_table conn (name req)) as [[]|]; cbn in I; try tauto.
    destruct I as [<-|[]]. cbn. auto.
  - unfold column_errors in I.
    destruct (Catalog.table_info conn (tableName req)) as [[rows en]|]; [|destruct I].
    destruct (find _ rows) as [row|].
    + unfold row_errors in I. apply in_app_iff in I. destruct I as [I|I].
      * destruct (type_mismatch req row); [|destruct I].
        destruct I as [<-|[]]. cbn. auto.
      * destruct (requireNotNull_ req && (Catalog.notnull row =? 0)); [|destruct I].
        destruct I as [<-|[]]. cbn. auto.
    + destruct I as [<-|[]]. cbn. auto.
  - unfold index_errors in I.
    destruct (Catalog.master_index conn (index_tableName req) (indexName req))
      as [[]|]; cbn in I; try tauto.
    destruct I as [<-|[]]. cbn. auto 6.
Qed.

(** C8.  When the engine answers its queries, [validate] returns the
    errors of every requirement: those of the table requirements, then
    those of the column requirements, then those of the index
    requirements, each group in the order the requirements were added;
    every error has one of the five kinds; the schema passes exactly when
    the list is empty. *)
Theorem validate_reports_every_violation (v : SchemaValidator.t) :
  answers conn v ->
  validate conn v = Ok (expected conn v) /\
  (forall req, In req (tableRequirements_ v) ->
     incl (table_errors conn req) (expected conn v)) /\
  (forall req, In req (columnRequirements_ v) ->
     incl (column_errors conn req) (expected conn v)) /\
  (forall req, In req (indexRequirements_ v) ->
     incl (index_errors conn req) (expected conn v)) /\
  (forall e, In e (expected conn v) -> In (type e) kinds) /\
  (validateOrThrow conn v = Ok tt <-> expected conn v = []) /\
  (forall t, tableRequirements_ (requireTable t v) =
             tableRequirements_ v ++ [mkTable t]) /\
  (forall t c ty, columnRequirements_ (requireColumn t c ty v) =
                  columnRequirements_ v ++ [mkColumn t c ty false]) /\
  (forall t i, indexRequirements_ (requireIndex t i v) =
               indexRequirements_ v ++ [mkIndex t i]).
Proof.
  intros A. split; [apply validate_run, A|].
  split; [|split; [|split; [|split; [|split]]]].
  - intros req I e Ie. unfold expected. rewrite !in_app_iff, in_flat_map. eauto.
  - intros req I e Ie. unfold expected. rewrite !in_app_iff, !in_flat_map. eauto.
  - intros req I e Ie. unfold expected. rewrite !in_app_iff, !in_flat_map. eauto.
  - apply expected_kinds.
  - unfold validateOrThrow. rewrite (validate_run v A).
    destruct (expected conn v); split; congruence.
  - repeat split.
Qed.

End WithCatalog.
End ValidatorFacts.

(** * The theorems at work on concrete inputs *)

Section Instances.
Import MiniSQLite MigrationManager OnMiniSQLite Examples.

(** ** Guards *)

(** On a connection with no open transaction the engine refuses ROLLBACK
    and RELEASE; the destructors return all the same. *)
Lemma guard_destructors_swallow_witness :
  Transaction.dtor (active_guard, fresh) =
    (Ok tt, (active_guard, refused "ROLLBACK" no_rollback fresh)) /\
  Savepoint.dtor (active_savepoint, fresh) =
    (Ok tt, (active_savepoint,
             refused "RELEASE SAVEPOINT sp1" "no such savepoint: sp1" fresh)).
Proof.
  exact (guard_destructors_swallow active_guard active_savepoint fresh
           eq_refl eq_refl eq_refl eq_refl).
Defined.

(** COMMIT refused: the guard stays active and the exception carries the
    engine's code. *)
Lemma failed_end_keeps_transaction_active_witness :
  snd (Transaction.commit (active_guard, fresh)) =
    (active_guard, refused "COMMIT" no_commit fresh) /\
  (exists e, fst (Transaction.commit (active_guard, fresh)) = Throw e /\
             errorCode e = SQLITE_ERROR) /\
  Transaction.dtor (active_guard, refused "COMMIT" no_commit fresh) =
    (Ok tt, (active_guard,
             refused "ROLLBACK" no_rollback (refused "COMMIT" no_commit fresh))).
Proof.
  destruct (failed_end_keeps_transaction_active active_guard fresh eq_refl eq_refl)
    as [[S [_ F]] [_ Dt]].
  split; [exact S|]. split; [exact (F eq_refl)|]. apply Dt.
Defined.

(** A savepoint made directly on a connection with no open transaction:
    the constructor sends SAVEPOINT and succeeds.  So does
    [Transaction::savepoint] on a guard that is still active while the
    transaction was committed through the connection. *)
Lemma savepoint_without_transaction :
  txn fresh = None /\
  Savepoint.ctor "sp1" fresh =
    (Ok active_savepoint,
     with_txn (Some (mkTxn (committed fresh) [("sp1", committed fresh)] true))
              (logged "SAVEPOINT sp1" [] fresh)) /\
  txn committed_behind_guard = None /\
  fst (Transaction.savepoint "sp1" (active_guard, committed_behind_guard)) =
    Ok active_savepoint /\
  history (snd (snd (Transaction.savepoint "sp1" (active_guard, committed_behind_guard)))) =
    history committed_behind_guard ++ [("SAVEPOINT sp1", [])].
Proof. repeat split. Qed.

Lemma savepoint_needs_active_guard_witness :
  Transaction.savepoint "sp1" (ended_guard, fresh) =
    (Throw (TransactionException "Cannot create savepoint: transaction not active" 0),
     (ended_guard, fresh)) /\
  snd (Savepoint.ctor "sp1" fresh) = engine_next "SAVEPOINT sp1" fresh.
Proof.
  exact (savepoint_needs_active_guard ended_guard "sp1" fresh eq_refl).
Defined.

(** ** Result codes *)

(** C5.  With extended result codes on (the default of
    [ConnectionOptions]), inserting a version that is already recorded
    makes the step answer SQLITE_CONSTRAINT_PRIMARYKEY, whose base code is
    the constraint code; [Statement::execute] compares the whole code and
    throws QueryException, where [Connection::execute] masks it and throws
    ConstraintException for the same code. *)
Theorem statement_execute_misses_extended_constraint :
  step_code insert_one at_one = SQLITE_CONSTRAINT_PRIMARYKEY /\
  Z.land SQLITE_CONSTRAINT_PRIMARYKEY 255 = SQLITE_CONSTRAINT /\
  fst (Statement.execute (insert_one, at_one)) =
    Throw (QueryException unique_failed insert_sql SQLITE_CONSTRAINT_PRIMARYKEY) /\
  fst (recordMigration three 1 at_one) =
    Throw (QueryException unique_failed insert_sql SQLITE_CONSTRAINT_PRIMARYKEY) /\
  fst (Connection.execute "INSERT INTO __migrations (version, description) VALUES (1, 'v1')"
                          SQLITE_CONSTRAINT_PRIMARYKEY) =
    Throw (ConstraintException "Unknown error" SQLITE_CONSTRAINT_PRIMARYKEY).
Proof. repeat split. Qed.

(** A SELECT stepped by [Statement::execute]: the step answers "row", not
    "done", and [execute] returns normally. *)
Lemma statement_execute_accepts_row :
  step_code select_max at_one = SQLITE_ROW /\
  SQLITE_ROW <> SQLITE_DONE /\
  fst (Statement.execute (select_max, at_one)) = Ok tt.
Proof. repeat split. discriminate. Qed.

(** With extended result codes off the duplicate insertion answers the
    constraint code itself. *)
Lemma statement_execute_outcome_witness :
  step_code insert_one at_one_base = SQLITE_CONSTRAINT /\
  exists e,
    fst (Statement.execute (insert_one, at_one_base)) = Throw e /\
    errorCode e = SQLITE_CONSTRAINT /\
    is_ConstraintException e = true.
Proof.
  split; [reflexivity|].
  destruct (proj2 (proj2 (statement_execute_outcome insert_one at_one_base)))
    as [e [E [C [K _]]]]; [discriminate|discriminate|].
  exists e. split; [exact E|]. split; [exact C|]. apply K. reflexivity.
Defined.

(** ** The validator *)

(** requireNotNull before requireColumn: two entries for the pair, none
    with both the type and the flag. *)
Lemma requireColumn_after_requireNotNull_duplicates :
  OnCatalog.entries "users" "name"
    (SchemaValidator.requireColumn "users" "name" "TEXT"
       (SchemaValidator.requireNotNull "users" "name" SchemaValidator.empty)) =
  [SchemaValidator.mkColumn "users" "name" "" true;
   SchemaValidator.mkColumn "users" "name" "TEXT" false].
Proof. reflexivity. Qed.

(** requireColumn before requireNotNull: one entry with type and flag.
    With two entries for the pair, requireNotNull flags the first. *)
Lemma requireNotNull_merges_requireColumn_appends_witness :
  OnCatalog.entries "users" "name"
    (SchemaValidator.requireNotNull "users" "name"
       (SchemaValidator.requireColumn "users" "name" "TEXT" SchemaValidator.empty)) =
  [SchemaValidator.mkColumn "users" "name" "TEXT" true] /\
  OnCatalog.entries "users" "name"
    (SchemaValidator.requireNotNull "users" "name"
       (SchemaValidator.requireColumn "users" "name" "VARCHAR"
          (SchemaValidator.requireColumn "users" "name" "TEXT" SchemaValidator.empty))) =
  [SchemaValidator.mkColumn "users" "name" "TEXT" true;
   SchemaValidator.mkColumn "users" "name" "VARCHAR" false].
Proof.
  split.
  - exact (proj1 (requireNotNull_merges_requireColumn_appends
                    "users" "name" "TEXT" SchemaValidator.empty eq_refl)).
  - exact (proj1 (proj2 (proj2 (proj2 (proj2
             (requireNotNull_merges_requireColumn_appends
                "users" "name" "TEXT" SchemaValidator.empty eq_refl)))))
             (SchemaValidator.requireColumn "users" "name" "VARCHAR"
                (SchemaValidator.requireColumn "users" "name" "TEXT"
                   SchemaValidator.empty))).
Defined.

Lemma users_only_answers : OnCatalog.answers users_only wants_posts_and_name.
Proof.
  repeat split; intros req I; eexists; reflexivity.
Qed.

(** The scenario of the specification: table "posts" and column
    "users.name" are missing; two errors, in requirement order. *)
Lemma validate_reports_every_violation_witness :
  SchemaValidator.validate users_only wants_posts_and_name =
  Ok [SchemaValidator.mkError "missing_table" "Required table 'posts' does not exist";
      SchemaValidator.mkError "missing_column"
        "Required column 'users.name' does not exist"].
Proof.
  exact (proj1 (validate_reports_every_violation users_only wants_posts_and_name
                  users_only_answers)).
Defined.

(** ** Migrations *)

Lemma write_confined (f : Store (list string) -> Store (list string)) :
  (forall s, migrations_table (f s) = migrations_table s) ->
  confined (fun d => (Ok tt, write f d)).
Proof.
  intros K d t T. cbn [snd]. unfold write. rewrite T. cbn.
  repeat split. exists (f (work t)). split; [reflexivity|apply K].
Qed.

Lemma create_table_confined (name : string) : confined (create_table name).
Proof. apply write_confined. reflexivity. Qed.

Lemma drop_table_confined (name : string) : confined (drop_table name).
Proof. apply write_confined. reflexivity. Qed.


Lemma three_well_formed : well_formed three.
Proof.
  split.
  - repeat constructor.
  - repeat constructor; cbn; lia.
Qed.


Lemma at_registered (mgr : MigrationManager.t D) (v : Z) (m : Migration D) :
  at_ v mgr = Some m -> In m (map snd mgr).
Proof.
  unfold at_. destruct (find (fun e => fst e =? v) mgr) as [e|] eqn:F; [|discriminate].
  intros [= <-]. apply find_some in F. apply in_map, F.
Qed.

Lemma three_ups_confined (v : Z) (m : Migration D) :
  at_ v three = Some m -> confined (up m).
Proof.
  intros A. apply at_registered in A. cbn in A.
  destruct A as [<-|[<-|[<-|[]]]]; apply create_table_confined.
Qed.

Lemma three_downs_confined (v : Z) (m : Migration D) (f : M D unit) :
  at_ v three = Some m -> down m = Some f -> confined f.
Proof.
  intros A. apply at_registered in A. cbn in A.
  destruct A as [<-|[<-|[<-|[]]]]; cbn; intros [= <-].
  apply drop_table_confined.
Qed.

Lemma three_applied : applyTo three 3 fresh = (Ok tt, snd (apply three fresh)).
Proof. by_running. Qed.

(** [apply] on a new database with units 1, 2 and 3. *)
Lemma applyTo_applies_selected_units_witness :
  selected three (current_of fresh) 3 = [1; 2; 3] /\
  rows (snd (apply three fresh)) = [(1, "v1"); (2, "v2"); (3, "v3")] /\
  user (visible (snd (apply three fresh))) = ["v3"; "v2"; "v1"] /\
  history (snd (apply three fresh)) =
    history (entered fresh) ++ flat_map (apply_statements three) [1; 2; 3] /\
  currentVersion (snd (apply three fresh)) =
    (Ok 3, surveyed (snd (apply three fresh))).
Proof.
  destruct (applyTo_applies_selected_units three 3 fresh (snd (apply three fresh))
              three_well_formed three_ups_confined three_applied)
    as [_ [_ [_ [H [R [_ L]]]]]].
  split; [by_running|]. split; [by_running|]. split; [by_running|].
  split; [by_running|].
  apply L; [by_running|]. intros v [].
Defined.







(** The insertion of the record fails (unit 2 wrote the row itself): the
    same outcome, with the engine's error as the cause. *)
Example insert_failure_rolls_back :
  fst (applyTo meddling 2 fresh) =
    Throw (MigrationException
             ("Migration failed: " +++
              what (QueryException unique_failed insert_sql SQLITE_CONSTRAINT_PRIMARYKEY))
             2) /\
  rows (snd (applyTo meddling 2 fresh)) = [(1, "v1")] /\
  txn (snd (applyTo meddling 2 fresh)) = None.
Proof. repeat split; by_running. Qed.

Lemma three_current : 0 < current_of (snd (apply three fresh)).
Proof. by_running. Qed.

Lemma three_descending :
  rev (selected three 0 (current_of (snd (apply three fresh)))) = [3] ++ 2 :: [1].
Proof. by_running. Qed.

Lemma three_at_2 : at_ 2 three = Some (mkMigration 2 "v2" (create_table "v2") None).
Proof. by_running. Qed.

Lemma three_rolled_3 :
  rollback_each three [3] (surveyed (snd (apply three fresh))) =
    (Ok tt, snd (rollback_each three [3] (surveyed (snd (apply three fresh))))).
Proof. by_running. Qed.

(** Rolling back to 0 from version 3: unit 3 is rolled back, unit 2 has no
    down procedure, the records of 1 and 2 stay. *)
Lemma rollbackTo_steps_down_witness :
  rollbackTo three 0 (snd (apply three fresh)) =
    (Throw (MigrationException "Migration has no rollback function" 2),
     snd (rollback_each three [3] (surveyed (snd (apply three fresh))))) /\
  rows (snd (rollback_each three [3] (surveyed (snd (apply three fresh))))) =
    [(1, "v1"); (2, "v2")] /\
  user (visible (snd (rollback_each three [3] (surveyed (snd (apply three fresh)))))) =
    ["v2"; "v1"].
Proof.
  destruct (proj2 (rollbackTo_steps_down three 0 (snd (apply three fresh))
                     three_well_formed three_downs_confined) three_current)
    as [_ [_ [_ K]]].
  destruct (K [3] 2 [1] (mkMigration 2 "v2" (create_table "v2") None)
              (snd (rollback_each three [3] (surveyed (snd (apply three fresh)))))
              three_descending three_at_2 eq_refl three_rolled_3) as [R _].
  split; [exact R|]. split; by_running.
Defined.

(** Rolling back to the current version or above changes no record. *)
Example rollbackTo_current_is_idle :
  rollbackTo three 3 (snd (apply three fresh)) =
    (Ok tt, surveyed (snd (apply three fresh))) /\
  rows (surveyed (snd (apply three fresh))) = [(1, "v1"); (2, "v2"); (3, "v3")].
Proof. split; by_running. Qed.

End Instances.

(** * Guards, statements and result codes: further properties *)

Section MoreGuardFacts.
Context {db : Type} `{Sqlite3 db}.

(** The low byte of an extended result code is its base code. *)
Lemma low_byte_of_extended (base N : Z) :
  0 <= base < 256 -> 0 <= N -> Z.land (Z.lor base (Z.shiftl N 8)) 255 = base.
Proof.
  intros B P.
  change 255 with (Z.ones 8).
  rewrite Z.land_lor_distr_l, !Z.land_ones by lia.
  rewrite Z.shiftl_mul_pow2 by lia.
  rewrite Z.mod_mul by lia.
  rewrite Z.lor_0_r. apply Z.mod_small. exact B.
Qed.

(** X1.  [Connection::execute] classifies a failure by the base code of
    the result: for a code [base | (N << 8)] other than SQLITE_OK it throws
    ConstraintException when [base] is SQLITE_CONSTRAINT, whatever the
    extension [N], and QueryException (which keeps the SQL text) for every
    other base; the exception carries the whole code and the engine's
    message, or "Unknown error" when the engine gave none. *)
Theorem execute_classifies_by_base_code (sql : string) (d : db) (base N : Z) :
  0 <= base < 256 -> 0 <= N ->
  engine_code sql d = Z.lor base (Z.shiftl N 8) ->
  engine_code sql d <> SQLITE_OK ->
  Connection.execute sql d =
    (Throw (if base =? SQLITE_CONSTRAINT
            then ConstraintException (engine_error sql d) (engine_code sql d)
            else QueryException (engine_error sql d) sql (engine_code sql d)),
     engine_next sql d).
Proof.
  intros B P E NZ.
  pose proof (low_byte_of_extended base N B P) as L. rewrite <- E in L.
  revert L NZ. clear E.
  unfold Connection.execute, engine_error, engine_code, engine_next.
  destruct (sqlite3_exec sql d) as [[rc msg] d']. cbn [fst snd].
  intros L NZ. rewrite L.
  destruct (rc =? SQLITE_OK) eqn:Z0; [apply Z.eqb_eq in Z0; contradiction|].
  cbn [negb]. destruct (base =? SQLITE_CONSTRAINT); reflexivity.
Qed.

(** [Connection::execute] in one equation. *)
Lemma execute_run (sql : string) (d : db) :
  Connection.execute sql d =
    (if accepted sql d then Ok tt
     else Throw (if Z.land (engine_code sql d) 255 =? SQLITE_CONSTRAINT
                 then ConstraintException (engine_error sql d) (engine_code sql d)
                 else QueryException (engine_error sql d) sql (engine_code sql d)),
     engine_next sql d).
Proof.
  unfold Connection.execute, accepted, engine_error, engine_code, engine_next.
  destruct (sqlite3_exec sql d) as [[rc msg] d']. cbn [fst snd].
  destruct (rc =? SQLITE_OK); cbn [negb]; [reflexivity|].
  destruct (Z.land rc 255 =? SQLITE_CONSTRAINT); reflexivity.
Qed.

(** X2.  What the operations of a transaction guard throw when the engine
    refuses their statement.  The handlers catch QueryException only, so a
    refusal whose base code is SQLITE_CONSTRAINT (a COMMIT that trips a
    deferred foreign key, say) leaves as the ConstraintException of
    [Connection::execute]; any other refusal leaves as a
    TransactionException with the same code whose message is the handler's
    prefix followed by the QueryException's [what()]. *)
Theorem transaction_failures_by_class
        (type : Transaction.TransactionType) (g : Transaction.t) (d : db) :
  Transaction.active_ g = true ->
  (accepted (Transaction.begin_sql type) d = false ->
   fst (Transaction.ctor type d) =
     Throw (guard_failure "Failed to begin transaction: " (Transaction.begin_sql type) d)) /\
  (accepted "COMMIT" d = false ->
   fst (Transaction.commit (g, d)) =
     Throw (guard_failure "Failed to commit: " "COMMIT" d)) /\
  (accepted "ROLLBACK" d = false ->
   fst (Transaction.rollback (g, d)) =
     Throw (guard_failure "Failed to rollback: " "ROLLBACK" d)).
Proof.
  intros Act. repeat split; intros A.
  - run_refused execute_run A.
  - run_guard. rewrite Act. cbn [negb]. run_refused execute_run A.
  - run_guard. rewrite Act. cbn [negb]. run_refused execute_run A.
Qed.

(** X3.  The same for a savepoint guard, whose [rollback] sends two
    statements: when ROLLBACK TO is accepted and the RELEASE that follows
    is refused, the exception is that of the RELEASE under the prefix of
    [rollback], the guard stays active, and the engine has run both
    statements. *)
Theorem savepoint_failures_by_class (name : string) (sp : Savepoint.t) (d : db) :
  Savepoint.active_ sp = true ->
  let to := "ROLLBACK TO SAVEPOINT " +++ Savepoint.name_ sp in
  let rel := "RELEASE SAVEPOINT " +++ Savepoint.name_ sp in
  (accepted ("SAVEPOINT " +++ name) d = false ->
   fst (Savepoint.ctor name d) =
     Throw (guard_failure "Failed to create savepoint: " ("SAVEPOINT " +++ name) d)) /\
  (accepted rel d = false ->
   Savepoint.release (sp, d) =
     (Throw (guard_failure "Failed to release savepoint: " rel d),
      (sp, engine_next rel d))) /\
  (accepted to d = false ->
   Savepoint.rollback (sp, d) =
     (Throw (guard_failure "Failed to rollback to savepoint: " to d),
      (sp, engine_next to d))) /\
  (accepted to d = true -> accepted rel (engine_next to d) = false ->
   Savepoint.rollback (sp, d) =
     (Throw (guard_failure "Failed to rollback to savepoint: " rel (engine_next to d)),
      (sp, engine_next rel (engine_next to d)))).
Proof.
  intros Act. cbv zeta. repeat split.
  - intros A. run_refused execute_run A.
  - intros A. run_guard. rewrite Act. cbn [negb]. run_refused execute_run A.
  - intros A. unfold Savepoint.rollback. run_guard. rewrite Act. cbn [negb]. run_refused execute_run A.
  - intros A B. unfold Savepoint.rollback. run_guard. rewrite Act. cbn [negb].
    rewrite execute_run. cbn [fst snd]. rewrite A. cbn [fst snd].
    rewrite execute_run. cbn [fst snd]. rewrite B. unfold guard_failure.
    destruct (Z.land _ 255 =? SQLITE_CONSTRAINT); reflexivity.
Qed.

(** X4.  A guard that has committed or rolled back is inert: from then on
    its destructor makes no call to the engine, a further [commit] or
    [rollback] throws TransactionException "Transaction already ended"
    with code 0, and [savepoint] throws "Cannot create savepoint:
    transaction not active", each leaving the connection as it found it. *)
Theorem ended_guard_is_inert (g g' : Transaction.t) (d d' : db) (name : string) :
  Transaction.commit (g, d) = (Ok tt, (g', d')) \/
  Transaction.rollback (g, d) = (Ok tt, (g', d')) ->
  forall x : db,
    Transaction.dtor (g', x) = (Ok tt, (g', x)) /\
    Transaction.commit (g', x) =
      (Throw (TransactionException "Transaction already ended" 0), (g', x)) /\
    Transaction.rollback (g', x) =
      (Throw (TransactionException "Transaction already ended" 0), (g', x)) /\
    Transaction.savepoint name (g', x) =
      (Throw (TransactionException "Cannot create savepoint: transaction not active" 0),
       (g', x)).
Proof.
  intros E.
  assert (Off : Transaction.active_ g' = false).
  { destruct E as [E|E]; revert E; run_guard;
      (destruct (Transaction.active_ g); cbn [negb]; [|discriminate]);
      rewrite execute_run; cbn [fst snd];
      (destruct (accepted _ d); cbn [fst snd];
       [intros E; injection E as <- _; reflexivity|]);
      destruct (Z.land _ 255 =? SQLITE_CONSTRAINT); cbn; discriminate. }
  intros x. repeat split; run_inert.
Qed.

(** X5.  Moving a guard hands over what it holds.  Move construction makes
    no call to the engine, gives the new guard what the old one held and
    leaves the moved-from guard inert: its destructor does nothing and its
    [commit] (for a savepoint, its [release]) throws.  Move assignment to
    another object first ends what the overwritten guard held exactly as
    its destructor would (one ROLLBACK for an active transaction guard,
    one RELEASE SAVEPOINT for an active savepoint guard, no call for an
    ended one, the engine's answer ignored), never throws, and leaves the
    target holding the source's state and the source inactive. *)
Theorem guard_moves_hand_over
        (g other : Transaction.t) (sp sp_other : Savepoint.t) (d : db) :
  (exists old,
     Transaction.move_ctor (g, d) = (Ok g, (old, d)) /\
     forall x : db,
       Transaction.dtor (old, x) = (Ok tt, (old, x)) /\
       Transaction.commit (old, x) =
         (Throw (TransactionException "Transaction already ended" 0), (old, x))) /\
  (exists old,
     Savepoint.move_ctor (sp, d) = (Ok sp, (old, d)) /\
     forall x : db,
       Savepoint.dtor (old, x) = (Ok tt, (old, x)) /\
       Savepoint.release (old, x) =
         (Throw (TransactionException "Savepoint already ended" 0), (old, x))) /\
  (exists old,
     Transaction.move_assign ((g, other), d) =
       (Ok tt, ((other, old), snd (snd (Transaction.dtor (g, d))))) /\
     Transaction.active_ old = false /\
     snd (snd (Transaction.dtor (g, d))) =
       (if Transaction.active_ g && Transaction.conn_ g
        then engine_next "ROLLBACK" d else d)) /\
  (exists old,
     Savepoint.move_assign ((sp, sp_other), d) =
       (Ok tt, ((sp_other, old), snd (snd (Savepoint.dtor (sp, d))))) /\
     Savepoint.active_ old = false /\
     snd (snd (Savepoint.dtor (sp, d))) =
       (if Savepoint.active_ sp && Savepoint.conn_ sp
        then engine_next ("RELEASE SAVEPOINT " +++ Savepoint.name_ sp) d else d)).
Proof.
  split; [|split; [|split]].
  - exists (Transaction.mk false false). split; [destruct g; reflexivity|].
    intros x. split; reflexivity.
  - exists (Savepoint.mk false "" false). split; [destruct sp; reflexivity|].
    intros x. split; reflexivity.
  - exists (Transaction.mk false false).
    unfold Transaction.move_assign. run_guard.
    destruct other as [oc oa]. cbn [Transaction.conn_ Transaction.active_].
    destruct (Transaction.active_ g && Transaction.conn_ g); cbn [fst snd];
      [|repeat split].
    rewrite execute_run. cbn [fst snd].
    destruct (accepted "ROLLBACK" d); cbn [fst snd any_exception]; repeat split.
  - exists (Savepoint.mk false "" false).
    unfold Savepoint.move_assign. run_guard.
    destruct sp_other as [oc on oa].
    cbn [Savepoint.conn_ Savepoint.active_ Savepoint.name_].
    destruct (Savepoint.active_ sp && Savepoint.conn_ sp); cbn [fst snd];
      [|repeat split].
    rewrite execute_run. cbn [fst snd].
    destruct (accepted _ d); cbn [fst snd any_exception]; repeat split.
Qed.

(** For a function without result the two helpers are one. *)
Lemma withTransactionVoid_run (func : M (Transaction.t * db) unit) (d : db) :
  withTransactionVoid func d = withTransaction func d.
Proof.
  unfold withTransactionVoid, withTransaction, bind, scoped, ret.
  destruct (Transaction.ctor Transaction.Deferred d) as [[g|e] d1]; [|reflexivity].
  destruct (func (g, d1)) as [[[]|e] s]; [|reflexivity].
  destruct (Transaction.commit s) as [[[]|e] s']; reflexivity.
Qed.

(** X7.  [Statement::step] returns true exactly when the engine answers
    SQLITE_ROW and false exactly when it answers SQLITE_DONE; any other
    code, the constraint code included, is thrown as a QueryException
    with the engine's message, the SQL text and the code.  In every case
    the statement has advanced by one step and is not reset. *)
Theorem statement_step_outcome (st : Statement.t) (d : db) :
  let after := snd (sqlite3_step (Statement.sql_ st) (Statement.bound st)
                                 (Statement.stepped st) d) in
  (fst (Statement.step (st, d)) = Ok true <-> step_code st d = SQLITE_ROW) /\
  (fst (Statement.step (st, d)) = Ok false <-> step_code st d = SQLITE_DONE) /\
  (step_code st d <> SQLITE_ROW -> step_code st d <> SQLITE_DONE ->
   fst (Statement.step (st, d)) =
     Throw (QueryException (sqlite3_errmsg after) (Statement.sql_ st) (step_code st d))) /\
  Statement.stepped (fst (snd (Statement.step (st, d)))) = S (Statement.stepped st) /\
  snd (snd (Statement.step (st, d))) = after.
Proof.
  cbv zeta. unfold Statement.step, Statement.do_step, step_code, bind, ret, throw, get.
  cbn [fst snd].
  destruct (sqlite3_step _ _ _ d) as [[rc r] d']. cbn [fst snd].
  destruct (rc =? SQLITE_ROW) eqn:R; [apply Z.eqb_eq in R|apply Z.eqb_neq in R].
  { subst rc. cbn. repeat split; auto; try discriminate; try contradiction. }
  destruct (rc =? SQLITE_DONE) eqn:Dn; [apply Z.eqb_eq in Dn|apply Z.eqb_neq in Dn].
  { subst rc. cbn. repeat split; auto; try discriminate; try contradiction. }
  cbn. repeat split; auto; try discriminate; try contradiction.
Qed.

End MoreGuardFacts.

(** * Guards on MiniSQLite *)

Section MoreMiniSQLiteFacts.
Import MiniSQLite MigrationManager OnMiniSQLite.
Context {U : Type}.
Local Abbreviation D := (DB U).

(** X8.  [withTransaction] is all or nothing.  Called on a connection with
    no open transaction, with a function that leaves the guard active and
    the transaction open: when the function returns, its result is
    returned and what it wrote is committed; when it throws, the exception
    leaves unchanged and what it wrote is discarded by the ROLLBACK of the
    guard's destructor.  Either way no transaction stays open.
    [withTransactionVoid] is the same helper for a function without
    result. *)
Theorem withTransaction_all_or_nothing
        {A : Type} (func : M (Transaction.t * D) A) (d : D)
        (r : outcome A) (g : Transaction.t) (d2 : D) (t : Txn U) :
  txn d = None ->
  func (Transaction.mk true true, begun d) = (r, (g, d2)) ->
  Transaction.active_ g = true -> Transaction.conn_ g = true ->
  txn d2 = Some t ->
  withTransaction func d =
    match r with
    | Ok a => (Ok a, finished t d2)
    | Throw e => (Throw e, rolled_back d2)
    end /\
  committed (finished t d2) = work t /\ txn (finished t d2) = None /\
  committed (rolled_back d2) = committed d2 /\ txn (rolled_back d2) = None /\
  (forall (f : M (Transaction.t * D) unit) (x : D),
     withTransactionVoid f x = withTransaction f x).
Proof.
  intros T F Act Cn T2. split; [|repeat split; apply withTransactionVoid_run].
  unfold withTransaction, Transaction.ctor, Transaction.begin_sql.
  unfold bind at 1. unfold try_catch at 1. unfold bind at 1.
  rewrite execute_begin, T.
  unfold ret at 1. unfold scoped. unfold bind at 1. rewrite F.
  destruct r as [a|e].
  - unfold bind at 1.
    unfold Transaction.commit, bind, this, try_catch, on_conn, assign, throw, ret.
    cbn [fst snd]. rewrite Act. cbn [negb].
    rewrite execute_commit. cbn [fst snd]. rewrite T2. cbn [fst snd].
    unfold Transaction.dtor, bind, this, ret. cbn [fst snd Transaction.set_active
      Transaction.active_ andb]. reflexivity.
  - unfold Transaction.dtor, bind, this, try_catch, on_conn.
    cbn [fst snd]. rewrite Act, Cn. cbn [andb].
    rewrite execute_rollback. cbn [fst snd]. rewrite T2. reflexivity.
Qed.

(** X9.  The function given to [withTransaction] must not end the
    transaction through the guard it receives: if it returns with the
    guard ended (it called [commit] or [rollback] on it), the [commit] of
    [withTransaction] throws TransactionException "Transaction already
    ended", the function's result is lost, and the connection stays as the
    function left it. *)
Theorem withTransaction_after_func_ended
        {A : Type} (func : M (Transaction.t * D) A) (d : D)
        (a : A) (g : Transaction.t) (d2 : D) :
  txn d = None ->
  func (Transaction.mk true true, begun d) = (Ok a, (g, d2)) ->
  Transaction.active_ g = false ->
  withTransaction func d =
    (Throw (TransactionException "Transaction already ended" 0), d2).
Proof.
  intros T F Off.
  unfold withTransaction, Transaction.ctor, Transaction.begin_sql.
  unfold bind at 1. unfold try_catch at 1. unfold bind at 1.
  rewrite execute_begin, T.
  unfold ret at 1. unfold scoped. unfold bind at 1. rewrite F.
  unfold bind at 1.
  unfold Transaction.commit, bind, this, throw. cbn [fst snd]. rewrite Off.
  cbn [negb].
  unfold Transaction.dtor, bind, this, ret. cbn [fst snd]. rewrite Off. reflexivity.
Qed.

(** X10.  [withTransaction] does not nest: on a connection whose
    transaction is already open the engine refuses BEGIN, the constructor
    of the guard throws TransactionException with the engine's code, the
    function is not run, and the open transaction is left as it was. *)
Theorem withTransaction_does_not_nest
        {A : Type} (func : M (Transaction.t * D) A) (d : D) (t : Txn U) :
  txn d = Some t ->
  withTransaction func d =
    (Throw (TransactionException
              ("Failed to begin transaction: " +++
               what (QueryException no_nested_begin "BEGIN DEFERRED TRANSACTION"
                                    SQLITE_ERROR))
              SQLITE_ERROR),
     refused "BEGIN DEFERRED TRANSACTION" no_nested_begin d) /\
  txn (refused "BEGIN DEFERRED TRANSACTION" no_nested_begin d) = Some t /\
  committed (refused "BEGIN DEFERRED TRANSACTION" no_nested_begin d) = committed d.
Proof.
  intros T. split; [|split; [exact T|reflexivity]].
  unfold withTransaction, Transaction.ctor, Transaction.begin_sql.
  unfold bind at 1. unfold try_catch at 1. unfold bind at 1.
  rewrite execute_begin, T. reflexivity.
Qed.

Lemma same_ignoring_case_refl (a : string) : same_ignoring_case a a = true.
Proof.
  induction a as [|x a IH]; [reflexivity|]. cbn [same_ignoring_case].
  unfold same_letter. rewrite Ascii.eqb_refl, IH. reflexivity.
Qed.

Lemma execute_savepoint (name : string) (d : D) :
  plain_name name = true ->
  Connection.execute ("SAVEPOINT " +++ name) d =
    (Ok tt, match txn d with
            | Some t => marked name t d
            | None => marked_outside name d
            end).
Proof.
  intros P.
  unfold Connection.execute. cbn [sqlite3_exec engine]. unfold exec.
  cbn [is_begin String.eqb String.append Ascii.eqb Bool.eqb orb strip_prefix
       create_migrations_sql].
  rewrite P. unfold exec_savepoint. cbn [txn logged].
  destruct (txn d); reflexivity.
Qed.

Lemma execute_rollback_to (name : string) (d : D) (w s : Store U)
      (rest : list (string * Store U)) (i : bool) :
  plain_name name = true ->
  txn d = Some (mkTxn w ((name, s) :: rest) i) ->
  Connection.execute ("ROLLBACK TO SAVEPOINT " +++ name) d =
    (Ok tt, with_txn (Some (mkTxn s ((name, s) :: rest) i))
                     (logged ("ROLLBACK TO SAVEPOINT " +++ name) [] d)).
Proof.
  intros P T.
  unfold Connection.execute. cbn [sqlite3_exec engine]. unfold exec.
  cbn [is_begin String.eqb String.append Ascii.eqb Bool.eqb orb strip_prefix
       create_migrations_sql].
  rewrite P.
  unfold exec_rollback_to. cbn [txn logged]. rewrite T.
  cbn [saves find_save implicit]. rewrite same_ignoring_case_refl. reflexivity.
Qed.

Lemma execute_release (name : string) (d : D) (w s : Store U)
      (rest : list (string * Store U)) :
  plain_name name = true ->
  txn d = Some (mkTxn w ((name, s) :: rest) false) ->
  Connection.execute ("RELEASE SAVEPOINT " +++ name) d =
    (Ok tt, with_txn (Some (mkTxn w rest false))
                     (logged ("RELEASE SAVEPOINT " +++ name) [] d)).
Proof.
  intros P T.
  unfold Connection.execute. cbn [sqlite3_exec engine]. unfold exec.
  cbn [is_begin String.eqb String.append Ascii.eqb Bool.eqb orb strip_prefix
       create_migrations_sql].
  rewrite P.
  unfold exec_release. cbn [txn logged]. rewrite T.
  cbn [saves find_save implicit work]. rewrite same_ignoring_case_refl.
  destruct rest; reflexivity.
Qed.

(** What a confined body leaves of a transaction whose innermost savepoint
    was just made. *)
Lemma confined_after_mark (body : M D unit) (name : string) (d : D) (t : Txn U) :
  confined body -> txn d = Some t ->
  committed (snd (body (marked name t d))) = committed d /\
  extended (snd (body (marked name t d))) = extended d /\
  history (snd (body (marked name t d))) = history d ++ [("SAVEPOINT " +++ name, [])] /\
  txn (snd (body (marked name t d))) =
    Some (mkTxn (visible (snd (body (marked name t d))))
                ((name, work t) :: saves t) (implicit t)).
Proof.
  intros C T.
  destruct (C (marked name t d) _ eq_refl) as [Cm [Ex [Hi [w [Tx _]]]]].
  repeat split; try assumption.
  unfold visible. rewrite Tx. reflexivity.
Qed.

(** X11.  Rolling back to a savepoint undoes what was written since it was
    made.  For a savepoint name that is a plain identifier ([plain_name]:
    letters, digits and underscores, no leading digit, at least one
    digit), inside a transaction opened by BEGIN, the block
    [{ Savepoint sp = txn.savepoint(name); body; sp.rollback(); }] with a
    body that returns leaves the transaction exactly as it was before the
    block (its working state, its outer savepoints), and the committed
    state untouched; the engine has seen SAVEPOINT, ROLLBACK TO SAVEPOINT
    and RELEASE SAVEPOINT. *)
Theorem savepoint_rollback_restores
        (name : string) (body : M D unit) (g : Transaction.t) (d : D) (t : Txn U) :
  plain_name name = true ->
  Transaction.active_ g = true ->
  txn d = Some t -> implicit t = false ->
  confined body -> (forall x, fst (body x) = Ok tt) ->
  exists d',
    savepoint_block name body Savepoint.rollback (g, d) = (Ok tt, (g, d')) /\
    txn d' = Some t /\
    committed d' = committed d /\
    visible d' = visible d /\
    history d' =
      history d ++ [("SAVEPOINT " +++ name, []);
                    ("ROLLBACK TO SAVEPOINT " +++ name, []);
                    ("RELEASE SAVEPOINT " +++ name, [])].
Proof.
  intros Pn Act T Im C R.
  destruct (confined_after_mark body name d t C T) as [Cm [_ [Hi Tx]]].
  specialize (R (marked name t d)).
  unfold savepoint_block, Transaction.savepoint, Savepoint.ctor.
  unfold bind at 1. unfold bind at 1. unfold this at 1. cbn [fst snd].
  rewrite Act. cbn [negb].
  unfold on_conn at 1. cbn [fst snd].
  unfold try_catch at 1. unfold bind at 1.
  rewrite (execute_savepoint name _ Pn), T. unfold ret at 1.
  unfold on_conn at 1. cbn [fst snd].
  unfold scoped. unfold bind at 1. unfold on_conn at 1. cbn [fst snd].
  destruct (body (marked name t d)) as [r d2] eqn:B. cbn [fst snd] in *.
  subst r.
  unfold Savepoint.rollback, bind, this, try_catch, on_conn, assign, throw.
  cbn [fst snd Savepoint.active_ Savepoint.name_ negb].
  rewrite Im in Tx.
  rewrite (execute_rollback_to name d2 _ _ _ _ Pn Tx). cbn [fst snd].
  erewrite execute_release by (exact Pn || reflexivity). cbn [fst snd].
  unfold Savepoint.dtor, bind, this, ret.
  cbn [fst snd Savepoint.set_active Savepoint.active_ andb].
  eexists. split; [reflexivity|].
  cbn [txn committed history with_txn logged].
  assert (Tt : mkTxn (work t) (saves t) false = t).
  { destruct t. cbn in *. subst. reflexivity. }
  rewrite Tt. repeat split.
  - exact Cm.
  - unfold visible. cbn [txn]. rewrite T. reflexivity.
  - rewrite Hi, <- !app_assoc. reflexivity.
Qed.

(** X12.  A savepoint guard keeps the work by default.  For a savepoint
    name that is a plain identifier ([plain_name]), inside a
    transaction opened by BEGIN, releasing the savepoint and simply
    leaving its scope have the same effect, and so has leaving the scope
    by an exception of the body: RELEASE SAVEPOINT is sent, what the body
    wrote stays in the transaction, the savepoint is gone, and the block's
    outcome is the body's. *)
Theorem savepoint_scope_keeps_work
        (name : string) (body : M D unit) (g : Transaction.t) (d : D) (t : Txn U) :
  plain_name name = true ->
  Transaction.active_ g = true ->
  txn d = Some t -> implicit t = false ->
  confined body ->
  exists d',
    savepoint_block name body Savepoint.release (g, d) =
      (fst (body (marked name t d)), (g, d')) /\
    savepoint_block name body (ret tt) (g, d) =
      (fst (body (marked name t d)), (g, d')) /\
    txn d' = Some (mkTxn (visible (snd (body (marked name t d)))) (saves t) false) /\
    committed d' = committed d /\
    history d' =
      history d ++ [("SAVEPOINT " +++ name, []); ("RELEASE SAVEPOINT " +++ name, [])].
Proof.
  intros Pn Act T Im C.
  destruct (confined_after_mark body name d t C T) as [Cm [_ [Hi Tx]]].
  rewrite Im in Tx.
  exists (with_txn (Some (mkTxn (visible (snd (body (marked name t d)))) (saves t) false))
                   (logged ("RELEASE SAVEPOINT " +++ name) []
                           (snd (body (marked name t d))))).
  assert (Run : forall finish,
             finish = Savepoint.release \/ finish = ret tt ->
             savepoint_block name body finish (g, d) =
               (fst (body (marked name t d)),
                (g, with_txn (Some (mkTxn (visible (snd (body (marked name t d))))
                                          (saves t) false))
                             (logged ("RELEASE SAVEPOINT " +++ name) []
                                     (snd (body (marked name t d))))))).
  { intros finish Fin.
    unfold savepoint_block, Transaction.savepoint, Savepoint.ctor.
    unfold bind at 1. unfold bind at 1. unfold this at 1. cbn [fst snd].
    rewrite Act. cbn [negb].
    unfold on_conn at 1. cbn [fst snd].
    unfold try_catch at 1. unfold bind at 1.
    rewrite (execute_savepoint name _ Pn), T. unfold ret at 1.
    unfold on_conn at 1. cbn [fst snd].
    unfold scoped. unfold bind at 1. unfold on_conn at 1. cbn [fst snd].
    destruct (body (marked name t d)) as [r d2] eqn:B. cbn [fst snd] in *.
    destruct r as [[]|e].
    - destruct Fin as [-> | ->].
      + unfold Savepoint.release, bind, this, try_catch, on_conn, assign, throw.
        cbn [fst snd Savepoint.active_ Savepoint.name_ negb].
        rewrite (execute_release name d2 _ _ _ Pn Tx). cbn [fst snd].
        unfold Savepoint.dtor, bind, this, ret.
        cbn [fst snd Savepoint.set_active Savepoint.active_ andb]. reflexivity.
      + unfold ret at 1.
        unfold Savepoint.dtor, bind, this, try_catch, on_conn.
        cbn [fst snd Savepoint.active_ Savepoint.conn_ Savepoint.name_ andb].
        rewrite (execute_release name d2 _ _ _ Pn Tx). reflexivity.
    - unfold Savepoint.dtor, bind, this, try_catch, on_conn.
      cbn [fst snd Savepoint.active_ Savepoint.conn_ Savepoint.name_ andb].
      rewrite (execute_release name d2 _ _ _ Pn Tx). reflexivity. }
  split; [apply Run; left; reflexivity|].
  split; [apply Run; right; reflexivity|].
  cbn [txn committed history with_txn logged]. repeat split.
  - exact Cm.
  - rewrite Hi, <- app_assoc. reflexivity.
Qed.

Lemma execute_release_outermost (name : string) (d : D) (w s : Store U) :
  plain_name name = true ->
  txn d = Some (mkTxn w [(name, s)] true) ->
  Connection.execute ("RELEASE SAVEPOINT " +++ name) d =
    (Ok tt, with_txn None
              (with_committed w (logged ("RELEASE SAVEPOINT " +++ name) [] d))).
Proof.
  intros P T.
  unfold Connection.execute. cbn [sqlite3_exec engine]. unfold exec.
  cbn [is_begin String.eqb String.append Ascii.eqb Bool.eqb orb strip_prefix
       create_migrations_sql].
  rewrite P.
  unfold exec_release. cbn [txn logged]. rewrite T.
  cbn [saves find_save implicit work]. rewrite same_ignoring_case_refl. reflexivity.
Qed.

(** X13.  A savepoint guard made with the public constructor, under a
    name that is a plain identifier ([plain_name]), on a
    connection with no open transaction is a transaction of its own: the
    SAVEPOINT opens it, [rollback] ends it with the committed state as it
    was, and [release] ends it with what the body wrote committed.  No
    transaction stays open in either case. *)
Theorem savepoint_alone_is_a_transaction (name : string) (body : M D unit) (d : D) :
  plain_name name = true ->
  txn d = None -> confined body -> (forall x, fst (body x) = Ok tt) ->
  (exists d',
     savepoint_alone name body Savepoint.rollback d = (Ok tt, d') /\
     txn d' = None /\ committed d' = committed d) /\
  (exists d',
     savepoint_alone name body Savepoint.release d = (Ok tt, d') /\
     txn d' = None /\
     committed d' = visible (snd (body (marked_outside name d)))).
Proof.
  intros Pn T C R.
  destruct (C (marked_outside name d) _ eq_refl) as [Cm [_ [_ [w [Tx _]]]]].
  cbn [saves implicit] in Tx.
  assert (V : visible (snd (body (marked_outside name d))) = w).
  { unfold visible. rewrite Tx. reflexivity. }
  specialize (R (marked_outside name d)).
  unfold savepoint_alone, Savepoint.ctor.
  split.
  - unfold bind at 1. unfold try_catch at 1. unfold bind at 1.
    rewrite (execute_savepoint name _ Pn), T. unfold ret at 1.
    unfold scoped. unfold bind at 1. unfold on_conn at 1. cbn [fst snd].
    destruct (body (marked_outside name d)) as [r d2] eqn:B. cbn [fst snd] in *.
    subst r.
    unfold Savepoint.rollback, bind, this, try_catch, on_conn, assign, throw.
    cbn [fst snd Savepoint.active_ Savepoint.name_ negb].
    rewrite (execute_rollback_to name d2 _ _ _ _ Pn Tx). cbn [fst snd].
    erewrite execute_release_outermost by (exact Pn || reflexivity). cbn [fst snd].
    unfold Savepoint.dtor, bind, this, ret.
    cbn [fst snd Savepoint.set_active Savepoint.active_ andb].
    eexists. split; [reflexivity|]. split; reflexivity.
  - unfold bind at 1. unfold try_catch at 1. unfold bind at 1.
    rewrite (execute_savepoint name _ Pn), T. unfold ret at 1.
    unfold scoped. unfold bind at 1. unfold on_conn at 1. cbn [fst snd].
    destruct (body (marked_outside name d)) as [r d2] eqn:B. cbn [fst snd] in *.
    subst r.
    unfold Savepoint.release, bind, this, try_catch, on_conn, assign, throw.
    cbn [fst snd Savepoint.active_ Savepoint.name_ negb].
    rewrite (execute_release_outermost name d2 _ _ Pn Tx). cbn [fst snd].
    unfold Savepoint.dtor, bind, this, ret.
    cbn [fst snd Savepoint.set_active Savepoint.active_ andb].
    eexists. split; [reflexivity|]. split; [reflexivity|].
    cbn [committed with_txn with_committed]. symmetry. exact V.
Qed.

End MoreMiniSQLiteFacts.

(** * The further properties at work on concrete inputs *)

Section MoreInstances.
Import MiniSQLite MigrationManager OnMiniSQLite Examples.

(** The engine answers 2067, SQLITE_CONSTRAINT_UNIQUE. *)
Lemma execute_classifies_by_base_code_witness :
  Connection.execute "INSERT INTO users VALUES (1)" (2067 : Z) =
    (Throw (ConstraintException "Unknown error" 2067), 2067).
Proof.
  exact (execute_classifies_by_base_code "INSERT INTO users VALUES (1)" (2067 : Z) 19 8
           ltac:(lia) ltac:(lia) eq_refl ltac:(discriminate)).
Defined.

(** COMMIT answered with 787, SQLITE_CONSTRAINT_FOREIGNKEY, and COMMIT
    refused by MiniSQLite because no transaction is open. *)
Lemma transaction_failures_by_class_witness :
  fst (Transaction.commit (active_guard, (787 : Z))) =
    Throw (ConstraintException "Unknown error" 787) /\
  fst (Transaction.commit (active_guard, fresh)) =
    Throw (TransactionException
             ("Failed to commit: Query error: cannot commit - no transaction is active"
              +++ " (SQLite error code: 1)" +++ newline +++ "SQL: COMMIT") 1).
Proof.
  split.
  - exact (proj1 (proj2 (transaction_failures_by_class
                           Transaction.Deferred active_guard (787 : Z) eq_refl)) eq_refl).
  - exact (proj1 (proj2 (transaction_failures_by_class
                           Transaction.Deferred active_guard fresh eq_refl)) eq_refl).
Defined.

(** An engine that accepts ROLLBACK TO SAVEPOINT and then refuses RELEASE
    SAVEPOINT with code 1. *)
Lemma savepoint_failures_by_class_witness :
  Savepoint.rollback (active_savepoint, [0; 1]) =
    (Throw (TransactionException
              ("Failed to rollback to savepoint: Query error: Unknown error"
               +++ " (SQLite error code: 1)" +++ newline
               +++ "SQL: RELEASE SAVEPOINT sp1") 1),
     (active_savepoint, [])).
Proof.
  exact (proj2 (proj2 (proj2 (savepoint_failures_by_class
                                "sp1" active_savepoint [0; 1] eq_refl)))
           eq_refl eq_refl).
Defined.

(** Savepoint names: the constructor fails with code 1 for the empty name,
    text that holds a second statement is not taken as a name, and the
    engine finds a savepoint whatever the case of its letters. *)
Lemma savepoint_names :
  (exists text,
     fst (Savepoint.ctor "" fresh) = Throw (TransactionException text 1)) /\
  (exists text,
     fst (Connection.execute "SAVEPOINT a; ROLLBACK" fresh) =
       Throw (QueryException text "SAVEPOINT a; ROLLBACK" 1)) /\
  plain_name "sp1" = true /\
  fst (Connection.execute "RELEASE SAVEPOINT SP1"
         (snd (Connection.execute "SAVEPOINT sp1" fresh))) = Ok tt /\
  txn (snd (Connection.execute "RELEASE SAVEPOINT SP1"
              (snd (Connection.execute "SAVEPOINT sp1" fresh)))) = None.
Proof.
  split; [eexists; by_running|].
  split; [eexists; by_running|].
  repeat split; by_running.
Qed.

Lemma inside_open : txn inside = Some inside_txn.
Proof. by_running. Qed.

Lemma inside_commit :
  Transaction.commit (active_guard, inside) =
    (Ok tt, (ended_guard, finished inside_txn inside)).
Proof. by_running. Qed.

(** After the commit of [inside] the guard is inert on that connection. *)
Lemma ended_guard_is_inert_witness :
  Transaction.dtor (ended_guard, finished inside_txn inside) =
    (Ok tt, (ended_guard, finished inside_txn inside)) /\
  Transaction.commit (ended_guard, finished inside_txn inside) =
    (Throw (TransactionException "Transaction already ended" 0),
     (ended_guard, finished inside_txn inside)) /\
  Transaction.rollback (ended_guard, finished inside_txn inside) =
    (Throw (TransactionException "Transaction already ended" 0),
     (ended_guard, finished inside_txn inside)) /\
  Transaction.savepoint "sp1" (ended_guard, finished inside_txn inside) =
    (Throw (TransactionException "Cannot create savepoint: transaction not active" 0),
     (ended_guard, finished inside_txn inside)).
Proof.
  exact (ended_guard_is_inert active_guard ended_guard inside
           (finished inside_txn inside) "sp1" (or_introl inside_commit)
           (finished inside_txn inside)).
Defined.

Lemma adds_t_run :
  adds_t (Transaction.mk true true, begun fresh) =
    (Ok 7, (active_guard, snd (create_table "t" (begun fresh)))).
Proof. by_running. Qed.

Lemma throws_after_t_run :
  throws_after_t (Transaction.mk true true, begun fresh) =
    (Throw (std_exception "boom"), (active_guard, snd (create_table "t" (begun fresh)))).
Proof. by_running. Qed.

Lemma t_created_open :
  txn (snd (create_table "t" (begun fresh))) = Some (mkTxn (mkStore ["t"] None) [] false).
Proof. by_running. Qed.

(** A function that creates a table: committed when it returns, discarded
    when it throws after creating it. *)
Lemma withTransaction_all_or_nothing_witness :
  (withTransaction adds_t fresh =
     (Ok 7, finished (mkTxn (mkStore ["t"] None) [] false)
                     (snd (create_table "t" (begun fresh)))) /\
   user (committed (snd (withTransaction adds_t fresh))) = ["t"]) /\
  (withTransaction throws_after_t fresh =
     (Throw (std_exception "boom"), rolled_back (snd (create_table "t" (begun fresh)))) /\
   user (committed (snd (withTransaction throws_after_t fresh))) = []).
Proof.
  split.
  - split; [|by_running].
    exact (proj1 (withTransaction_all_or_nothing adds_t fresh _ _ _ _
                    eq_refl adds_t_run eq_refl eq_refl t_created_open)).
  - split; [|by_running].
    exact (proj1 (withTransaction_all_or_nothing throws_after_t fresh _ _ _ _
                    eq_refl throws_after_t_run eq_refl eq_refl t_created_open)).
Defined.

Lemma commits_itself_run :
  commits_itself (Transaction.mk true true, begun fresh) =
    (Ok 7, (ended_guard, snd (snd (commits_itself (Transaction.mk true true, begun fresh))))).
Proof. by_running. Qed.

(** The function commits through the guard: the table is committed and
    [withTransaction] throws all the same. *)
Lemma withTransaction_after_func_ended_witness :
  withTransaction commits_itself fresh =
    (Throw (TransactionException "Transaction already ended" 0),
     snd (snd (commits_itself (Transaction.mk true true, begun fresh)))) /\
  user (committed (snd (withTransaction commits_itself fresh))) = ["t"].
Proof.
  split; [|by_running].
  exact (withTransaction_after_func_ended commits_itself fresh 7 ended_guard _
           eq_refl commits_itself_run eq_refl).
Defined.

Lemma withTransaction_does_not_nest_witness :
  withTransaction adds_t inside =
    (Throw (TransactionException
              ("Failed to begin transaction: " +++
               what (QueryException no_nested_begin "BEGIN DEFERRED TRANSACTION"
                                    SQLITE_ERROR))
              SQLITE_ERROR),
     refused "BEGIN DEFERRED TRANSACTION" no_nested_begin inside) /\
  txn (refused "BEGIN DEFERRED TRANSACTION" no_nested_begin inside) = Some inside_txn /\
  committed (refused "BEGIN DEFERRED TRANSACTION" no_nested_begin inside) =
    committed inside.
Proof.
  exact (withTransaction_does_not_nest adds_t inside inside_txn inside_open).
Defined.

(** Inside a transaction that has created table "a", a savepoint block
    creates table "b" and rolls back: the transaction holds "a" only. *)
Lemma savepoint_rollback_restores_witness :
  exists d',
    savepoint_block "sp1" (create_table "b") Savepoint.rollback (active_guard, inside) =
      (Ok tt, (active_guard, d')) /\
    txn d' = Some inside_txn /\
    committed d' = committed inside /\
    visible d' = visible inside /\
    history d' =
      history inside ++ [("SAVEPOINT " +++ "sp1", []);
                         ("ROLLBACK TO SAVEPOINT " +++ "sp1", []);
                         ("RELEASE SAVEPOINT " +++ "sp1", [])].
Proof.
  exact (savepoint_rollback_restores "sp1" (create_table "b") active_guard inside
           inside_txn eq_refl eq_refl inside_open eq_refl (create_table_confined "b")
           (fun _ => eq_refl)).
Defined.

(** The same block released, or simply left: the transaction holds "b"
    and "a". *)
Lemma savepoint_scope_keeps_work_witness :
  exists d',
    savepoint_block "sp1" (create_table "b") Savepoint.release (active_guard, inside) =
      (fst (create_table "b" (marked "sp1" inside_txn inside)), (active_guard, d')) /\
    savepoint_block "sp1" (create_table "b") (ret tt) (active_guard, inside) =
      (fst (create_table "b" (marked "sp1" inside_txn inside)), (active_guard, d')) /\
    txn d' =
      Some (mkTxn (visible (snd (create_table "b" (marked "sp1" inside_txn inside))))
                  (saves inside_txn) false) /\
    committed d' = committed inside /\
    history d' =
      history inside ++ [("SAVEPOINT " +++ "sp1", []); ("RELEASE SAVEPOINT " +++ "sp1", [])].
Proof.
  exact (savepoint_scope_keeps_work "sp1" (create_table "b") active_guard inside
           inside_txn eq_refl eq_refl inside_open eq_refl (create_table_confined "b")).
Defined.

(** A savepoint on a new connection, around the creation of table "b". *)
Lemma savepoint_alone_is_a_transaction_witness :
  (exists d',
     savepoint_alone "sp1" (create_table "b") Savepoint.rollback fresh = (Ok tt, d') /\
     txn d' = None /\ committed d' = committed fresh) /\
  (exists d',
     savepoint_alone "sp1" (create_table "b") Savepoint.release fresh = (Ok tt, d') /\
     txn d' = None /\
     committed d' = visible (snd (create_table "b" (marked_outside "sp1" fresh)))).
Proof.
  exact (savepoint_alone_is_a_transaction "sp1" (create_table "b") fresh
           eq_refl eq_refl (create_table_confined "b") (fun _ => eq_refl)).
Defined.

End MoreInstances.

(** * The migration manager: further properties *)

Section RegistryFacts.
Import MigrationManager.
Context {db : Type} `{Sqlite3 db}.

Lemma at_emplace_same (k : Z) (m : Migration db) (mgr : MigrationManager.t db) :
  count k mgr = 0 -> at_ k (emplace k m mgr) = Some m.
Proof.
  unfold count, at_. induction mgr as [|e rest IH]; cbn [emplace existsb find fst].
  - intros _. rewrite Z.eqb_refl. reflexivity.
  - destruct (fst e =? k) eqn:E; cbn [orb]; [discriminate|]. intros C.
    destruct (k <? fst e).
    + cbn [find fst]. rewrite Z.eqb_refl. reflexivity.
    + rewrite Z.eqb_sym, E. cbn [find]. rewrite E. apply IH, C.
Qed.

Lemma at_emplace_other (k k' : Z) (m : Migration db) (mgr : MigrationManager.t db) :
  k' <> k -> at_ k' (emplace k m mgr) = at_ k' mgr.
Proof.
  intros N. unfold at_. induction mgr as [|e rest IH]; cbn [emplace find fst].
  - replace (k =? k') with false by (symmetry; apply Z.eqb_neq; congruence).
    reflexivity.
  - destruct (k <? fst e).
    + cbn [find fst].
      replace (k =? k') with false by (symmetry; apply Z.eqb_neq; congruence).
      reflexivity.
    + destruct (k =? fst e); [reflexivity|].
      cbn [find]. destruct (fst e =? k'); [reflexivity|exact IH].
Qed.

Lemma count_at (k : Z) (mgr : MigrationManager.t db) :
  count k mgr = match at_ k mgr with Some _ => 1 | None => 0 end.
Proof.
  unfold count, at_. induction mgr as [|e rest IH]; cbn [existsb find]; [reflexivity|].
  destruct (fst e =? k); [reflexivity|exact IH].
Qed.

(** X14.  Registration and lookup.  When [add] returns, the version was
    positive and not registered before; afterwards the version looks up
    the migration just added and every other version looks up what it did
    before. *)
Theorem add_then_lookup (migration : Migration db) (mgr mgr' : MigrationManager.t db) :
  add migration mgr = Ok mgr' ->
  0 < version migration /\
  at_ (version migration) mgr = None /\
  at_ (version migration) mgr' = Some migration /\
  count (version migration) mgr' = 1 /\
  (forall k, k <> version migration -> at_ k mgr' = at_ k mgr).
Proof.
  unfold add.
  destruct (version migration <=? 0) eqn:P; [discriminate|]. apply Z.leb_gt in P.
  destruct (count (version migration) mgr >? 0) eqn:C; [discriminate|].
  intros [= <-].
  assert (C0 : count (version migration) mgr = 0).
  { unfold count in *. destruct (existsb _ mgr); [discriminate|reflexivity]. }
  split; [exact P|]. split.
  { rewrite count_at in C0. destruct (at_ (version migration) mgr);
      [discriminate|reflexivity]. }
  split; [apply at_emplace_same, C0|]. split.
  { rewrite count_at, at_emplace_same by exact C0. reflexivity. }
  intros k N. apply at_emplace_other, N.
Qed.

(** X15.  What [add] refuses.  A version that is zero or negative, and a
    version that is already registered, are refused with a
    MigrationException for that version whose text names the reason;
    nothing else is refused. *)
Theorem add_refuses_exactly (migration : Migration db) (mgr : MigrationManager.t db) :
  (version migration <= 0 ->
   add migration mgr =
     Throw (MigrationException "Migration version must be positive" (version migration))) /\
  (0 < version migration -> at_ (version migration) mgr <> None ->
   add migration mgr =
     Throw (MigrationException "Duplicate migration version" (version migration))) /\
  (0 < version migration -> at_ (version migration) mgr = None ->
   exists mgr', add migration mgr = Ok mgr') /\
  what (MigrationException "Duplicate migration version" (version migration)) =
    "Migration error at version " +++ to_string (version migration) +++
    ": Duplicate migration version".
Proof.
  unfold add. rewrite count_at. repeat split.
  - intros P. apply Z.leb_le in P. rewrite P. reflexivity.
  - intros P A. apply Z.leb_gt in P. rewrite P.
    destruct (at_ (version migration) mgr); [reflexivity|contradiction].
  - intros P A. apply Z.leb_gt in P. rewrite P, A. cbn. eexists. reflexivity.
Qed.

End RegistryFacts.

Section ManagerFacts.
Import MiniSQLite MigrationManager OnMiniSQLite.
Context {U : Type}.
Local Abbreviation D := (DB U).

Lemma last_sorted (l : list Z) (x : Z) :
  StronglySorted Z.lt l -> l <> [] ->
  In (last l x) l /\ Forall (fun y => y <= last l x) l.
Proof.
  induction l as [|a rest IH]; [intros _ N; contradiction|].
  intros S _. inversion S as [|? ? S' F]; subst.
  destruct rest as [|b rest'].
  - cbn. split; [auto|]. constructor; [lia|constructor].
  - destruct (IH S' ltac:(discriminate)) as [I G].
    change (last (a :: b :: rest') x) with (last (b :: rest') x).
    split; [right; exact I|].
    constructor; [|exact G].
    rewrite Forall_forall in F. specialize (F _ I). lia.
Qed.

Lemma emplace_perm (k : Z) (m : Migration D) (mgr : MigrationManager.t D) :
  count k mgr = 0 -> Permutation (map fst (emplace k m mgr)) (k :: map fst mgr).
Proof.
  unfold count. induction mgr as [|e rest IH]; cbn [emplace existsb map fst].
  - intros _. apply Permutation_refl.
  - destruct (fst e =? k) eqn:E; cbn [orb]; [discriminate|]. intros C.
    destruct (k <? fst e); [apply Permutation_refl|].
    rewrite Z.eqb_sym, E. cbn [map].
    eapply Permutation_trans; [apply perm_skip, IH, C|apply perm_swap].
Qed.

(** X16.  The registry keeps the order [std::map] gives it.  Whatever the
    order of registration, after [add] the keys ascend strictly, each
    migration is stored under its own version, versions are positive, and
    [latestVersion] is the greater of the old latest version and the
    version added (for an empty registry it is 0). *)
Theorem add_keeps_registry_ordered
        (migration : Migration D) (mgr mgr' : MigrationManager.t D) :
  well_formed mgr -> version migration < 2^31 ->
  add migration mgr = Ok mgr' ->
  well_formed mgr' /\
  latestVersion (@MigrationManager.empty D) = 0 /\
  latestVersion mgr' = Z.max (latestVersion mgr) (version migration) /\
  In (latestVersion mgr') (map fst mgr') /\
  Forall (fun k => k <= latestVersion mgr') (map fst mgr').
Proof.
  intros W R A.
  pose proof (add_well_formed _ _ _ W R A) as W'.
  split; [exact W'|]. split; [reflexivity|].
  assert (N' : mgr' <> []).
  { revert A. unfold add.
    destruct (version migration <=? 0); [discriminate|].
    destruct (count (version migration) mgr >? 0); [discriminate|].
    intros [= <-]. destruct mgr as [|e rest]; cbn; [discriminate|].
    destruct (version migration <? fst e); [discriminate|].
    destruct (version migration =? fst e); discriminate. }
  assert (P : Permutation (map fst mgr') (version migration :: map fst mgr)).
  { revert A. unfold add.
    destruct (version migration <=? 0); [discriminate|].
    destruct (count (version migration) mgr >? 0) eqn:C; [discriminate|].
    intros [= <-]. apply emplace_perm. unfold count in *.
    destruct (existsb _ mgr); [discriminate|reflexivity]. }
  pose proof (latest_registered mgr' N') as I'.
  pose proof (latest_greatest mgr' (proj1 W')) as G'.
  split; [|split; assumption].
  rewrite Forall_forall in G'.
  assert (Gv : version migration <= latestVersion mgr').
  { apply G'. eapply Permutation_in; [apply Permutation_sym, P|left; reflexivity]. }
  destruct mgr as [|e rest].
  - revert A. unfold add.
    destruct (version migration <=? 0) eqn:Pz; [discriminate|].
    cbn. intros [= <-]. cbn. apply Z.leb_gt in Pz. lia.
  - assert (Io : In (latestVersion (e :: rest)) (map fst (e :: rest)))
      by (apply latest_registered; discriminate).
    pose proof (latest_greatest (e :: rest) (proj1 W)) as G.
    rewrite Forall_forall in G.
    assert (Go : latestVersion (e :: rest) <= latestVersion mgr').
    { apply G'. eapply Permutation_in; [apply Permutation_sym, P|right; exact Io]. }
    apply (Permutation_in _ P) in I'. destruct I' as [E|I].
    + lia.
    + specialize (G _ I). lia.
Qed.

(** X17.  [currentVersion] never fails on MiniSQLite: it creates the
    bookkeeping table when it is missing, leaves the records and the user
    data as they were, and returns 0 when there is no record and
    otherwise the greatest recorded version, narrowed to [int]; for
    records within the range of [int] that is the greatest record itself.
    Asking again gives the same answer. *)
Theorem currentVersion_reads_greatest_record (d : D) :
  exists v,
    currentVersion d = (Ok v, surveyed d) /\
    fst (currentVersion (surveyed d)) = Ok v /\
    rows (surveyed d) = rows d /\
    user (visible (surveyed d)) = user (visible d) /\
    migrations_table (visible (surveyed d)) = Some (rows d) /\
    (rows d = [] -> v = 0) /\
    (forall m, max_version (rows d) = Some m -> v = to_int32 m) /\
    ((forall x, In x (recorded d) -> - 2^31 <= x < 2^31) -> rows d <> [] ->
     In v (recorded d) /\ Forall (fun x => x <= v) (recorded d)).
Proof.
  exists (current_of d).
  split; [apply currentVersion_run|].
  split. { rewrite currentVersion_run. cbn [fst]. unfold current_of.
           rewrite rows_surveyed. reflexivity. }
  split; [apply rows_surveyed|]. split; [apply user_surveyed|].
  split. { unfold surveyed. apply rows_ensured. }
  unfold current_of, recorded.
  pose proof (max_version_spec (rows d)) as S.
  split; [intros ->; reflexivity|].
  split; [intros m ->; reflexivity|].
  intros B N. destruct (max_version (rows d)) as [m|]; [|contradiction].
  destruct S as [I F]. rewrite to_int32_small by (apply B, I).
  split; [exact I|]. apply Forall_map. exact F.
Qed.

Lemma at_of_in (mgr : MigrationManager.t D) (e : Z * Migration D) :
  StronglySorted Z.lt (map fst mgr) -> In e mgr -> at_ (fst e) mgr = Some (snd e).
Proof.
  unfold at_. induction mgr as [|a rest IH]; [intros _ []|].
  cbn [map]. intros S I. inversion S as [|? ? S' F]; subst.
  cbn [find]. destruct I as [->|I]; [rewrite Z.eqb_refl; reflexivity|].
  replace (fst a =? fst e) with false; [apply IH; assumption|].
  symmetry. apply Z.eqb_neq. rewrite Forall_forall in F.
  specialize (F (fst e) (in_map fst _ _ I)). lia.
Qed.

Lemma in_of_at (mgr : MigrationManager.t D) (v : Z) (m : Migration D) :
  at_ v mgr = Some m -> In (v, m) mgr.
Proof.
  unfold at_. destruct (find (fun e => fst e =? v) mgr) as [e|] eqn:F; [|discriminate].
  intros [= <-]. apply find_some in F. destruct F as [I E].
  apply Z.eqb_eq in E. subst v. destruct e. exact I.
Qed.

Lemma filter_none {A : Type} (f : A -> bool) (l : list A) :
  (forall x, In x l -> f x = false) -> filter f l = [].
Proof.
  induction l as [|a rest IH]; [reflexivity|]. intros N. cbn [filter].
  rewrite (N a (or_introl eq_refl)). apply IH. intros x Ix. apply N. right. exact Ix.
Qed.

Lemma pending_run (mgr : MigrationManager.t D) (d : D) :
  pending mgr d =
    (Ok (map snd (filter (fun e => fst e >? current_of d) mgr)), surveyed d).
Proof. unfold pending, bind. rewrite currentVersion_run. reflexivity. Qed.

Lemma isUpToDate_run (mgr : MigrationManager.t D) (d : D) :
  isUpToDate mgr d = (Ok (current_of d >=? latestVersion mgr), surveyed d).
Proof. unfold isUpToDate, bind. rewrite currentVersion_run. reflexivity. Qed.

Lemma versions_of_filter (f : Z -> bool) (mgr : MigrationManager.t D) :
  Forall (fun e => version (snd e) = fst e /\ 0 < fst e < 2^31) mgr ->
  map version (map snd (filter (fun e => f (fst e)) mgr)) = filter f (map fst mgr).
Proof.
  induction 1 as [|e rest [E _] _ IH]; [reflexivity|].
  cbn [filter map]. destruct (f (fst e)); cbn [map]; rewrite IH; congruence.
Qed.

(** X18.  [pending] returns the registered migrations whose version is
    above the version [currentVersion] returns, each once, in ascending
    order of version. *)
Theorem pending_lists_versions_above_current (mgr : MigrationManager.t D) (d : D) :
  well_formed mgr ->
  exists current l,
    currentVersion d = (Ok current, surveyed d) /\
    pending mgr d = (Ok l, surveyed d) /\
    map version l = filter (fun v => v >? current) (map fst mgr) /\
    StronglySorted Z.lt (map version l) /\
    (forall m, In m l <-> exists v, at_ v mgr = Some m /\ current < v).
Proof.
  intros [S W]. exists (current_of d), (map snd (filter (fun e => fst e >? current_of d) mgr)).
  split; [apply currentVersion_run|]. split; [apply pending_run|].
  pose proof (versions_of_filter (fun v => v >? current_of d) mgr W) as V.
  split; [exact V|]. split; [rewrite V; apply StronglySorted_filter, S|].
  intros m. split.
  - intros I. apply in_map_iff in I. destruct I as [e [<- I]].
    apply filter_In in I. destruct I as [I G].
    exists (fst e). split; [apply at_of_in; assumption|lia].
  - intros [v [A G]]. apply in_of_at in A.
    apply in_map_iff. exists (v, m). split; [reflexivity|].
    apply filter_In. split; [exact A|]. cbn [fst]. lia.
Qed.

(** X19.  [isUpToDate] agrees with [pending]: on a database whose recorded
    versions are positive [int]s it returns true exactly when [pending]
    returns no migration. *)
Theorem isUpToDate_iff_nothing_pending (mgr : MigrationManager.t D) (d : D) :
  well_formed mgr ->
  (forall v, In v (recorded d) -> 0 < v < 2^31) ->
  exists b l,
    isUpToDate mgr d = (Ok b, surveyed d) /\
    pending mgr d = (Ok l, surveyed d) /\
    (b = true <-> l = []).
Proof.
  intros [S W] B.
  exists (current_of d >=? latestVersion mgr),
         (map snd (filter (fun e => fst e >? current_of d) mgr)).
  split; [apply isUpToDate_run|]. split; [apply pending_run|].
  assert (C0 : 0 <= current_of d).
  { unfold current_of, recorded in *.
    pose proof (max_version_spec (rows d)) as X.
    destruct (max_version (rows d)) as [m|]; [|lia].
    destruct X as [I _]. specialize (B m I). rewrite to_int32_small; lia. }
  pose proof (latest_greatest mgr S) as G. rewrite Forall_forall in G.
  split.
  - intros Up. apply Z.geb_le in Up.
    rewrite filter_none; [reflexivity|].
    intros x Ix. specialize (G (fst x) (in_map fst _ _ Ix)).
    rewrite Z.gtb_ltb. apply Z.ltb_ge. lia.
  - intros E. apply Z.geb_le.
    destruct mgr as [|e rest]; [cbn; exact C0|].
    assert (I : In (latestVersion (e :: rest)) (map fst (e :: rest)))
      by (apply latest_registered; discriminate).
    apply in_map_iff in I. destruct I as [x [Ex Ix]].
    destruct (fst x >? current_of d) eqn:Gx.
    + exfalso.
      assert (In (snd x) (map snd (filter (fun e0 => fst e0 >? current_of d) (e :: rest)))).
      { apply in_map, filter_In. split; assumption. }
      rewrite E in H. contradiction.
    + rewrite Z.gtb_ltb in Gx. apply Z.ltb_ge in Gx. lia.
Qed.

Lemma current_of_rows (d d' : D) : rows d' = rows d -> current_of d' = current_of d.
Proof. unfold current_of. intros ->. reflexivity. Qed.

Lemma current_of_bounds (d : D) :
  (forall v, In v (recorded d) -> 0 < v < 2^31) ->
  0 <= current_of d < 2^31 /\
  Forall (fun r => fst r <= current_of d) (rows d) /\
  (rows d <> [] -> In (current_of d) (recorded d)).
Proof.
  intros B. unfold current_of, recorded in *.
  pose proof (max_version_spec (rows d)) as X.
  destruct (max_version (rows d)) as [m|].
  - destruct X as [I F]. specialize (B m I). rewrite to_int32_small by lia.
    repeat split; try lia; auto.
  - rewrite X. repeat split; try lia; [constructor|intros N; now elim N].
Qed.

(** The current version after records for [sel] were appended: [sel]
    ascends and lies above the current version. *)
Lemma current_of_extended (d d' : D) (f : Z -> string) (sel : list Z) :
  rows d' = rows d ++ map (fun v => (v, f v)) sel ->
  (forall v, In v (recorded d) -> 0 < v < 2^31) ->
  StronglySorted Z.lt sel -> Forall (fun v => current_of d < v < 2^31) sel ->
  current_of d' = last sel (current_of d).
Proof.
  intros R B S A.
  destruct (current_of_bounds d B) as [C0 [Fd _]].
  destruct sel as [|a rest].
  { apply current_of_rows. rewrite R, app_nil_r. reflexivity. }
  destruct (last_sorted (a :: rest) (current_of d) S ltac:(discriminate)) as [I G].
  set (top := last (a :: rest) (current_of d)) in *.
  rewrite Forall_forall in A, G, Fd. pose proof (A top I) as At.
  unfold current_of at 1. rewrite (max_version_greatest (rows d') top).
  - apply to_int32_small. lia.
  - rewrite R, map_app, map_map. cbn [fst]. rewrite map_id.
    apply in_or_app. right. exact I.
  - rewrite R. apply Forall_app. split; apply Forall_forall.
    + intros r Ir. specialize (Fd r Ir). lia.
    + intros r Ir. apply in_map_iff in Ir. destruct Ir as [v [<- Iv]]. cbn [fst].
      apply G, Iv.
Qed.

Lemma selected_above (mgr : MigrationManager.t D) (lo hi : Z) :
  well_formed mgr -> Forall (fun v => lo < v < 2^31) (selected mgr lo hi).
Proof.
  intros [_ W]. apply Forall_forall. intros v I.
  apply selected_spec in I. destruct I as [I L].
  apply in_map_iff in I. destruct I as [e [<- Ie]].
  rewrite Forall_forall in W. specialize (W e Ie). lia.
Qed.

Lemma selected_none (mgr : MigrationManager.t D) (lo hi : Z) :
  hi <= lo -> selected mgr lo hi = [].
Proof.
  intros L. unfold selected, collect. apply filter_none. intros x _.
  destruct (x >? lo) eqn:G; [|reflexivity].
  rewrite Z.gtb_ltb in G. apply Z.ltb_lt in G. cbn [andb]. apply Z.leb_gt. lia.
Qed.

(** What a successful [applyTo] leaves: the records of the selected units
    after those that were there, and the greatest of them as the current
    version. *)
Lemma applyTo_leaves (mgr : MigrationManager.t D) (target : Z) (d d' : D) :
  well_formed mgr ->
  (forall v m, at_ v mgr = Some m -> confined (up m)) ->
  (forall v, In v (recorded d) -> 0 < v < 2^31) ->
  applyTo mgr target d = (Ok tt, d') ->
  rows d' =
    rows d ++ map (fun v => (v, description_of mgr v)) (selected mgr (current_of d) target) /\
  current_of d' = last (selected mgr (current_of d) target) (current_of d) /\
  (forall v, In v (recorded d') -> 0 < v < 2^31).
Proof.
  intros W C B R.
  pose proof (selected_sorted mgr (current_of d) target W) as S.
  rewrite applyTo_run, (std_sort_ascending _ S) in R.
  destruct (apply_each_confined mgr _ C _ _ R) as [_ [_ [Hr _]]].
  rewrite rows_entered in Hr.
  pose proof (selected_above mgr (current_of d) target W) as A.
  split; [exact Hr|]. split.
  - apply (current_of_extended d d' _ _ Hr B S A).
  - intros v I. unfold recorded in I. rewrite Hr, map_app in I.
    apply in_app_or in I. destruct I as [I|I]; [apply B, I|].
    rewrite map_map in I. cbn [fst] in I. rewrite map_id in I.
    rewrite Forall_forall in A. specialize (A v I).
    destruct (current_of_bounds d B) as [C0 _]. lia.
Qed.

(** X20.  After [apply] has returned the database is up to date:
    [isUpToDate] returns true, [pending] returns nothing, and a second
    [apply] runs no unit, opens no transaction and leaves the records as
    they are.  The procedures are confined and the recorded versions are
    positive and not above the latest version. *)
Theorem apply_brings_up_to_date (mgr : MigrationManager.t D) (d d' : D) :
  well_formed mgr ->
  (forall v m, at_ v mgr = Some m -> confined (up m)) ->
  (forall v, In v (recorded d) -> 0 < v <= latestVersion mgr) ->
  apply mgr d = (Ok tt, d') ->
  isUpToDate mgr d' = (Ok true, surveyed d') /\
  pending mgr d' = (Ok [], surveyed d') /\
  apply mgr d' = (Ok tt, entered d') /\
  rows (entered d') = rows d' /\
  history (entered d') =
    history d' ++ [(create_migrations_sql, []); (create_migrations_sql, []);
                   (select_max_sql, [])].
Proof.
  intros W C B R. unfold apply in R.
  pose proof (latest_range mgr W) as LR.
  pose proof (latest_greatest mgr (proj1 W)) as LG. rewrite Forall_forall in LG.
  assert (B' : forall v, In v (recorded d) -> 0 < v < 2^31).
  { intros v I. specialize (B v I). lia. }
  destruct (applyTo_leaves mgr _ d d' W C B' R) as [_ [Cd _]].
  pose proof (selected_sorted mgr (current_of d) (latestVersion mgr) W) as S.
  assert (Cl : current_of d <= latestVersion mgr).
  { destruct (current_of_bounds d B') as [C0 [_ Ic]].
    destruct (rows d) eqn:E.
    - unfold current_of. rewrite E. cbn. lia.
    - apply B, Ic. discriminate. }
  assert (E : current_of d' = latestVersion mgr).
  { rewrite Cd.
    destruct (Z.eq_dec (current_of d) (latestVersion mgr)) as [Eq|Ne].
    - rewrite selected_none by lia. exact Eq.
    - assert (N : mgr <> []).
      { intros ->. cbn in *. destruct (current_of_bounds d B') as [C0 _]. lia. }
      assert (I : In (latestVersion mgr) (selected mgr (current_of d) (latestVersion mgr))).
      { apply selected_spec. split; [apply latest_registered, N|lia]. }
      assert (Ns : selected mgr (current_of d) (latestVersion mgr) <> []).
      { intros Em. rewrite Em in I. contradiction. }
      destruct (last_sorted _ (current_of d) S Ns) as [Il Gl].
      rewrite Forall_forall in Gl. specialize (Gl _ I).
      apply selected_spec in Il. lia. }
  split. { rewrite isUpToDate_run, E. f_equal. f_equal. apply Z.geb_le. lia. }
  split.
  { rewrite pending_run, E, filter_none; [reflexivity|].
    intros x Ix. specialize (LG (fst x) (in_map fst _ _ Ix)).
    rewrite Z.gtb_ltb. apply Z.ltb_ge. lia. }
  split.
  { unfold apply. rewrite applyTo_run, E, selected_none by lia. reflexivity. }
  split; [apply rows_entered|].
  destruct d' as [[u0 tb0] [t|] ext msg h]; cbn; rewrite <- !app_assoc; reflexivity.
Qed.

Lemma entered_history (d : D) :
  history (entered d) =
    history d ++ [(create_migrations_sql, []); (create_migrations_sql, []);
                  (select_max_sql, [])].
Proof.
  destruct d as [[u0 tb0] [t|] ext msg h]; cbn; rewrite <- !app_assoc; reflexivity.
Qed.

Lemma user_entered (d : D) : user (visible (entered d)) = user (visible d).
Proof.
  destruct d as [[u0 tb0] [[[u1 tb1] sv imp]|] ext msg h]; cbn.
  - destruct tb1; reflexivity.
  - destruct tb0; reflexivity.
Qed.

Lemma entered_open (d : D) (t : Txn U) :
  txn d = Some t -> exists t', txn (entered d) = Some t' /\ committed (entered d) = committed d.
Proof.
  destruct d as [c [t0|] ext msg h]; cbn; intros T; [|discriminate].
  eexists. split; reflexivity.
Qed.

(** X21.  [applyTo] never goes down: with a target at or below the version
    [currentVersion] returns it runs no unit and opens no transaction; the
    engine sees only the creation of the bookkeeping table (twice) and the
    query for the greatest version, and records and user data stay as
    they are. *)
Theorem applyTo_never_downgrades (mgr : MigrationManager.t D) (target : Z) (d : D)
        (current : Z) :
  fst (currentVersion d) = Ok current -> target <= current ->
  applyTo mgr target d = (Ok tt, entered d) /\
  rows (entered d) = rows d /\
  user (visible (entered d)) = user (visible d) /\
  history (entered d) =
    history d ++ [(create_migrations_sql, []); (create_migrations_sql, []);
                  (select_max_sql, [])].
Proof.
  rewrite currentVersion_run. cbn [fst]. intros [= <-] L.
  split. { rewrite applyTo_run, selected_none by exact L. reflexivity. }
  split; [apply rows_entered|]. split; [apply user_entered|apply entered_history].
Qed.

Lemma at_of_key (mgr : MigrationManager.t D) (v : Z) :
  In v (map fst mgr) -> exists m, at_ v mgr = Some m.
Proof.
  unfold at_. intros I. apply in_map_iff in I. destruct I as [e [E I]].
  destruct (find (fun e0 => fst e0 =? v) mgr) as [x|] eqn:F; [eexists; reflexivity|].
  exfalso. apply (find_none _ _ F) in I. apply Z.eqb_neq in I. contradiction.
Qed.

(** X22.  [applyTo] must not be called inside a transaction.  When some
    unit is selected and the connection already has a transaction open,
    the engine refuses the BEGIN of the first unit and the
    TransactionException of the guard's constructor leaves [applyTo] as it
    is, not wrapped in a MigrationException: no procedure has run, no
    record is written, and the caller's transaction is still open. *)
Theorem applyTo_inside_transaction
        (mgr : MigrationManager.t D) (target : Z) (d : D) (t : Txn U)
        (v : Z) (rest : list Z) :
  well_formed mgr -> txn d = Some t ->
  selected mgr (current_of d) target = v :: rest ->
  applyTo mgr target d =
    (Throw (TransactionException
              ("Failed to begin transaction: " +++
               what (QueryException no_nested_begin "BEGIN DEFERRED TRANSACTION"
                                    SQLITE_ERROR))
              SQLITE_ERROR),
     refused "BEGIN DEFERRED TRANSACTION" no_nested_begin (entered d)) /\
  txn (refused "BEGIN DEFERRED TRANSACTION" no_nested_begin (entered d)) <> None /\
  committed (refused "BEGIN DEFERRED TRANSACTION" no_nested_begin (entered d)) =
    committed d /\
  rows (refused "BEGIN DEFERRED TRANSACTION" no_nested_begin (entered d)) = rows d /\
  user (visible (refused "BEGIN DEFERRED TRANSACTION" no_nested_begin (entered d))) =
    user (visible d).
Proof.
  intros W T Sel.
  pose proof (selected_sorted mgr (current_of d) target W) as S.
  destruct (entered_open d t T) as [t' [Te Ce]].
  assert (I : In v (map fst mgr)).
  { apply (selected_spec mgr (current_of d) target v). rewrite Sel. left. reflexivity. }
  destruct (at_of_key mgr v I) as [m A].
  split.
  { rewrite applyTo_run, (std_sort_ascending _ S), Sel. cbn [apply_each]. unfold bind.
    rewrite (apply_one_unfold mgr v m _ A), in_transaction_run, Te. reflexivity. }
  split. { unfold refused. cbn [txn with_errmsg logged]. rewrite Te. discriminate. }
  split. { unfold refused. cbn [committed with_errmsg logged]. exact Ce. }
  split. { unfold refused. change (rows (entered d) = rows d). apply rows_entered. }
  change (user (visible (entered d)) = user (visible d)). apply user_entered.
Qed.

Lemma rows_write_insert (v : Z) (desc : string) (d : D) (r : list (Z * string)) :
  migrations_table (visible d) = Some r ->
  migrations_table (visible (write (insert_row v desc) d)) = Some (r ++ [(v, desc)]).
Proof.
  destruct d as [[u0 tb0] [[[u1 tb1] sv imp]|] ext msg h]; cbn; intros ->; reflexivity.
Qed.

Lemma rows_write_delete (v : Z) (d : D) (r : list (Z * string)) :
  migrations_table (visible d) = Some r ->
  migrations_table (visible (write (delete_row v) d)) =
    Some (filter (fun row => negb (fst row =? v)) r).
Proof.
  destruct d as [[u0 tb0] [[[u1 tb1] sv imp]|] ext msg h]; cbn; intros ->; reflexivity.
Qed.

Lemma user_write_bookkeeping (f : Store U -> Store U) (d : D) :
  (forall s, user (f s) = user s) -> user (visible (write f d)) = user (visible d).
Proof.
  intros K. destruct d as [c [t|] ext msg h]; cbn; apply K.
Qed.

Lemma filter_absent (v : Z) (r : list (Z * string)) :
  has_version v r = false -> filter (fun row => negb (fst row =? v)) r = r.
Proof.
  unfold has_version. induction r as [|a rest IH]; [reflexivity|].
  cbn [existsb filter]. destruct (fst a =? v); cbn [orb negb]; [discriminate|].
  intros E. rewrite IH by exact E. reflexivity.
Qed.

(** X23.  The bookkeeping record of a version round-trips.  On a database
    whose bookkeeping table exists and does not hold the version,
    [recordMigration] appends the row (version, description) and
    [removeMigrationRecord] then brings the rows back to what they were;
    removing a version that is not recorded succeeds and changes no row.
    User data is not touched. *)
Theorem record_then_remove (mgr : MigrationManager.t D) (v : Z) (m : Migration D)
        (d : D) (r : list (Z * string)) :
  at_ v mgr = Some m ->
  migrations_table (visible d) = Some r -> has_version v r = false ->
  exists d1 d2 d3,
    recordMigration mgr v d = (Ok tt, d1) /\
    rows d1 = r ++ [(v, description m)] /\
    removeMigrationRecord v d1 = (Ok tt, d2) /\
    rows d2 = r /\ user (visible d2) = user (visible d) /\
    removeMigrationRecord v d = (Ok tt, d3) /\
    rows d3 = r /\ user (visible d3) = user (visible d).
Proof.
  intros A T N.
  pose proof (recordMigration_run mgr v m d r A T) as R1. cbv zeta in R1.
  rewrite N in R1.
  set (d1 := write (insert_row v (description m))
                   (logged insert_sql [(2, VText (description m)); (1, VInt v)] d)) in *.
  assert (T1 : migrations_table (visible d1) = Some (r ++ [(v, description m)])).
  { apply rows_write_insert. exact T. }
  pose proof (removeMigrationRecord_run v d1 _ T1) as R2.
  pose proof (removeMigrationRecord_run v d _ T) as R3.
  eexists. eexists. eexists.
  split; [exact R1|]. split; [apply rows_of_table, T1|].
  split; [exact R2|]. split.
  { apply rows_of_table. erewrite rows_write_delete by exact T1.
    rewrite filter_app, (filter_absent v r N). cbn [filter fst].
    rewrite Z.eqb_refl. cbn [negb]. rewrite app_nil_r. reflexivity. }
  split.
  { rewrite user_write_bookkeeping
      by (intros s0; unfold delete_row; destruct (migrations_table s0); reflexivity).
    change (user (visible d1) = user (visible d)). unfold d1.
    rewrite user_write_bookkeeping
      by (intros s0; unfold insert_row; destruct (migrations_table s0); reflexivity).
    reflexivity. }
  split; [exact R3|]. split.
  { apply rows_of_table. erewrite rows_write_delete by exact T.
    rewrite (filter_absent v r N). reflexivity. }
  rewrite user_write_bookkeeping; [reflexivity|].
  intros s0. unfold delete_row. destruct (migrations_table s0); reflexivity.
Qed.

Lemma filter_all {A : Type} (f : A -> bool) (l : list A) :
  (forall x, In x l -> f x = true) -> filter f l = l.
Proof.
  induction l as [|a rest IH]; [reflexivity|]. intros K. cbn [filter].
  rewrite (K a (or_introl eq_refl)), IH; [reflexivity|].
  intros x Ix. apply K. right. exact Ix.
Qed.

Lemma outside_rows (units : list Z) (r : list (Z * string)) (f : Z -> string) (lo : Z) :
  Forall (fun row => fst row <= lo) r -> Forall (fun v => lo < v) units ->
  filter (outside (rev units)) (r ++ map (fun v => (v, f v)) units) = r.
Proof.
  intros Fr Fu. rewrite Forall_forall in Fr, Fu.
  rewrite filter_app, filter_all, filter_none; [apply app_nil_r| |].
  - intros row I. apply in_map_iff in I. destruct I as [v [<- Iv]].
    unfold outside. cbn [fst]. apply negb_false_iff, existsb_exists.
    exists v. split; [apply in_rev; rewrite rev_involutive; exact Iv|apply Z.eqb_refl].
  - intros row I. unfold outside. apply negb_true_iff.
    destruct (existsb (Z.eqb (fst row)) (rev units)) eqn:E; [|reflexivity].
    apply existsb_exists in E. destruct E as [u [Iu Eu]].
    apply Z.eqb_eq in Eu. apply in_rev in Iu.
    specialize (Fr row I). specialize (Fu u Iu). lia.
Qed.

(** The units selected up to the greatest of them are the units selected. *)
Lemma selected_to_last (mgr : MigrationManager.t D) (lo hi : Z) :
  well_formed mgr ->
  selected mgr lo (last (selected mgr lo hi) lo) = selected mgr lo hi.
Proof.
  intros W. pose proof (selected_sorted mgr lo hi W) as S.
  destruct (selected mgr lo hi) as [|a rest] eqn:E.
  { cbn [last]. rewrite selected_none by lia. reflexivity. }
  destruct (last_sorted (a :: rest) lo S ltac:(discriminate)) as [I G].
  rewrite <- E in *. set (top := last (selected mgr lo hi) lo) in *.
  rewrite Forall_forall in G.
  unfold selected, collect. apply filter_ext_in. intros x Ix.
  destruct (x >? lo) eqn:Gx; [cbn [andb]|reflexivity].
  apply selected_spec in I.
  destruct (x <=? hi) eqn:Lh.
  - apply Z.leb_le. apply G. apply selected_spec. split; [exact Ix|].
    rewrite Z.gtb_ltb in Gx. apply Z.ltb_lt in Gx. apply Z.leb_le in Lh. lia.
  - apply Z.leb_gt. apply Z.leb_gt in Lh. lia.
Qed.

(** X24.  Rolling back to the version a database had undoes what
    [applyTo] recorded.  When [applyTo] has returned and [rollbackTo] is
    then called with the version [currentVersion] returned before, and
    returns, the bookkeeping rows are those from before and
    [currentVersion] returns the old version again.  The procedures are
    confined and the recorded versions are positive [int]s. *)
Theorem rollbackTo_undoes_applyTo
        (mgr : MigrationManager.t D) (target before : Z) (d d1 d2 : D) :
  well_formed mgr ->
  (forall v m, at_ v mgr = Some m -> confined (up m)) ->
  (forall v m f, at_ v mgr = Some m -> down m = Some f -> confined f) ->
  (forall v, In v (recorded d) -> 0 < v < 2^31) ->
  fst (currentVersion d) = Ok before ->
  applyTo mgr target d = (Ok tt, d1) ->
  rollbackTo mgr before d1 = (Ok tt, d2) ->
  rows d2 = rows d /\ fst (currentVersion d2) = Ok before.
Proof.
  intros W Cu Cd B Cur R1 R2.
  rewrite currentVersion_run in Cur. cbn [fst] in Cur. injection Cur as <-.
  destruct (applyTo_leaves mgr target d d1 W Cu B R1) as [Hr [Hc _]].
  pose proof (selected_sorted mgr (current_of d) target W) as S.
  pose proof (selected_above mgr (current_of d) target W) as A.
  destruct (current_of_bounds d B) as [_ [Fd _]].
  assert (Rows : rows d2 = rows d).
  { rewrite rollbackTo_run in R2.
    destruct (current_of d >=? current_of d1) eqn:G.
    - injection R2 as <-. rewrite rows_surveyed, Hr.
      apply Z.geb_le in G. rewrite Hc in G.
      destruct (selected mgr (current_of d) target) as [|a rest] eqn:E.
      + apply app_nil_r.
      + exfalso.
        destruct (last_sorted (a :: rest) (current_of d) S ltac:(discriminate)) as [I _].
        rewrite Forall_forall in A. specialize (A _ I). lia.
    - rewrite Hc, (selected_to_last mgr _ _ W), (std_sort_descending _ S) in R2.
      destruct (rollback_each_confined mgr _ Cd _ _ R2) as [_ [_ [Hr2 _]]].
      rewrite Hr2, rows_surveyed, Hr.
      apply (outside_rows _ _ _ (current_of d)); [exact Fd|].
      eapply Forall_impl; [|exact A]. cbn. intros; lia. }
  split; [exact Rows|].
  rewrite currentVersion_run. cbn [fst]. f_equal. apply current_of_rows, Rows.
Qed.

Lemma filter_split_sorted (p q : Z -> bool) (l : list Z) :
  StronglySorted Z.lt l ->
  (forall x y, In x l -> In y l -> p x = true -> q y = true -> x < y) ->
  filter p l ++ filter q l = filter (fun x => p x || q x) l.
Proof.
  induction l as [|a rest IH]; [reflexivity|].
  intros S K. inversion S as [|? ? S' F]; subst. rewrite Forall_forall in F.
  assert (IH' : filter p rest ++ filter q rest = filter (fun x => p x || q x) rest).
  { apply IH; [exact S'|]. intros x y Ix Iy. apply K; right; assumption. }
  cbn [filter]. destruct (p a) eqn:Pa; destruct (q a) eqn:Qa; cbn [orb].
  - exfalso. specialize (K a a (or_introl eq_refl) (or_introl eq_refl) Pa Qa). lia.
  - cbn [app]. rewrite IH'. reflexivity.
  - rewrite <- IH'. rewrite (filter_none p rest); [reflexivity|].
    intros x Ix. destruct (p x) eqn:Px; [|reflexivity]. exfalso.
    specialize (K x a (or_intror Ix) (or_introl eq_refl) Px Qa).
    specialize (F x Ix). lia.
  - exact IH'.
Qed.

(** The units of two consecutive runs are the units of one. *)
Lemma selected_in_two_steps (mgr : MigrationManager.t D) (lo k n : Z) :
  well_formed mgr -> k <= n ->
  selected mgr lo k ++ selected mgr (last (selected mgr lo k) lo) n = selected mgr lo n.
Proof.
  intros W L. pose proof (selected_sorted mgr lo k W) as S.
  set (mid := last (selected mgr lo k) lo).
  assert (M : (selected mgr lo k = [] /\ mid = lo) \/
              (lo < mid <= k /\ Forall (fun y => y <= mid) (selected mgr lo k))).
  { unfold mid. destruct (selected mgr lo k) as [|a rest] eqn:E; [left; auto|right].
    destruct (last_sorted (a :: rest) lo S ltac:(discriminate)) as [I G].
    split; [|exact G].
    assert (I' : In (last (a :: rest) lo) (selected mgr lo k)) by (rewrite E; exact I).
    apply selected_spec in I'. lia. }
  unfold selected, collect.
  rewrite filter_split_sorted; [|exact (proj1 W)|].
  - apply filter_ext_in. intros x Ix.
    destruct (x >? lo) eqn:G1; destruct (x <=? k) eqn:L1;
      destruct (x >? mid) eqn:G2; destruct (x <=? n) eqn:L2; cbn [andb orb];
      try reflexivity; exfalso;
      rewrite ?Z.gtb_ltb in *;
      repeat match goal with
             | X : (_ <? _) = true |- _ => apply Z.ltb_lt in X
             | X : (_ <? _) = false |- _ => apply Z.ltb_ge in X
             | X : (_ <=? _) = true |- _ => apply Z.leb_le in X
             | X : (_ <=? _) = false |- _ => apply Z.leb_gt in X
             end;
      try lia;
      destruct M as [[E Em]|[Bm Fm]]; lia.
  - intros x y Ix Iy Px Qy.
    apply andb_true_iff in Px, Qy. destruct Px as [G1 L1], Qy as [G2 _].
    rewrite Z.gtb_ltb in G1, G2. apply Z.ltb_lt in G1, G2. apply Z.leb_le in L1.
    destruct M as [[E Em]|[Bm Fm]].
    + assert (I : In x (selected mgr lo k)) by (apply selected_spec; split; [exact Ix|lia]).
      rewrite E in I. contradiction.
    + rewrite Forall_forall in Fm.
      assert (I : In x (selected mgr lo k)) by (apply selected_spec; split; [exact Ix|lia]).
      specialize (Fm x I). lia.
Qed.

(** X25.  Migrating in two steps records what migrating in one step
    records.  When [applyTo] has returned for a target and then for a
    higher one, the bookkeeping rows are those a single [applyTo] to the
    higher target leaves: the rows from before followed by one row for
    each registered version above the old current version and up to the
    higher target, in ascending order. *)
Theorem applyTo_in_two_steps
        (mgr : MigrationManager.t D) (first second : Z) (d d1 d2 : D) :
  well_formed mgr ->
  (forall v m, at_ v mgr = Some m -> confined (up m)) ->
  (forall v, In v (recorded d) -> 0 < v < 2^31) ->
  first <= second ->
  applyTo mgr first d = (Ok tt, d1) ->
  applyTo mgr second d1 = (Ok tt, d2) ->
  rows d2 =
    rows d ++ map (fun v => (v, description_of mgr v))
                  (selected mgr (current_of d) second) /\
  (forall d', applyTo mgr second d = (Ok tt, d') ->
              rows d' = rows d2 /\ current_of d' = current_of d2).
Proof.
  intros W C B L R1 R2.
  destruct (applyTo_leaves mgr first d d1 W C B R1) as [Hr1 [Hc1 B1]].
  destruct (applyTo_leaves mgr second d1 d2 W C B1 R2) as [Hr2 _].
  assert (Rows : rows d2 =
                 rows d ++ map (fun v => (v, description_of mgr v))
                               (selected mgr (current_of d) second)).
  { rewrite Hr2, Hr1, Hc1, <- app_assoc, <- map_app.
    rewrite (selected_in_two_steps mgr _ _ _ W L). reflexivity. }
  split; [exact Rows|].
  intros d' R.
  destruct (applyTo_leaves mgr second d d' W C B R) as [Hr _].
  assert (E : rows d' = rows d2) by (rewrite Hr, Rows; reflexivity).
  split; [exact E|apply current_of_rows, E].
Qed.

End ManagerFacts.

(** * The further properties of the manager at work *)

Section ManagerInstances.
Import MiniSQLite MigrationManager OnMiniSQLite Examples.

Lemma three_add_four : add unit_four three = Ok (emplace 4 unit_four three).
Proof. by_running. Qed.

(** Unit 4 registered after units 1, 3 and 2. *)
Lemma add_then_lookup_witness :
  0 < version unit_four /\
  at_ (version unit_four) three = None /\
  at_ (version unit_four) (emplace 4 unit_four three) = Some unit_four /\
  count (version unit_four) (emplace 4 unit_four three) = 1 /\
  (forall k, k <> version unit_four ->
             at_ k (emplace 4 unit_four three) = at_ k three).
Proof.
  exact (add_then_lookup unit_four three (emplace 4 unit_four three) three_add_four).
Defined.

Lemma add_keeps_registry_ordered_witness :
  well_formed (emplace 4 unit_four three) /\
  latestVersion (@MigrationManager.empty D) = 0 /\
  latestVersion (emplace 4 unit_four three) =
    Z.max (latestVersion three) (version unit_four) /\
  In (latestVersion (emplace 4 unit_four three)) (map fst (emplace 4 unit_four three)) /\
  Forall (fun k => k <= latestVersion (emplace 4 unit_four three))
         (map fst (emplace 4 unit_four three)).
Proof.
  exact (add_keeps_registry_ordered unit_four three (emplace 4 unit_four three)
           three_well_formed eq_refl three_add_four).
Defined.

(** At version 1 the pending units of [three] are 2 and 3. *)
Lemma pending_lists_versions_above_current_witness :
  exists current l,
    currentVersion at_one = (Ok current, surveyed at_one) /\
    pending three at_one = (Ok l, surveyed at_one) /\
    map version l = filter (fun v => v >? current) (map fst three) /\
    StronglySorted Z.lt (map version l) /\
    (forall m, In m l <-> exists v, at_ v three = Some m /\ current < v).
Proof.
  exact (pending_lists_versions_above_current three at_one three_well_formed).
Defined.

Lemma at_one_recorded (v : Z) : In v (recorded at_one) -> 0 < v < 2^31.
Proof. cbn. intros [<-|[]]. lia. Qed.

Lemma isUpToDate_iff_nothing_pending_witness :
  exists b l,
    isUpToDate three at_one = (Ok b, surveyed at_one) /\
    pending three at_one = (Ok l, surveyed at_one) /\
    (b = true <-> l = []).
Proof.
  exact (isUpToDate_iff_nothing_pending three at_one three_well_formed at_one_recorded).
Defined.

Lemma three_apply : apply three fresh = (Ok tt, snd (apply three fresh)).
Proof. by_running. Qed.

(** [apply] on a new database, then again. *)
Lemma apply_brings_up_to_date_witness :
  isUpToDate three (snd (apply three fresh)) =
    (Ok true, surveyed (snd (apply three fresh))) /\
  pending three (snd (apply three fresh)) =
    (Ok [], surveyed (snd (apply three fresh))) /\
  apply three (snd (apply three fresh)) = (Ok tt, entered (snd (apply three fresh))) /\
  rows (entered (snd (apply three fresh))) = rows (snd (apply three fresh)) /\
  history (entered (snd (apply three fresh))) =
    history (snd (apply three fresh)) ++
    [(create_migrations_sql, []); (create_migrations_sql, []); (select_max_sql, [])].
Proof.
  exact (apply_brings_up_to_date three fresh (snd (apply three fresh))
           three_well_formed three_ups_confined (fun v (I : In v []) => match I with end)
           three_apply).
Defined.

Lemma at_one_current : fst (currentVersion at_one) = Ok 1.
Proof. by_running. Qed.

(** At version 1, a target of 1. *)
Lemma applyTo_never_downgrades_witness :
  applyTo three 1 at_one = (Ok tt, entered at_one) /\
  rows (entered at_one) = rows at_one /\
  user (visible (entered at_one)) = user (visible at_one) /\
  history (entered at_one) =
    history at_one ++ [(create_migrations_sql, []); (create_migrations_sql, []);
                       (select_max_sql, [])].
Proof.
  exact (applyTo_never_downgrades three 1 at_one 1 at_one_current ltac:(lia)).
Defined.

Lemma inside_selected : selected three (current_of inside) 3 = 1 :: [2; 3].
Proof. by_running. Qed.

(** [applyTo] called inside the transaction of [inside]. *)
Lemma applyTo_inside_transaction_witness :
  applyTo three 3 inside =
    (Throw (TransactionException
              ("Failed to begin transaction: " +++
               what (QueryException no_nested_begin "BEGIN DEFERRED TRANSACTION"
                                    SQLITE_ERROR))
              SQLITE_ERROR),
     refused "BEGIN DEFERRED TRANSACTION" no_nested_begin (entered inside)) /\
  txn (refused "BEGIN DEFERRED TRANSACTION" no_nested_begin (entered inside)) <> None /\
  committed (refused "BEGIN DEFERRED TRANSACTION" no_nested_begin (entered inside)) =
    committed inside /\
  rows (refused "BEGIN DEFERRED TRANSACTION" no_nested_begin (entered inside)) =
    rows inside /\
  user (visible (refused "BEGIN DEFERRED TRANSACTION" no_nested_begin (entered inside))) =
    user (visible inside).
Proof.
  exact (applyTo_inside_transaction three 3 inside inside_txn 1 [2; 3]
           three_well_formed inside_open inside_selected).
Defined.

Lemma three_at_two : at_ 2 three = Some (mkMigration 2 "v2" (create_table "v2") None).
Proof. by_running. Qed.

(** Version 2 recorded on, and removed from, a database at version 1. *)
Lemma record_then_remove_witness :
  exists d1 d2 d3,
    recordMigration three 2 at_one = (Ok tt, d1) /\
    rows d1 = [(1, "v1")] ++ [(2, description (mkMigration 2 "v2" (create_table "v2") None))] /\
    removeMigrationRecord 2 d1 = (Ok tt, d2) /\
    rows d2 = [(1, "v1")] /\ user (visible d2) = user (visible at_one) /\
    removeMigrationRecord 2 at_one = (Ok tt, d3) /\
    rows d3 = [(1, "v1")] /\ user (visible d3) = user (visible at_one).
Proof.
  exact (record_then_remove three 2 _ at_one [(1, "v1")] three_at_two eq_refl eq_refl).
Defined.

Lemma at_two_recorded (v : Z) : In v (recorded at_two) -> 0 < v < 2^31.
Proof.
  assert (E : recorded at_two = [1; 2]) by by_running.
  rewrite E. intros [<-|[<-|[]]]; lia.
Qed.

Lemma at_two_current : fst (currentVersion at_two) = Ok 2.
Proof. by_running. Qed.

Lemma at_two_up : applyTo three 3 at_two = (Ok tt, snd (applyTo three 3 at_two)).
Proof. by_running. Qed.

Lemma at_two_down :
  rollbackTo three 2 (snd (applyTo three 3 at_two)) =
    (Ok tt, snd (rollbackTo three 2 (snd (applyTo three 3 at_two)))).
Proof. by_running. Qed.

(** From version 2 up to 3 and back to 2. *)
Lemma rollbackTo_undoes_applyTo_witness :
  rows (snd (rollbackTo three 2 (snd (applyTo three 3 at_two)))) = rows at_two /\
  fst (currentVersion (snd (rollbackTo three 2 (snd (applyTo three 3 at_two))))) = Ok 2.
Proof.
  exact (rollbackTo_undoes_applyTo three 3 2 at_two _ _
           three_well_formed three_ups_confined three_downs_confined
           at_two_recorded at_two_current at_two_up at_two_down).
Defined.

Lemma fresh_to_one : applyTo three 1 fresh = (Ok tt, snd (applyTo three 1 fresh)).
Proof. by_running. Qed.

Lemma one_to_three :
  applyTo three 3 (snd (applyTo three 1 fresh)) =
    (Ok tt, snd (applyTo three 3 (snd (applyTo three 1 fresh)))).
Proof. by_running. Qed.

(** A new database migrated to version 1 and then to version 3. *)
Lemma applyTo_in_two_steps_witness :
  rows (snd (applyTo three 3 (snd (applyTo three 1 fresh)))) =
    rows fresh ++ map (fun v => (v, description_of three v))
                      (selected three (current_of fresh) 3) /\
  (forall d', applyTo three 3 fresh = (Ok tt, d') ->
              rows d' = rows (snd (applyTo three 3 (snd (applyTo three 1 fresh)))) /\
              current_of d' =
                current_of (snd (applyTo three 3 (snd (applyTo three 1 fresh))))).
Proof.
  exact (applyTo_in_two_steps three 1 3 fresh _ _
           three_well_formed three_ups_confined
           (fun v (I : In v []) => match I with end) ltac:(lia)
           fresh_to_one one_to_three).
Defined.

End ManagerInstances.

(** * The schema validator: further properties *)

Section MoreValidatorFacts.
Import SchemaValidator OnCatalog.

(** ** Strings *)

Lemma append_assoc (a b c : string) : (a +++ b) +++ c = a +++ b +++ c.
Proof. induction a as [|x a IH]; cbn; [reflexivity|rewrite IH; reflexivity]. Qed.

Lemma upper_append (a b : string) : upper (a +++ b) = upper a +++ upper b.
Proof. induction a as [|x a IH]; cbn; [reflexivity|rewrite IH; reflexivity]. Qed.

Lemma prefix_spec (n h : string) :
  String.prefix n h = true <-> exists post, h = n +++ post.
Proof.
  revert h. induction n as [|a n IH]; intros h; cbn.
  - split; [intros _; exists h; reflexivity|intros _; destruct h; reflexivity].
  - destruct h as [|b h]; cbn.
    + split; [discriminate|intros [post E]; discriminate].
    + destruct (ascii_dec a b) as [->|N].
      * rewrite IH. split; intros [post E]; exists post; congruence.
      * split; [discriminate|intros [post E]; congruence].
Qed.

(** [find] succeeds exactly on the strings that hold the needle. *)
Lemma contains_spec (h n : string) :
  contains h n = true <-> exists pre post, h = pre +++ n +++ post.
Proof.
  induction h as [|b h IH]; cbn [contains]; rewrite orb_true_iff, prefix_spec.
  - split.
    + intros [[post E]|X]; [exists "", post; exact E|discriminate].
    + intros [pre [post E]]. left. destruct pre; [exists post; exact E|discriminate].
  - rewrite IH. split.
    + intros [[post E]|[pre [post E]]].
      * exists "", post. exact E.
      * exists (String b pre), post. cbn. rewrite E. reflexivity.
    + intros [pre [post E]]. destruct pre as [|x pre].
      * left. exists post. exact E.
      * right. exists pre, post. cbn in E. congruence.
Qed.

(** ** Letter case *)

Lemma nat_of_toupper (c : ascii) :
  nat_of_ascii (toupper c) =
    if is_lower_letter c then (nat_of_ascii c - 32)%nat else nat_of_ascii c.
Proof.
  unfold toupper, is_lower_letter.
  destruct (Nat.leb 97 (nat_of_ascii c) && Nat.leb (nat_of_ascii c) 122); [|reflexivity].
  apply nat_ascii_embedding. pose proof (nat_ascii_bounded c). lia.
Qed.

Lemma lower_letter_range (c : ascii) :
  is_lower_letter c = true <-> (97 <= nat_of_ascii c <= 122)%nat.
Proof.
  unfold is_lower_letter. rewrite andb_true_iff, !Nat.leb_le. tauto.
Qed.

Lemma nat_of_ascii_inj (x y : ascii) : nat_of_ascii x = nat_of_ascii y -> x = y.
Proof.
  intros E. rewrite <- (ascii_nat_embedding x), <- (ascii_nat_embedding y), E.
  reflexivity.
Qed.

(** [toupper] identifies two characters exactly when they are the same
    letter in either case, or the same character. *)
Lemma toupper_same (x y : ascii) : toupper x = toupper y <-> same_letter x y = true.
Proof.
  unfold same_letter. rewrite !orb_true_iff, !andb_true_iff, !Nat.eqb_eq, Ascii.eqb_eq.
  rewrite !lower_letter_range.
  split.
  - intros E. apply (f_equal nat_of_ascii) in E. rewrite !nat_of_toupper in E.
    destruct (is_lower_letter x) eqn:Lx; destruct (is_lower_letter y) eqn:Ly;
      try (apply lower_letter_range in Lx); try (apply lower_letter_range in Ly).
    + left. left. apply nat_of_ascii_inj. lia.
    + left. right. split; [exact Lx|lia].
    + right. split; [exact Ly|lia].
    + left. left. apply nat_of_ascii_inj. exact E.
  - intros [[E|[Lx E]]|[Ly E]].
    + subst. reflexivity.
    + apply nat_of_ascii_inj. rewrite !nat_of_toupper.
      destruct (is_lower_letter y) eqn:Ly;
        [apply lower_letter_range in Ly; lia|].
      rewrite (proj2 (lower_letter_range x)) by exact Lx.
      lia.
    + apply nat_of_ascii_inj. rewrite !nat_of_toupper.
      destruct (is_lower_letter x) eqn:Lx;
        [apply lower_letter_range in Lx; lia|].
      rewrite (proj2 (lower_letter_range y)) by exact Ly. lia.
Qed.

Lemma upper_same (a b : string) : upper a = upper b <-> same_ignoring_case a b = true.
Proof.
  revert b. induction a as [|x a IH]; intros [|y b]; cbn [upper same_ignoring_case].
  - tauto.
  - split; discriminate.
  - split; discriminate.
  - rewrite andb_true_iff, <- toupper_same, <- IH. split.
    + intros [= Ex Ea]. auto.
    + intros [Ex Ea]. congruence.
Qed.

(** A part of [upper s] is [upper] of a part of [s]. *)
Lemma upper_split (s a b : string) :
  upper s = a +++ b -> exists s1 s2, s = s1 +++ s2 /\ upper s1 = a /\ upper s2 = b.
Proof.
  revert s. induction a as [|x a IH]; intros s E.
  - exists "", s. repeat split. exact E.
  - destruct s as [|c s]; [discriminate|]. cbn in E. injection E as Ec Es.
    destruct (IH s Es) as [s1 [s2 [-> [U1 U2]]]].
    exists (String c s1), s2. cbn. rewrite U1, Ec. repeat split. exact U2.
Qed.

(** X26.  The type check of [validate] is a substring test that ignores
    the case of ASCII letters: a column passes exactly when no type was
    expected or some part of the declared type equals the expected type
    up to the case of letters ("varchar" is found in "VARCHAR(255)");
    otherwise one "wrong_type" error is appended.  The upper-case forms
    the check compares are equal exactly for strings that are equal up to
    the case of letters. *)
Theorem type_check_is_substring_ignoring_case
        (req : ColumnRequirement) (colType : string) (errors : list ValidationError) :
  (check_type req colType errors = (Ok tt, errors) <->
   expectedType req = "" \/
   exists pre part post,
     colType = pre +++ part +++ post /\
     same_ignoring_case part (expectedType req) = true) /\
  (check_type req colType errors = (Ok tt, errors) \/
   check_type req colType errors = (Ok tt, errors ++ [wrong_type req colType])) /\
  (forall a b, upper a = upper b <-> same_ignoring_case a b = true).
Proof.
  assert (Grow : forall e, (Ok tt, errors ++ [e]) <> (@Ok unit tt, errors)).
  { intros e E. injection E as E. apply (f_equal (@length _)) in E.
    rewrite length_app in E. cbn in E. lia. }
  assert (Part : contains (upper colType) (upper (expectedType req)) = true <->
                 exists pre part post,
                   colType = pre +++ part +++ post /\
                   same_ignoring_case part (expectedType req) = true).
  { rewrite contains_spec. split.
    - intros [pre' [post' E]].
      destruct (upper_split _ _ _ E) as [pre [rest [-> [_ Er]]]].
      destruct (upper_split _ _ _ Er) as [part [post [-> [Ep _]]]].
      exists pre, part, post. split; [reflexivity|]. apply upper_same, Ep.
    - intros [pre [part [post [-> Sp]]]]. apply upper_same in Sp.
      exists (upper pre), (upper post). rewrite !upper_append, Sp. reflexivity. }
  split; [|split; [|exact upper_same]].
  - unfold check_type, push_back, ret.
    destruct (String.eqb (expectedType req) "") eqn:E; cbn [negb].
    + apply String.eqb_eq in E. split; [left; exact E|reflexivity].
    + apply String.eqb_neq in E.
      destruct (contains (upper colType) (upper (expectedType req))) eqn:C; cbn [negb].
      * split; [right; apply Part; reflexivity|reflexivity].
      * split; [intros X; elim (Grow _ X)|].
        intros [X|X]; [contradiction|]. apply Part in X. discriminate.
  - unfold check_type, push_back, ret, wrong_type.
    destruct (negb (String.eqb (expectedType req) "")); [|left; reflexivity].
    destruct (negb (contains _ _)); [right|left]; reflexivity.
Qed.

(** ** Requirements *)

Lemma mark_not_null_again (t c : string) (reqs reqs' : list ColumnRequirement) :
  mark_not_null t c reqs = Some reqs' -> mark_not_null t c reqs' = Some reqs'.
Proof.
  revert reqs'. induction reqs as [|req rest IH]; intros reqs'; cbn [mark_not_null];
    [discriminate|].
  destruct (same_column t c req) eqn:E.
  - intros [= <-]. cbn [mark_not_null]. unfold same_column in *.
    cbn [tableName columnName expectedType]. rewrite E. reflexivity.
  - destruct (mark_not_null t c rest) as [rest'|]; [|discriminate].
    intros [= <-]. cbn [mark_not_null]. rewrite E, (IH rest' eq_refl). reflexivity.
Qed.

Lemma mark_not_null_appended (t c : string) (reqs : list ColumnRequirement) :
  mark_not_null t c reqs = None ->
  mark_not_null t c (reqs ++ [mkColumn t c "" true]) =
    Some (reqs ++ [mkColumn t c "" true]).
Proof.
  induction reqs as [|req rest IH]; cbn [mark_not_null app].
  - intros _. unfold same_column. cbn [tableName columnName expectedType].
    rewrite !String.eqb_refl. reflexivity.
  - destruct (same_column t c req); [discriminate|].
    destruct (mark_not_null t c rest); [discriminate|].
    intros _. rewrite (IH eq_refl). reflexivity.
Qed.

Lemma mark_not_null_elsewhere (t c t' c' : string) (reqs reqs' : list ColumnRequirement) :
  mark_not_null t c reqs = Some reqs' ->
  t' <> t \/ c' <> c ->
  filter (same_column t' c') reqs' = filter (same_column t' c') reqs.
Proof.
  intros M N. revert reqs' M.
  induction reqs as [|req rest IH]; intros reqs'; cbn [mark_not_null]; [discriminate|].
  destruct (same_column t c req) eqn:E.
  - intros [= <-]. cbn [filter]. apply same_column_names in E. destruct E as [Et Ec].
    unfold same_column. cbn [tableName columnName]. rewrite Et, Ec.
    replace (String.eqb t t' && String.eqb c c') with false; [reflexivity|].
    symmetry. apply andb_false_iff.
    destruct N as [N|N]; [left|right]; apply String.eqb_neq; congruence.
  - destruct (mark_not_null t c rest) as [rest'|]; [|discriminate].
    intros [= <-]. cbn [filter]. rewrite (IH rest' eq_refl). reflexivity.
Qed.

(** X27.  [requireNotNull] is idempotent and local.  Calling it twice for
    a column gives the validator one call gives; it leaves the table and
    index requirements alone, and the requirements kept for any other
    column are the same before and after. *)
Theorem requireNotNull_idempotent_and_local (t c : string) (v : SchemaValidator.t) :
  requireNotNull t c (requireNotNull t c v) = requireNotNull t c v /\
  tableRequirements_ (requireNotNull t c v) = tableRequirements_ v /\
  indexRequirements_ (requireNotNull t c v) = indexRequirements_ v /\
  (forall t' c', t' <> t \/ c' <> c ->
                 entries t' c' (requireNotNull t c v) = entries t' c' v).
Proof.
  unfold requireNotNull, entries.
  destruct (mark_not_null t c (columnRequirements_ v)) as [reqs|] eqn:M;
    cbn [columnRequirements_ tableRequirements_ indexRequirements_].
  - rewrite (mark_not_null_again _ _ _ _ M).
    repeat split. intros t' c' N. apply (mark_not_null_elsewhere t c); assumption.
  - rewrite (mark_not_null_appended _ _ _ M).
    repeat split. intros t' c' N. rewrite filter_app. cbn [filter].
    unfold same_column at 2. cbn [tableName columnName].
    replace (String.eqb t t' && String.eqb c c') with false; [apply app_nil_r|].
    symmetry. apply andb_false_iff.
    destruct N as [N|N]; [left|right]; apply String.eqb_neq; congruence.
Qed.

(** ** Queries that fail *)

Section MoreWithCatalog.
Variable conn : Catalog.t.

Lemma bind_returns {S A B : Type} (m : M S A) (k : A -> M S B) (s s' : S) (b : B) :
  bind m k s = (Ok b, s') -> exists a s1, m s = (Ok a, s1) /\ k a s1 = (Ok b, s').
Proof.
  unfold bind. destruct (m s) as [[a|e] s1]; [|discriminate].
  intros E. exists a, s1. split; [reflexivity|exact E].
Qed.

Lemma check_tables_answered (reqs : list TableRequirement) :
  forall acc acc',
  check_tables conn reqs acc = (Ok tt, acc') ->
  forall req, In req reqs -> exists b, Catalog.master_table conn (name req) = Ok b.
Proof.
  induction reqs as [|r rest IH]; intros acc acc' R req I; [destruct I|].
  cbn [check_tables] in R.
  apply bind_returns in R. destruct R as [b [s1 [Q R]]].
  apply bind_returns in R. destruct R as [u [s2 [_ R]]].
  unfold query in Q. destruct I as [<-|I].
  - exists b. congruence.
  - apply (IH _ _ R req I).
Qed.

Lemma check_columns_answered (reqs : list ColumnRequirement) :
  forall acc acc',
  check_columns conn reqs acc = (Ok tt, acc') ->
  forall req, In req reqs ->
  exists cursor, Catalog.table_info conn (tableName req) = Ok cursor.
Proof.
  induction reqs as [|r rest IH]; intros acc acc' R req I; [destruct I|].
  cbn [check_columns] in R.
  apply bind_returns in R. destruct R as [cur [s1 [Q R]]].
  apply bind_returns in R. destruct R as [found [s2 [_ R]]].
  apply bind_returns in R. destruct R as [u [s3 [_ R]]].
  unfold query in Q. destruct I as [<-|I].
  - exists cur. congruence.
  - apply (IH _ _ R req I).
Qed.

Lemma check_indexes_answered (reqs : list IndexRequirement) :
  forall acc acc',
  check_indexes conn reqs acc = (Ok tt, acc') ->
  forall req, In req reqs ->
  exists b, Catalog.master_index conn (index_tableName req) (indexName req) = Ok b.
Proof.
  induction reqs as [|r rest IH]; intros acc acc' R req I; [destruct I|].
  cbn [check_indexes] in R.
  apply bind_returns in R. destruct R as [b [s1 [Q R]]].
  apply bind_returns in R. destruct R as [u [s2 [_ R]]].
  unfold query in Q. destruct I as [<-|I].
  - exists b. congruence.
  - apply (IH _ _ R req I).
Qed.

(** X28.  [validate] returns a list only when the engine answered every
    query it makes: the lookup of each required table, the column listing
    for each required column, the lookup of each required index.  If one
    of them throws, [validate] throws, the errors found so far are lost,
    and [validateOrThrow] throws the same exception. *)
Theorem validate_returns_only_if_all_queries_answer
        (v : SchemaValidator.t) (errors : list ValidationError) :
  validate conn v = Ok errors ->
  (forall req, In req (tableRequirements_ v) ->
     exists b, Catalog.master_table conn (name req) = Ok b) /\
  (forall req, In req (columnRequirements_ v) ->
     exists cursor, Catalog.table_info conn (tableName req) = Ok cursor) /\
  (forall req, In req (indexRequirements_ v) ->
     exists b, Catalog.master_index conn (index_tableName req) (indexName req) = Ok b) /\
  (forall w e, validate conn w = Throw e -> validateOrThrow conn w = Throw e).
Proof.
  intros V.
  assert (Last : forall w e, validate conn w = Throw e -> validateOrThrow conn w = Throw e).
  { intros w e E. unfold validateOrThrow. rewrite E. reflexivity. }
  revert V. unfold validate.
  destruct ((check_tables conn (tableRequirements_ v) ;;
             check_columns conn (columnRequirements_ v) ;;
             check_indexes conn (indexRequirements_ v)) []) as [[[]|e] s] eqn:R;
    [|discriminate].
  intros _.
  apply bind_returns in R. destruct R as [[] [s1 [R1 R]]].
  apply bind_returns in R. destruct R as [[] [s2 [R2 R3]]].
  split; [exact (check_tables_answered _ _ _ R1)|].
  split; [exact (check_columns_answered _ _ _ R2)|].
  split; [exact (check_indexes_answered _ _ _ R3)|].
  exact Last.
Qed.

(** The text [validateOrThrow] builds after its first line. *)
Lemma listing_app (l1 l2 : list ValidationError) :
  fold_right (fun error rest => "  - " +++ message error +++ newline +++ rest) "" (l1 ++ l2) =
  fold_right (fun error rest => "  - " +++ message error +++ newline +++ rest) "" l1 +++
  fold_right (fun error rest => "  - " +++ message error +++ newline +++ rest) "" l2.
Proof.
  induction l1 as [|e l1 IH]; [reflexivity|].
  cbn [app fold_right]. rewrite IH, !append_assoc. reflexivity.
Qed.

(** X29.  When [validate] reports at least one error, [validateOrThrow]
    throws a SchemaException whose text starts with the number of errors
    and holds one line with the message of each error, the lines in the
    order of the errors; when it reports none, [validateOrThrow]
    returns. *)
Theorem validateOrThrow_lists_every_error
        (v : SchemaValidator.t) (errors : list ValidationError) :
  validate conn v = Ok errors ->
  (errors = [] -> validateOrThrow conn v = Ok tt) /\
  (errors <> [] ->
   exists text,
     validateOrThrow conn v = Throw (SchemaException text) /\
     String.prefix ("Schema validation failed with " +++
                    to_string (Z.of_nat (length errors)) +++ " error(s):" +++ newline)
                   text = true /\
     (forall before e after,
        errors = before ++ e :: after ->
        exists pre post,
          text = pre +++ ("  - " +++ message e +++ newline) +++ post /\
          (forall x, In x before ->
                     contains pre ("  - " +++ message x +++ newline) = true) /\
          (forall x, In x after ->
                     contains post ("  - " +++ message x +++ newline) = true))).
Proof.
  intros V. unfold validateOrThrow. rewrite V.
  split; [intros ->; reflexivity|].
  intros N. destruct errors as [|e0 rest] eqn:E; [contradiction|]. rewrite <- E in *.
  clear N. eexists. split; [reflexivity|]. split.
  { apply prefix_spec.
    exists (fold_right (fun error rest0 =>
                          "  - " +++ message error +++ newline +++ rest0) "" errors).
    rewrite !append_assoc. reflexivity. }
  intros before e after ->.
  assert (Line : forall l x, In x l ->
            contains (fold_right (fun error rest0 =>
                                    "  - " +++ message error +++ newline +++ rest0) "" l)
                     ("  - " +++ message x +++ newline) = true).
  { intros l x I. apply in_split in I. destruct I as [l1 [l2 ->]].
    apply contains_spec.
    exists (fold_right (fun error rest0 =>
                          "  - " +++ message error +++ newline +++ rest0) "" l1),
           (fold_right (fun error rest0 =>
                          "  - " +++ message error +++ newline +++ rest0) "" l2).
    rewrite listing_app. cbn [fold_right]. rewrite !append_assoc. reflexivity. }
  exists ("Schema validation failed with " +++
          to_string (Z.of_nat (length (before ++ e :: after))) +++ " error(s):" +++ newline +++
          fold_right (fun error rest0 => "  - " +++ message error +++ newline +++ rest0)
                     "" before),
         (fold_right (fun error rest0 => "  - " +++ message error +++ newline +++ rest0)
                     "" after).
  split.
  { rewrite listing_app. cbn [fold_right]. rewrite !append_assoc. reflexivity. }
  split.
  - intros x I. apply contains_spec.
    destruct (proj1 (contains_spec _ _) (Line before x I)) as [p [q Eq]].
    exists ("Schema validation failed with " +++
            to_string (Z.of_nat (length (before ++ e :: after))) +++ " error(s):" +++
            newline +++ p), q.
    rewrite Eq, !append_assoc. reflexivity.
  - intros x I. apply Line, I.
Qed.

End MoreWithCatalog.

End MoreValidatorFacts.

(** * The further properties of the validator at work *)

Section ValidatorInstances.
Import SchemaValidator OnCatalog Examples.

(** Expected "varchar" against the declared "VARCHAR(255)": found, for
    every list of errors so far.  Expected "text" against "BLOB": one
    error. *)
Lemma type_check_is_substring_ignoring_case_witness :
  check_type (mkColumn "users" "name" "varchar" false) "VARCHAR(255)" wants_errors =
    (Ok tt, wants_errors) /\
  check_type (mkColumn "users" "name" "text" false) "BLOB" [] =
    (Ok tt, [wrong_type (mkColumn "users" "name" "text" false) "BLOB"]) /\
  upper "VarChar(255)" = upper "varchar(255)".
Proof.
  split; [|split].
  - apply (proj1 (type_check_is_substring_ignoring_case
                    (mkColumn "users" "name" "varchar" false) "VARCHAR(255)" wants_errors)).
    right. exists "", "VARCHAR", "(255)". split; reflexivity.
  - reflexivity.
  - apply (proj2 (proj2 (type_check_is_substring_ignoring_case
                           (mkColumn "users" "name" "varchar" false) "" []))).
    reflexivity.
Defined.

Lemma wants_validated :
  validate users_only wants_posts_and_name =
    Ok [mkError "missing_table" "Required table 'posts' does not exist";
        mkError "missing_column" "Required column 'users.name' does not exist"].
Proof. by_running. Qed.

(** The schema "users only" answers every query made for the two
    requirements. *)
Lemma validate_returns_only_if_all_queries_answer_witness :
  (forall req, In req (tableRequirements_ wants_posts_and_name) ->
     exists b, Catalog.master_table users_only (name req) = Ok b) /\
  (forall req, In req (columnRequirements_ wants_posts_and_name) ->
     exists cursor, Catalog.table_info users_only (tableName req) = Ok cursor) /\
  (forall req, In req (indexRequirements_ wants_posts_and_name) ->
     exists b, Catalog.master_index users_only (index_tableName req) (indexName req) = Ok b) /\
  (forall w e, validate users_only w = Throw e -> validateOrThrow users_only w = Throw e).
Proof.
  exact (validate_returns_only_if_all_queries_answer users_only wants_posts_and_name _
           wants_validated).
Defined.

(** Two errors: the exception's text has one line for each. *)
Lemma validateOrThrow_lists_every_error_witness :
  exists text,
    validateOrThrow users_only wants_posts_and_name = Throw (SchemaException text) /\
    String.prefix ("Schema validation failed with " +++
                   to_string (Z.of_nat (length wants_errors)) +++ " error(s):" +++ newline)
                  text = true /\
    (forall before e after,
       wants_errors = before ++ e :: after ->
       exists pre post,
         text = pre +++ ("  - " +++ message e +++ newline) +++ post /\
         (forall x, In x before ->
                    contains pre ("  - " +++ message x +++ newline) = true) /\
         (forall x, In x after ->
                    contains post ("  - " +++ message x +++ newline) = true)).
Proof.
  exact (proj2 (validateOrThrow_lists_every_error users_only wants_posts_and_name
                  wants_errors wants_validated) ltac:(discriminate)).
Defined.

End ValidatorInstances.

(** * The builders of repository.cpp *)

Section BuilderTexts.

Lemma occurrences_append (c : ascii) (a b : string) :
  occurrences c (a +++ b) = (occurrences c a + occurrences c b)%nat.
Proof. induction a as [|x a IH]; cbn; [reflexivity|rewrite IH; lia]. Qed.

Lemma occurrences_joined (c : ascii) (sep : string) (items : list string) :
  occurrences c sep = 0%nat ->
  occurrences c (joined_by sep items) = list_sum (map (occurrences c) items).
Proof.
  intros Sep. induction items as [|x rest IH]; [reflexivity|].
  destruct rest as [|y rest].
  - cbn. lia.
  - change (joined_by sep (x :: y :: rest)) with (x +++ sep +++ joined_by sep (y :: rest)).
    rewrite !occurrences_append, IH, Sep. cbn [map].
    unfold list_sum. cbn [fold_right]. lia.
Qed.

Lemma length_numbered (values : list Value) : length (numbered values) = length values.
Proof.
  unfold numbered. rewrite length_combine, length_map, length_seq. apply Nat.min_id.
Qed.

Lemma digits_hold_no_placeholder (d : Decimal.uint) :
  placeholders (NilEmpty.string_of_uint d) = 0%nat.
Proof. induction d; cbn; try reflexivity; exact IHd. Qed.

Lemma to_string_holds_no_placeholder (n : Z) : placeholders (to_string n) = 0%nat.
Proof.
  unfold to_string, NilZero.string_of_int, NilZero.string_of_uint.
  destruct (Z.to_int n) as [d|d]; destruct d; cbn; try reflexivity;
    apply digits_hold_no_placeholder.
Qed.

End BuilderTexts.

Section InsertBuilderFacts.
Import InsertBuilder.

Lemma sum_of_none (entries : list (string * Value)) :
  Forall (fun e => occurrences "?" (fst e) = 0%nat) entries ->
  list_sum (map (fun x => occurrences "?" (fst x)) entries) = 0%nat.
Proof.
  induction 1 as [|e rest E _ IH]; [reflexivity|].
  cbn [map]. unfold list_sum in *. cbn [fold_right]. rewrite E, IH. reflexivity.
Qed.

Lemma sum_of_ones (entries : list (string * Value)) :
  list_sum (map (fun _ : string * Value => occurrences "?" "?") entries) = length entries.
Proof.
  induction entries as [|e rest IH]; [reflexivity|].
  cbn [map length]. unfold list_sum in *. cbn [fold_right]. rewrite IH. reflexivity.
Qed.

Lemma fst_combine {A B : Type} (a : list A) (b : list B) :
  length a = length b -> map fst (combine a b) = a.
Proof.
  revert b. induction a as [|x a IH]; intros [|y b]; cbn; try discriminate; [reflexivity|].
  intros [= L]. rewrite IH by exact L. reflexivity.
Qed.

Lemma snd_combine {A B : Type} (a : list A) (b : list B) :
  length a = length b -> map snd (combine a b) = b.
Proof.
  revert b. induction a as [|x a IH]; intros [|y b]; cbn; try discriminate; [reflexivity|].
  intros [= L]. rewrite IH by exact L. reflexivity.
Qed.

Lemma built_fields (entries : list (string * Value)) (b : InsertBuilder.t) :
  let b' := fold_left (fun b e => value (fst e) (snd e) b) entries b in
  table_ b' = table_ b /\
  columns_ b' = columns_ b ++ map fst entries /\
  values_ b' = values_ b ++ map snd entries.
Proof.
  cbv zeta. revert b. induction entries as [|e rest IH]; intros b; cbn [fold_left map].
  - rewrite !app_nil_r. auto.
  - destruct (IH (value (fst e) (snd e) b)) as [T [C V]].
    rewrite T, C, V. cbn [value table_ columns_ values_].
    rewrite <- !app_assoc. auto.
Qed.

(** X30.  The insert builder keeps placeholders and values in step.
    After any sequence of [value] calls the builder holds the columns and
    the values in call order, and, when neither the table name nor a
    column name contains a question mark, the statements of [toSql] and
    [upsert] have exactly one "?" for each value; the values are bound to
    the indexes 1, 2, ... in call order. *)
Theorem insert_placeholders_match_values
        (table : string) (entries : list (string * Value)) :
  let b := fold_left (fun b e => value (fst e) (snd e) b) entries (ctor table) in
  occurrences "?" table = 0%nat ->
  Forall (fun e => occurrences "?" (fst e) = 0%nat) entries ->
  columns_ b = map fst entries /\
  values_ b = map snd entries /\
  occurrences "?" (toSql b) = length entries /\
  occurrences "?" (upsert_sql b) = length entries /\
  map fst (bindings b) = map (fun i => Z.of_nat i + 1) (seq 0 (length entries)) /\
  map snd (bindings b) = map snd entries.
Proof.
  cbv zeta. intros Tb Cols.
  destruct (built_fields entries (ctor table)) as [T [C V]].
  cbn [ctor table_ columns_ values_ app] in T, C, V.
  set (b := fold_left (fun b e => value (fst e) (snd e) b) entries (ctor table)) in *.
  assert (Body : occurrences "?" (columns_and_placeholders b) = length entries).
  { unfold columns_and_placeholders.
    rewrite !occurrences_append, !occurrences_joined by reflexivity.
    rewrite T, C, Tb. cbn [occurrences Ascii.eqb Bool.eqb andb Nat.add].
    rewrite !map_map.
    rewrite (sum_of_none entries Cols), (sum_of_ones entries).
    lia. }
  split; [exact C|]. split; [exact V|].
  split. { unfold toSql. rewrite occurrences_append, Body. reflexivity. }
  split. { unfold upsert_sql. rewrite occurrences_append, Body. reflexivity. }
  assert (L : length (values_ b) = length entries) by (rewrite V; apply length_map).
  unfold bindings, numbered. rewrite L. split.
  - rewrite fst_combine by (rewrite length_map, length_seq, V, length_map; reflexivity).
    reflexivity.
  - rewrite snd_combine by (rewrite length_map, length_seq, V, length_map; reflexivity).
    exact V.
Qed.

End InsertBuilderFacts.

Section QueryBuilderFacts.
Import QueryBuilder.

Lemma placeholders_append (a b : string) :
  placeholders (a +++ b) = (placeholders a + placeholders b)%nat.
Proof. apply occurrences_append. Qed.

Lemma placeholders_joins (joins : list string) :
  Forall (fun j => placeholders j = 0%nat) joins ->
  placeholders (fold_right (fun j rest => " " +++ j +++ rest) "" joins) = 0%nat.
Proof.
  induction 1 as [|j rest J _ IH]; [reflexivity|].
  cbn [fold_right]. rewrite !placeholders_append, J, IH. reflexivity.
Qed.

Lemma placeholders_where (clauses : list string) :
  placeholders (match clauses with
                | [] => ""
                | _ :: _ => " WHERE " +++ joined_by " AND " clauses
                end) = list_sum (map placeholders clauses).
Proof.
  destruct clauses as [|c rest]; [reflexivity|].
  rewrite placeholders_append. unfold placeholders at 2.
  rewrite occurrences_joined by reflexivity. reflexivity.
Qed.

Lemma placeholders_optional (prefix clause : string) :
  placeholders prefix = 0%nat -> placeholders clause = 0%nat ->
  placeholders (if String.eqb clause "" then "" else prefix +++ clause) = 0%nat.
Proof.
  intros P C. destruct (String.eqb clause ""); [reflexivity|].
  rewrite placeholders_append, P, C. reflexivity.
Qed.

Lemma placeholders_number (prefix : string) (n : Z) :
  placeholders prefix = 0%nat ->
  placeholders (if n >=? 0 then prefix +++ to_string n else "") = 0%nat.
Proof.
  intros P. destruct (n >=? 0); [|reflexivity].
  rewrite placeholders_append, P. apply to_string_holds_no_placeholder.
Qed.

(** The placeholders of the statement [toSql] builds. *)
Lemma placeholders_toSql (b : QueryBuilder.t) :
  well_placed b ->
  placeholders (toSql b) =
    (length (whereValues_ b) + (if hasHaving_ b then 1 else 0))%nat.
Proof.
  intros [T [S [J [W [G [O H]]]]]]. unfold toSql.
  rewrite !placeholders_append, S, T, (placeholders_joins _ J), placeholders_where, W.
  rewrite (placeholders_optional " GROUP BY " _ eq_refl G).
  rewrite (placeholders_optional " ORDER BY " _ eq_refl O).
  rewrite !placeholders_number by reflexivity.
  destruct (hasHaving_ b).
  - rewrite placeholders_append, (H eq_refl). cbn. lia.
  - cbn. lia.
Qed.

Lemma well_placed_push_clause (clause : string) (b : QueryBuilder.t) :
  well_placed b -> placeholders clause = 0%nat -> well_placed (push_clause clause b).
Proof.
  intros [T [S [J [W [G [O H]]]]]] C. unfold well_placed, push_clause.
  cbn [table_ selectClause_ joins_ whereClauses_ whereValues_ groupByClause_
       orderByClause_ hasHaving_ havingClause_].
  repeat split; try assumption.
  rewrite map_app, list_sum_app, W. cbn [map list_sum fold_right]. rewrite C. lia.
Qed.

Lemma well_placed_push_pair (clause : string) (value : Value) (b : QueryBuilder.t) :
  well_placed b -> placeholders clause = 1%nat ->
  well_placed (push_value value (push_clause clause b)).
Proof.
  intros [T [S [J [W [G [O H]]]]]] C. unfold well_placed, push_value, push_clause.
  cbn [table_ selectClause_ joins_ whereClauses_ whereValues_ groupByClause_
       orderByClause_ hasHaving_ havingClause_].
  repeat split; try assumption.
  rewrite map_app, list_sum_app, W, length_app. cbn [map list_sum fold_right length].
  rewrite C. lia.
Qed.

Lemma pushed_values (values : list Value) (b : QueryBuilder.t) :
  let b' := fold_left (fun b value => push_value value b) values b in
  table_ b' = table_ b /\ selectClause_ b' = selectClause_ b /\
  joins_ b' = joins_ b /\ whereClauses_ b' = whereClauses_ b /\
  whereValues_ b' = whereValues_ b ++ values /\
  groupByClause_ b' = groupByClause_ b /\ orderByClause_ b' = orderByClause_ b /\
  hasHaving_ b' = hasHaving_ b /\ havingClause_ b' = havingClause_ b.
Proof.
  cbv zeta. revert b. induction values as [|v rest IH]; intros b; cbn [fold_left].
  - rewrite app_nil_r. repeat split.
  - destruct (IH (push_value v b)) as [T [S [J [W [V [G [O [H C]]]]]]]].
    rewrite T, S, J, W, V, G, O, H, C. cbn [push_value table_ selectClause_ joins_
      whereClauses_ whereValues_ groupByClause_ orderByClause_ hasHaving_ havingClause_].
    rewrite <- app_assoc. repeat split.
Qed.

Lemma sum_of_one (clause : string) :
  list_sum (map placeholders [clause]) = placeholders clause.
Proof. unfold list_sum. cbn [map fold_right]. lia. Qed.

Lemma sum_of_marks (values : list Value) :
  list_sum (map placeholders (map (fun _ : Value => "?") values)) = length values.
Proof.
  induction values as [|v rest IH]; [reflexivity|].
  cbn [map length]. unfold list_sum in *. cbn [fold_right]. rewrite IH. reflexivity.
Qed.

(** X6.  The query builder keeps placeholders and bound values in step.
    A builder is well placed when its WHERE conditions hold one "?" for
    each WHERE value, its HAVING condition holds one, and nothing else
    holds any.  A new builder is well placed and [where], [whereNull],
    [whereNotNull], [whereIn] (an empty list gives the condition "1 = 0"
    and no value) and [having] keep it so.  For a well placed builder
    [fetchAll] binds exactly as many values as its statement has
    placeholders, at the indexes 1, 2, ...; [count] binds the WHERE values
    only, so with a HAVING clause its statement has one placeholder more
    than [count] binds. *)
Theorem query_placeholders_match_bindings (b : QueryBuilder.t) :
  well_placed b ->
  placeholders (fetchAll_sql b) = length (fetchAll_bindings b) /\
  map fst (fetchAll_bindings b) =
    map (fun i => Z.of_nat i + 1) (seq 0 (length (fetchAll_bindings b))) /\
  map snd (fetchAll_bindings b) =
    whereValues_ b ++ (if hasHaving_ b then [havingValue_ b] else []) /\
  placeholders (count_sql b) =
    (length (count_bindings b) + (if hasHaving_ b then 1 else 0))%nat /\
  map snd (count_bindings b) = whereValues_ b /\
  (forall table, placeholders table = 0%nat -> well_placed (ctor table)) /\
  (forall column op value,
     placeholders column = 0%nat -> placeholders op = 0%nat ->
     well_placed (where_ column op value b)) /\
  (forall column,
     placeholders column = 0%nat ->
     well_placed (whereNull column b) /\ well_placed (whereNotNull column b)) /\
  (forall column values,
     placeholders column = 0%nat ->
     well_placed (whereIn column values b) /\
     whereValues_ (whereIn column values b) = whereValues_ b ++ values) /\
  (forall condition value,
     placeholders condition = 1%nat ->
     well_placed (where_raw condition value b) /\
     well_placed (having condition value b)).
Proof.
  intros WP.
  assert (Len : forall l, length (map (fun i => Z.of_nat i + 1) (seq 0 (length l))) =
                          length (l : list Value)).
  { intros l. rewrite length_map, length_seq. reflexivity. }
  split.
  { unfold fetchAll_sql, fetchAll_bindings.
    rewrite (placeholders_toSql b WP), length_numbered, length_app.
    destruct (hasHaving_ b); reflexivity. }
  split.
  { unfold fetchAll_bindings. rewrite length_numbered. unfold numbered.
    apply fst_combine, Len. }
  split. { unfold fetchAll_bindings, numbered. apply snd_combine, Len. }
  split.
  { unfold count_sql, count_bindings. rewrite length_numbered.
    rewrite placeholders_toSql; [reflexivity|].
    destruct WP as [T [S [J [W [G [O H]]]]]]. unfold well_placed, set_select.
    cbn [table_ selectClause_ joins_ whereClauses_ whereValues_ groupByClause_
         orderByClause_ hasHaving_ havingClause_].
    repeat split; assumption. }
  split. { unfold count_bindings, numbered. apply snd_combine, Len. }
  split.
  { intros table T. unfold well_placed, ctor.
    cbn [table_ selectClause_ joins_ whereClauses_ whereValues_ groupByClause_
         orderByClause_ hasHaving_ havingClause_].
    repeat split; try assumption; try constructor. discriminate. }
  split.
  { intros column op value C P. apply well_placed_push_pair; [exact WP|].
    rewrite !placeholders_append, C, P. reflexivity. }
  split.
  { intros column C.
    split; apply well_placed_push_clause; try exact WP;
      rewrite placeholders_append, C; reflexivity. }
  split.
  { intros column values C. unfold whereIn. destruct values as [|v rest].
    - split; [apply well_placed_push_clause; [exact WP|reflexivity]|].
      cbn [push_clause whereValues_]. rewrite app_nil_r. reflexivity.
    - destruct (pushed_values (v :: rest) b) as [T [S [J [W [V [G [O [H Cl]]]]]]]].
      cbv zeta in *.
      set (b' := fold_left (fun b0 value => push_value value b0) (v :: rest) b) in *.
      destruct WP as [T0 [S0 [J0 [W0 [G0 [O0 H0]]]]]].
      split; [|cbn [push_clause whereValues_]; exact V].
      unfold well_placed, push_clause.
      cbn [table_ selectClause_ joins_ whereClauses_ whereValues_ groupByClause_
           orderByClause_ hasHaving_ havingClause_].
      rewrite T, S, J, W, V, G, O, H, Cl.
      repeat split; try assumption.
      assert (Clause : placeholders (column +++ " IN (" +++
                                     joined_by ", " (map (fun _ => "?") (v :: rest)) +++ ")") =
                       length (v :: rest)).
      { rewrite !placeholders_append, C. unfold placeholders at 2.
        rewrite occurrences_joined by reflexivity.
        change (occurrences "?") with placeholders.
        rewrite (sum_of_marks (v :: rest)).
        change (placeholders " IN (") with 0%nat. change (placeholders ")") with 0%nat.
        lia. }
      rewrite map_app, list_sum_app, W0, length_app, sum_of_one, Clause. reflexivity. }
  intros condition value C. split.
  - apply well_placed_push_pair; assumption.
  - destruct WP as [T [S [J [W [G [O H]]]]]]. unfold well_placed, having.
    cbn [table_ selectClause_ joins_ whereClauses_ whereValues_ groupByClause_
         orderByClause_ hasHaving_ havingClause_].
    repeat split; try assumption. intros _. exact C.
Qed.

End QueryBuilderFacts.

Section InsertBuilderInstances.
Import InsertBuilder Examples.

(** INSERT INTO users (name, age) VALUES (?, ?), bound to "Ann" and 30. *)
Lemma insert_placeholders_match_values_witness :
  columns_ insert_ann = ["name"; "age"] /\
  values_ insert_ann = [VText "Ann"; VInt 30] /\
  occurrences "?" (toSql insert_ann) = 2%nat /\
  occurrences "?" (upsert_sql insert_ann) = 2%nat /\
  map fst (bindings insert_ann) = [1; 2] /\
  map snd (bindings insert_ann) = [VText "Ann"; VInt 30].
Proof.
  exact (insert_placeholders_match_values "users" [("name", VText "Ann"); ("age", VInt 30)]
           eq_refl ltac:(repeat constructor)).
Defined.

End InsertBuilderInstances.

Section QueryBuilderInstances.
Import QueryBuilder Examples.

Lemma adults_by_city_well_placed : well_placed adults_by_city.
Proof. repeat split; try reflexivity; constructor. Qed.

(** Three WHERE values and one HAVING value for four placeholders;
    [count] binds three of them. *)
Lemma query_placeholders_match_bindings_witness :
  toSql adults_by_city =
    "SELECT city, COUNT(*) FROM users WHERE age > ? AND id IN (?, ?)" +++
    " GROUP BY city HAVING COUNT(*) > ?" /\
  placeholders (fetchAll_sql adults_by_city) = 4%nat /\
  fetchAll_bindings adults_by_city = [(1, VInt 18); (2, VInt 1); (3, VInt 2); (4, VInt 5)] /\
  placeholders (count_sql adults_by_city) = 4%nat /\
  count_bindings adults_by_city = [(1, VInt 18); (2, VInt 1); (3, VInt 2)] /\
  placeholders (fetchAll_sql adults_by_city) = length (fetchAll_bindings adults_by_city) /\
  placeholders (count_sql adults_by_city) =
    (length (count_bindings adults_by_city) +
     (if hasHaving_ adults_by_city then 1 else 0))%nat.
Proof.
  destruct (query_placeholders_match_bindings adults_by_city adults_by_city_well_placed)
    as [F [_ [_ [C _]]]].
  repeat split; try reflexivity; assumption.
Defined.

End QueryBuilderInstances.
